(** * Cross-exchange arbitrage monitors

    A shallow embedding of the two arbitrage monitors of the repository,

    - [ArbitrageSpeedMonitor] of [Speedtest/arbitrage_speed_monitor.py]
      (module [Speed]) and
    - [FreeArbitrageMonitor] of [free_arbitrage_monitor.py] (module [Free]),

    with their Binance feed loops, and the properties of their price store,
    detection pass, opportunity history and reconnect loop.

    Prices are Python [float]s, that is IEEE 754 binary64 numbers: they are
    modelled by Rocq's primitive floats, whose operations round exactly as
    Python's do.  Python exceptions are values of an error monad. *)

From Stdlib Require Import Floats ZArith List Sorted Bool String Ascii Lia.
Import ListNotations.

(** Decimal literals such as [100.10] denote the nearest binary64 value,
    as they do in Python source and in [float("100.10")]. *)
Set Warnings "-inexact-float,-register-all".

(** ** Python values, exceptions and dictionaries *)

Module Py.

Inductive exn : Set :=
| KeyError
| ZeroDivisionError
| StopIteration
| ValueError
| TypeError
| JSONDecodeError.

Inductive result (A : Type) : Type :=
| Ok (a : A)
| Raise (e : exn).

Arguments Ok {A} a.
Arguments Raise {A} e.

Definition bind {A B : Type} (r : result A) (k : A -> result B) : result B :=
  match r with
  | Ok a => k a
  | Raise e => Raise e
  end.

(** [x / y] on floats: Python raises on a zero divisor (of either sign)
    where IEEE 754 would answer an infinity or a NaN. *)
Definition truediv (x y : float) : result float :=
  if (y =? 0)%float then Raise ZeroDivisionError else Ok (x / y)%float.

(** A [dict] with string keys: an association list in insertion order,
    since [list(d.keys())] and [d.items()] iterate in that order. *)
Definition dict (V : Type) : Type := list (string * V).

Definition keys {V : Type} (d : dict V) : list string := map fst d.

(** [d[k]] *)
Fixpoint getitem {V : Type} (d : dict V) (k : string) : result V :=
  match d with
  | [] => Raise KeyError
  | (k', v) :: d' => if String.eqb k k' then Ok v else getitem d' k
  end.

(** [d.get(k, default)] *)
Definition get {V : Type} (d : dict V) (k : string) (default : V) : V :=
  match getitem d k with
  | Ok v => v
  | Raise _ => default
  end.

(** [d[k] = v]: an existing key keeps its place, a new one goes last. *)
Fixpoint setitem {V : Type} (d : dict V) (k : string) (v : V) : dict V :=
  match d with
  | [] => [(k, v)]
  | (k', v') :: d' =>
      if String.eqb k k' then (k, v) :: d' else (k', v') :: setitem d' k v
  end.

(** [max(xs)] and [min(xs)] on a list of floats: the first element, replaced
    by each later one that compares greater (smaller) than the current
    choice; [ValueError] on an empty list. *)
Definition max_float (xs : list float) : result float :=
  match xs with
  | [] => Raise ValueError
  | x :: rest =>
      Ok (fold_left (fun best y => if (best <? y)%float then y else best) rest x)
  end.

Definition min_float (xs : list float) : result float :=
  match xs with
  | [] => Raise ValueError
  | x :: rest =>
      Ok (fold_left (fun best y => if (y <? best)%float then y else best) rest x)
  end.

(** [max(xs, key=key)]: the first element whose key no later key exceeded
    when it was met; [None] stands for the empty case, which the callers
    guard. *)
Definition max_by {A : Type} (key : A -> float) (xs : list A) : option A :=
  match xs with
  | [] => None
  | x :: rest =>
      Some (fold_left
              (fun best y => if (key best <? key y)%float then y else best)
              rest x)
  end.

(** [next(x for x in xs if p x)], where evaluating [p x] may raise. *)
Fixpoint next {A : Type} (p : A -> result bool) (xs : list A) : result A :=
  match xs with
  | [] => Raise StopIteration
  | x :: rest =>
      bind (p x) (fun b => if b then Ok x else next p rest)
  end.

(** [mapM]: a list comprehension whose element expression may raise. *)
Fixpoint traverse {A B : Type} (f : A -> result B) (xs : list A)
  : result (list B) :=
  match xs with
  | [] => Ok []
  | x :: rest =>
      bind (f x) (fun y => bind (traverse f rest) (fun ys => Ok (y :: ys)))
  end.

End Py.

Import Py.

Declare Scope py_scope.
Delimit Scope py_scope with py.
Notation "x <- r ;; k" := (Py.bind r (fun x => k))
  (at level 61, r at next level, right associativity) : py_scope.
Open Scope string_scope.
Open Scope list_scope.
Open Scope py_scope.

(** The readings [time.perf_counter()] returns while one call is running:
    [c 0] is the first reading, [c 1] the second, and so on. *)
Definition clock : Type := nat -> float.

Definition later (n : nat) (c : clock) : clock := fun k => c (n + k)%nat.

(** ** [ArbitrageSpeedMonitor] *)

Module Speed.

(** A value of [self.prices]. *)
Record price : Set := mkPrice {
  bid : float;
  ask : float;
  time : float
}.

Record monitor : Type := mkMonitor {
  prices : dict price;
  message_counts : dict Z;
  start_time : float;
  last_update : dict float
}.

(** [__init__], given the reading of [perf_counter]. *)
Definition init (now : float) : monitor :=
  mkMonitor [] [] now [].

(** An element of the [opportunities] list of [check_arbitrage]. *)
Record opportunity : Set := mkOpportunity {
  buy_exchange : string;
  sell_exchange : string;
  buy_price : float;
  sell_price : float;
  profit_usd : float;
  profit_pct : float
}.

(** [for i, ex1 in enumerate(exchanges): for ex2 in exchanges[i+1:]],
    as the list of the pairs the loop body visits, in order. *)
Fixpoint pairs (exchanges : list string) : list (string * string) :=
  match exchanges with
  | [] => []
  | ex1 :: rest => map (pair ex1) rest ++ pairs rest
  end.

(** The freshness test of the loop body: [true] when the pair is skipped. *)
Definition stale (current_time : float) (price1 price2 : price) : bool :=
  (5 <? current_time - time price1)%float
  || (5 <? current_time - time price2)%float.

(** The body of the inner loop for the pair [(ex1, ex2)]; [opps] is the
    [opportunities] list so far. *)
Definition check_pair (ps : dict price) (current_time : float)
    (ex1 ex2 : string) (opps : list opportunity)
  : result (list opportunity) :=
  price1 <- getitem ps ex1 ;;
  price2 <- getitem ps ex2 ;;
  if stale current_time price1 price2 then Ok opps
  else
    let profit1 := (bid price2 - ask price1)%float in
    q1 <- truediv profit1 (ask price1) ;;
    let profit1_pct := (q1 * 100)%float in
    let profit2 := (bid price1 - ask price2)%float in
    q2 <- truediv profit2 (ask price2) ;;
    let profit2_pct := (q2 * 100)%float in
    let opps :=
      if (0.01 <? profit1_pct)%float
      then opps ++ [mkOpportunity ex1 ex2 (ask price1) (bid price2)
                      profit1 profit1_pct]
      else opps in
    let opps :=
      if (0.01 <? profit2_pct)%float
      then opps ++ [mkOpportunity ex2 ex1 (ask price2) (bid price1)
                      profit2 profit2_pct]
      else opps in
    Ok opps.

(** The two nested loops: the [k]-th pair visited reads the clock once. *)
Fixpoint scan (ps : dict price) (c : clock) (k : nat)
    (todo : list (string * string)) (opps : list opportunity)
  : result (list opportunity) :=
  match todo with
  | [] => Ok opps
  | (ex1, ex2) :: todo' =>
      opps' <- check_pair ps (c k) ex1 ex2 opps ;;
      scan ps c (S k) todo' opps'
  end.

(** The [opportunities] list at the end of the loops. *)
Definition opportunities (m : monitor) (c : clock)
  : result (list opportunity) :=
  scan (prices m) c 0 (pairs (keys (prices m))) [].

(** [check_arbitrage]: the opportunity it prints, if any. *)
Definition check_arbitrage (m : monitor) (c : clock)
  : result (option opportunity) :=
  if (List.length (prices m) <? 2)%nat then Ok None
  else
    opps <- opportunities m c ;;
    Ok (max_by profit_pct opps).

(** [update_price]: the monitor after the call, and what the final
    [check_arbitrage] did.  The store is updated before the check runs,
    so the new monitor stands even when the check raises. *)
Definition update_price (m : monitor) (exchange : string) (bid ask : float)
    (timestamp : option float) (c : clock)
  : monitor * result (option opportunity) :=
  let '(timestamp, c) :=
    match timestamp with
    | Some t => (t, c)
    | None => (c 0%nat, later 1 c)
    end in
  let m' :=
    mkMonitor
      (setitem (prices m) exchange (mkPrice bid ask timestamp))
      (setitem (message_counts m) exchange
         (get (message_counts m) exchange 0 + 1)%Z)
      (start_time m)
      (setitem (last_update m) exchange timestamp) in
  (m', check_arbitrage m' c).

End Speed.

(** ** [FreeArbitrageMonitor] *)

Module Free.

(** A value of [self.prices]. *)
Record price : Set := mkPrice {
  bid : float;
  ask : float;
  time : float;
  latency : float
}.

(** An element of [self.arbitrage_opportunities]; [time] is the wall-clock
    text [datetime.now().strftime(...)] gave. *)
Record opportunity : Set := mkOpportunity {
  opp_time : string;
  buy_exchange : string;
  sell_exchange : string;
  buy_price : float;
  sell_price : float;
  profit_usd : float;
  profit_percent : float;
  latency_buy : float;
  latency_sell : float
}.

Record monitor : Type := mkMonitor {
  prices : dict price;
  arbitrage_opportunities : list opportunity;
  total_opportunities : Z
}.

(** [deque(maxlen=100)] *)
Definition maxlen : nat := 100.

(** [deque.append] on a bounded deque: the new element goes to the right
    end and, when that makes the deque longer than [maxlen], the leftmost
    element is dropped. *)
Definition deque_append {A : Type} (q : list A) (x : A) : list A :=
  let q' := q ++ [x] in
  if (maxlen <? List.length q')%nat then tl q' else q'.

(** [__init__] *)
Definition init : monitor :=
  mkMonitor
    [("binance", mkPrice 0 0 0 0);
     ("coinbase", mkPrice 0 0 0 0);
     ("bybit", mkPrice 0 0 0 0)]
    []
    0%Z.

(** The test of the loop that builds [active_exchanges]. *)
Definition active (current_time : float) (data : price) : bool :=
  (0 <? time data)%float && (current_time - time data <? 1.0)%float.

Definition active_exchanges (ps : dict price) (current_time : float)
  : list string :=
  map fst (filter (fun item => active current_time (snd item)) ps).

(** What one call of [check_arbitrage] found, before it is recorded. *)
Record spread : Set := mkSpread {
  best_bid : float;
  best_ask : float;
  bid_exchange : string;
  ask_exchange : string
}.

(** The lines from [best_bid = max(...)] to the two [next(...)]. *)
Definition best_prices (ps : dict price) (active_exchanges : list string)
  : result spread :=
  bids <- traverse (fun ex => p <- getitem ps ex ;; Ok (bid p))
            active_exchanges ;;
  best_bid <- max_float bids ;;
  asks <- traverse (fun ex => p <- getitem ps ex ;; Ok (ask p))
            active_exchanges ;;
  best_ask <- min_float asks ;;
  bid_exchange <-
    next (fun ex => p <- getitem ps ex ;; Ok (bid p =? best_bid)%float)
      active_exchanges ;;
  ask_exchange <-
    next (fun ex => p <- getitem ps ex ;; Ok (ask p =? best_ask)%float)
      active_exchanges ;;
  Ok (mkSpread best_bid best_ask bid_exchange ask_exchange).

(** [check_arbitrage]; [current_time] is the reading of [perf_counter] and
    [stamp] the text of [datetime.now()].  The argument [updated_exchange]
    of the source is never read and is left out. *)
Definition check_arbitrage (m : monitor) (current_time : float)
    (stamp : string) : result monitor :=
  let active_exchanges := active_exchanges (prices m) current_time in
  if (List.length active_exchanges <? 2)%nat then Ok m
  else
    s <- best_prices (prices m) active_exchanges ;;
    if (best_ask s <? best_bid s)%float
       && negb (String.eqb (bid_exchange s) (ask_exchange s))
    then
      let profit_usd := (best_bid s - best_ask s)%float in
      q <- truediv profit_usd (best_ask s) ;;
      let profit_percent := (q * 100)%float in
      if (0.01 <? profit_percent)%float then
        let total := (total_opportunities m + 1)%Z in
        pa <- getitem (prices m) (ask_exchange s) ;;
        pb <- getitem (prices m) (bid_exchange s) ;;
        let opportunity :=
          mkOpportunity stamp (ask_exchange s) (bid_exchange s)
            (best_ask s) (best_bid s) profit_usd profit_percent
            (latency pa) (latency pb) in
        Ok (mkMonitor (prices m)
              (deque_append (arbitrage_opportunities m) opportunity)
              total)
      else Ok m
    else Ok m.

End Free.

(** ** Wire messages *)

Module Wire.

(** What [fast_json_loads] returns. *)
Inductive json : Type :=
| JNull
| JBool (b : bool)
| JNum (x : float)
| JStr (s : string)
| JList (items : list json)
| JDict (members : dict json).

(** A text frame, by what [fast_json_loads] makes of it: [Garbage] is a
    text that is not JSON. *)
Inductive frame : Type :=
| Garbage
| Json (data : json).

Definition loads (fr : frame) : result json :=
  match fr with
  | Garbage => Raise JSONDecodeError
  | Json data => Ok data
  end.

(** [key in data] *)
Definition contains (key : string) (data : json) : result bool :=
  match data with
  | JDict members => Ok (existsb (String.eqb key) (keys members))
  | JList items =>
      Ok (existsb (fun j => match j with
                            | JStr s => String.eqb key s
                            | _ => false
                            end) items)
  | JStr s =>
      Ok (match String.index 0 key s with Some _ => true | None => false end)
  | JNull | JBool _ | JNum _ => Raise TypeError
  end.

(** [data[key]] for a string [key] *)
Definition subscript (data : json) (key : string) : result json :=
  match data with
  | JDict members => getitem members key
  | JNull | JBool _ | JNum _ | JStr _ | JList _ => Raise TypeError
  end.

Section Float.

(** The builtin [float] on a [str]. *)
Variable float_of_string : string -> result float.

(** [float(x)] *)
Definition to_float (x : json) : result float :=
  match x with
  | JStr s => float_of_string s
  | JNum x => Ok x
  | JBool b => Ok (if b then 1 else 0)%float
  | JNull | JList _ | JDict _ => Raise TypeError
  end.

(** The decoding both Binance feeds share:
    [if 'b' in data and 'a' in data: float(data['b']), float(data['a'])].
    [Ok None] is a message that carries no quote. *)
Definition decode_book_ticker (fr : frame) : result (option (float * float)) :=
  data <- loads fr ;;
  has_b <- contains "b" data ;;
  if has_b then
    has_a <- contains "a" data ;;
    if has_a then
      b <- subscript data "b" ;;
      bid <- to_float b ;;
      a <- subscript data "a" ;;
      ask <- to_float a ;;
      Ok (Some (bid, ask))
    else Ok None
  else Ok None.

End Float.

(** *** [float] on plain decimal literals

    The examples instantiate the builtin with [float_of_decimal], which
    reads the plain decimal literals the venues send, such as ["100.10"]:
    digits with at most one point, at most 15 characters.  The digits and
    the power of ten are then both exact in binary64, so their quotient is
    the correctly rounded value, which is what [float] returns.  Every
    other text is refused here, although [float] accepts more (signs,
    exponents, ["inf"], ["nan"]). *)

(** The value of a decimal digit. *)
Definition digit (a : ascii) : option Z :=
  let n := N_of_ascii a in
  if ((48 <=? n) && (n <=? 57))%N then Some (Z.of_N n - 48)%Z else None.

(** The digits of [s] read as an integer, and how many follow the point. *)
Fixpoint digits (s : string) (acc : Z) (seen_point : bool) (scale : nat)
  : option (Z * nat) :=
  match s with
  | EmptyString => Some (acc, scale)
  | String a rest =>
      if Ascii.eqb a "."%char then
        if seen_point then None else digits rest acc true scale
      else
        match digit a with
        | Some d =>
            digits rest (10 * acc + d)%Z seen_point
              (if seen_point then S scale else scale)
        | None => None
        end
  end.

(** The float nearest to an integer. *)
Definition float_of_Z (z : Z) : float :=
  SF2Prim (binary_normalize prec emax z 0 false).

Definition float_of_decimal (s : string) : result float :=
  match s with
  | EmptyString | String "."%char EmptyString => Raise ValueError
  | _ =>
      if (15 <? String.length s)%nat then Raise ValueError
      else
        match digits s 0 false 0 with
        | Some (mantissa, scale) =>
            Ok (float_of_Z mantissa / float_of_Z (10 ^ Z.of_nat scale))%float
        | None => Raise ValueError
        end
  end.

(** A frame as the feed loop meets it: its content, the readings
    [perf_counter] returns while it is handled, and the text
    [datetime.now()] would give. *)
Record arrival : Type := mkArrival {
  payload : frame;
  readings : clock;
  stamp : string
}.

(** What the network does next, as the feed loop sees it. *)
Inductive event : Type :=
| ConnectFailed              (* [websockets.connect] raises *)
| ConnectOk                  (* the [async with] body is entered *)
| Message (a : arrival)      (* a frame is received *)
| Timeout                    (* [asyncio.wait_for] gives up after 1.0 s *)
| CloseOk                    (* the peer closes normally *)
| CloseError.                (* the connection breaks *)

Inductive phase : Set := Connecting | Streaming.

(** What a handler tells the receive loop. *)
Inductive control : Set := Continue | Break.

End Wire.

Import Wire.

(** ** [ArbitrageSpeedMonitor.binance_feed] *)

Module SpeedFeed.

Record feed : Type := mkFeed {
  state : phase;
  monitor : Speed.monitor;
  delays : list Z        (* the arguments of [asyncio.sleep], oldest first *)
}.

Section Float.

Variable float_of_string : string -> result float.

(** The body of [async for message in ws]: any exception, be it from the
    decoding or from [update_price], is swallowed by
    [except Exception: continue]. *)
Definition on_message (m : Speed.monitor) (a : arrival)
  : Speed.monitor * control :=
  match decode_book_ticker float_of_string (payload a) with
  | Ok (Some (bid, ask)) =>
      (fst (Speed.update_price m "Binance" bid ask None (readings a)),
       Continue)
  | Ok None => (m, Continue)
  | Raise _ => (m, Continue)
  end.

(** One turn of the feed.  An event that cannot occur in the current
    phase (a frame while connecting, say) leaves the feed as it is. *)
Definition step (f : feed) (e : event) : feed :=
  match state f, e with
  | Connecting, ConnectFailed =>
      mkFeed Connecting (monitor f) (delays f ++ [1%Z])
  | Connecting, ConnectOk =>
      mkFeed Streaming (monitor f) (delays f)
  | Streaming, Message a =>
      match on_message (monitor f) a with
      | (m, Continue) => mkFeed Streaming m (delays f)
      | (m, Break) => mkFeed Connecting m (delays f)
      end
  | Streaming, CloseError =>
      mkFeed Connecting (monitor f) (delays f ++ [1%Z])
  | Streaming, CloseOk =>
      mkFeed Connecting (monitor f) (delays f)
  | _, _ => f
  end.

Definition run (f : feed) (events : list event) : feed :=
  fold_left step events f.

End Float.

Definition start (now : float) : feed :=
  mkFeed Connecting (Speed.init now) [].

End SpeedFeed.

(** ** [FreeArbitrageMonitor.monitor_binance] *)

Module FreeFeed.

Record feed : Type := mkFeed {
  state : phase;
  monitor : Free.monitor;
  delays : list Z        (* the arguments of [asyncio.sleep], oldest first *)
}.

Section Float.

Variable float_of_string : string -> result float.

(** The body of the inner [while True] once a frame has arrived.  The
    clock is read four times: [start_time], the end of the latency
    measure, the ['time'] field and [current_time] of
    [check_arbitrage].  Any exception ends the loop
    ([except Exception: ... break]); the store has been written by then
    when the exception comes from [check_arbitrage]. *)
Definition on_message (m : Free.monitor) (a : arrival)
  : Free.monitor * control :=
  let c := readings a in
  let start_time := c 0%nat in
  match decode_book_ticker float_of_string (payload a) with
  | Ok (Some (bid, ask)) =>
      let latency := ((c 1%nat - start_time) * 1000)%float in
      let m1 :=
        Free.mkMonitor
          (setitem (Free.prices m) "binance"
             (Free.mkPrice bid ask (c 2%nat) latency))
          (Free.arbitrage_opportunities m)
          (Free.total_opportunities m) in
      match Free.check_arbitrage m1 (c 3%nat) (stamp a) with
      | Ok m2 => (m2, Continue)
      | Raise _ => (m1, Break)
      end
  | Ok None => (m, Continue)
  | Raise _ => (m, Break)
  end.

(** One turn of the feed.  Leaving the receive loop leaves the
    [async with] block without an exception, so the outer loop connects
    again at once; only a failed connection sleeps. *)
Definition step (f : feed) (e : event) : feed :=
  match state f, e with
  | Connecting, ConnectFailed =>
      mkFeed Connecting (monitor f) (delays f ++ [1%Z])
  | Connecting, ConnectOk =>
      mkFeed Streaming (monitor f) (delays f)
  | Streaming, Timeout => f
  | Streaming, Message a =>
      match on_message (monitor f) a with
      | (m, Continue) => mkFeed Streaming m (delays f)
      | (m, Break) => mkFeed Connecting m (delays f)
      end
  | Streaming, (CloseError | CloseOk) =>
      mkFeed Connecting (monitor f) (delays f)
  | _, _ => f
  end.

Definition run (f : feed) (events : list event) : feed :=
  fold_left step events f.

End Float.

Definition start : feed := mkFeed Connecting Free.init [].

End FreeFeed.

(** ** Further exceptions and builtins of Python *)

Module PyMore.

(** The exceptions of [Py.exn] and those the code below can raise besides. *)
Inductive raised : Set :=
| Builtin (e : exn)
| AttributeError
| IndexError
| OverflowError.

Inductive outcome (A : Type) : Type :=
| Done (a : A)
| Failed (e : raised).

Arguments Done {A} a.
Arguments Failed {A} e.

Definition and_then {A B : Type} (r : outcome A) (k : A -> outcome B)
  : outcome B :=
  match r with
  | Done a => k a
  | Failed e => Failed e
  end.

Definition lift {A : Type} (r : result A) : outcome A :=
  match r with
  | Ok a => Done a
  | Raise e => Failed (Builtin e)
  end.

(** A list comprehension or a [for] loop that collects, whose body may
    raise. *)
Fixpoint for_each {A B : Type} (f : A -> outcome B) (xs : list A)
  : outcome (list B) :=
  match xs with
  | [] => Done []
  | x :: rest =>
      and_then (f x) (fun y =>
      and_then (for_each f rest) (fun ys => Done (y :: ys)))
  end.

(** [float(n)] for an [int]: the nearest float, and [OverflowError] when
    that is beyond the largest one. *)
Definition float_of_int (n : Z) : outcome float :=
  let x := Wire.float_of_Z n in
  if is_infinity x then Failed OverflowError else Done x.

(** [n / y] for an [int] and a [float]: the [int] is converted first. *)
Definition int_truediv (n : Z) (y : float) : outcome float :=
  and_then (float_of_int n) (fun x => lift (truediv x y)).

(** [sum(d.values())] on integers. *)
Definition sum_values (d : dict Z) : Z :=
  fold_left Z.add (map snd d) 0%Z.

(** [max(d.items(), key=lambda x: x[1])]: the first item whose count no
    later count exceeded; [ValueError] on an empty [dict]. *)
Definition max_item (d : dict Z) : result (string * Z) :=
  match d with
  | [] => Raise ValueError
  | x :: rest =>
      Ok (fold_left
            (fun best y => if (snd best <? snd y)%Z then y else best) rest x)
  end.

(** [sorted] on a list of [str]: insertion into place, by the order of the
    strings, which for UTF-8 bytes is the order of their code points. *)
Fixpoint insert_sorted (x : string) (xs : list string) : list string :=
  match xs with
  | [] => [x]
  | y :: rest =>
      if String.leb x y then x :: xs else y :: insert_sorted x rest
  end.

Definition sorted (xs : list string) : list string :=
  fold_right insert_sorted [] xs.

End PyMore.

Import PyMore.

Notation "x <~ r ;; k" := (PyMore.and_then r (fun x => k))
  (at level 61, r at next level, right associativity) : py_scope.

(** ** [ArbitrageSpeedMonitor.print_status] and the final statistics *)

Module SpeedReport.

(** The three marks of a status line. *)
Inductive light : Set := Green | Yellow | Red.

(** What one line of [print_status] shows. *)
Record row : Set := mkRow {
  exchange : string;
  bid : float;
  ask : float;
  rate : float;
  age : float;
  status : light
}.

(** The mark of a line: green [if age < 1], else yellow [if age < 3], else
    red. *)
Definition light_of (age : float) : light :=
  if (age <? 1)%float then Green
  else if (age <? 3)%float then Yellow
  else Red.

(** The body of the loop of [print_status] for one exchange. *)
Definition status_row (m : Speed.monitor) (current_time runtime : float)
    (exchange : string) : outcome row :=
  price <~ lift (getitem (Speed.prices m) exchange) ;;
  count <~ lift (getitem (Speed.message_counts m) exchange) ;;
  let age := (current_time - Speed.time price)%float in
  rate <~ (if (0 <? runtime)%float then int_truediv count runtime
           else Done 0%float) ;;
  Done (mkRow exchange (Speed.bid price) (Speed.ask price) rate age
          (light_of age)).

(** [print_status]: the lines it prints, one for each exchange in the
    order of the names. *)
Definition print_status (m : Speed.monitor) (current_time : float)
  : outcome (list row) :=
  let runtime := (current_time - Speed.start_time m)%float in
  for_each (status_row m current_time runtime)
    (sorted (keys (Speed.prices m))).

(** What the block [FINAL STATS] of [run] prints. *)
Record stats : Set := mkStats {
  runtime : float;
  total_messages : Z;
  overall_rate : float;
  fastest : string
}.

(** The statistics [run] computes after the last [print_status], given the
    reading of the clock. *)
Definition final_stats (m : Speed.monitor) (now : float) : outcome stats :=
  let runtime := (now - Speed.start_time m)%float in
  let total_messages := sum_values (Speed.message_counts m) in
  overall_rate <~ int_truediv total_messages runtime ;;
  best <~ lift (max_item (Speed.message_counts m)) ;;
  Done (mkStats runtime total_messages overall_rate (fst best)).

End SpeedReport.

(** ** The other venues *)

Module Venues.

(** [isinstance(x, str)] and [x == s] for a [str] [s] *)
Definition equals_str (x : json) (s : string) : bool :=
  match x with
  | JStr s' => String.eqb s' s
  | _ => false
  end.

(** The truth value of [x] in an [if]. *)
Definition truthy (x : json) : bool :=
  match x with
  | JNull => false
  | JBool b => b
  | JNum x => negb (x =? 0)%float
  | JStr s => negb (String.eqb s EmptyString)
  | JList items => match items with [] => false | _ :: _ => true end
  | JDict members => match members with [] => false | _ :: _ => true end
  end.

(** [x.get(key, default)]: only a [dict] has the method. *)
Definition get_method (x : json) (key : string) (default : json)
  : outcome json :=
  match x with
  | JDict members => Done (get members key default)
  | JNull | JBool _ | JNum _ | JStr _ | JList _ => Failed AttributeError
  end.

(** [x.startswith(prefix)]: only a [str] has the method. *)
Definition startswith (x : json) (prefix : string) : outcome bool :=
  match x with
  | JStr s => Done (String.prefix prefix s)
  | JNull | JBool _ | JNum _ | JList _ | JDict _ => Failed AttributeError
  end.

(** How many bytes the character that starts with the byte [a] takes in
    UTF-8. *)
Definition utf8_width (a : ascii) : nat :=
  let n := N_of_ascii a in
  if (n <? 128)%N then 1
  else if (n <? 224)%N then 2
  else if (n <? 240)%N then 3
  else 4.

(** [x[0]]: the first element of a list, the first character of a [str];
    the keys of a JSON object are strings, so [0] is never one of them. *)
Definition first (x : json) : outcome json :=
  match x with
  | JList [] => Failed IndexError
  | JList (item :: _) => Done item
  | JStr EmptyString => Failed IndexError
  | JStr (String a _ as s) => Done (JStr (substring 0 (utf8_width a) s))
  | JDict _ => Failed (Builtin KeyError)
  | JNull | JBool _ | JNum _ => Failed (Builtin TypeError)
  end.

Section Float.

Variable float_of_string : string -> result float.

(** [if bids and asks: bid = float(bids[0][0]); ask = float(asks[0][0])],
    the end of the Bybit and OKX decodings. *)
Definition top_of_book (bids asks : json) : outcome (option (float * float)) :=
  if truthy bids && truthy asks then
    b0 <~ first bids ;;
    b00 <~ first b0 ;;
    bid <~ lift (to_float float_of_string b00) ;;
    a0 <~ first asks ;;
    a00 <~ first a0 ;;
    ask <~ lift (to_float float_of_string a00) ;;
    Done (Some (bid, ask))
  else Done None.

(** The decoding of [ArbitrageSpeedMonitor.bybit_feed]. *)
Definition decode_bybit (fr : frame) : outcome (option (float * float)) :=
  data <~ lift (loads fr) ;;
  match data with
  | JDict members =>
      is_book <~ startswith (get members "topic" (JStr EmptyString)) "orderbook" ;;
      if is_book && existsb (String.eqb "data") (keys members) then
        book_data <~ lift (getitem members "data") ;;
        bids <~ get_method book_data "b" (JList []) ;;
        asks <~ get_method book_data "a" (JList []) ;;
        top_of_book bids asks
      else Done None
  | JNull | JBool _ | JNum _ | JStr _ | JList _ => Done None
  end.

(** The decoding of [ArbitrageSpeedMonitor.okx_feed]. *)
Definition decode_okx (fr : frame) : outcome (option (float * float)) :=
  data <~ lift (loads fr) ;;
  match data with
  | JDict members =>
      if existsb (String.eqb "data") (keys members) then
        channel <~ get_method (get members "arg" (JDict [])) "channel" JNull ;;
        if equals_str channel "books5" then
          levels <~ lift (getitem members "data") ;;
          book_data <~ (if truthy levels then first levels
                        else Done (JDict [])) ;;
          bids <~ get_method book_data "bids" (JList []) ;;
          asks <~ get_method book_data "asks" (JList []) ;;
          top_of_book bids asks
        else Done None
      else Done None
  | JNull | JBool _ | JNum _ | JStr _ | JList _ => Done None
  end.

(** The body of [async for message in ws] of a feed of
    [ArbitrageSpeedMonitor] that stores under [exchange] what [decode]
    finds: [except Exception: continue] swallows every exception. *)
Definition speed_on_message
    (decode : frame -> outcome (option (float * float))) (exchange : string)
    (m : Speed.monitor) (a : arrival) : Speed.monitor :=
  match decode (payload a) with
  | Done (Some (bid, ask)) =>
      fst (Speed.update_price m exchange bid ask None (readings a))
  | Done None => m
  | Failed _ => m
  end.

Definition on_bybit : Speed.monitor -> arrival -> Speed.monitor :=
  speed_on_message decode_bybit "Bybit".

Definition on_okx : Speed.monitor -> arrival -> Speed.monitor :=
  speed_on_message decode_okx "OKX".

(** The decoding of [FreeArbitrageMonitor.monitor_coinbase]:
    [if data.get('type') == 'ticker' and 'best_bid' in data:
     float(data['best_bid']), float(data['best_ask'])]. *)
Definition decode_coinbase (fr : frame) : outcome (option (float * float)) :=
  data <~ lift (loads fr) ;;
  type <~ get_method data "type" JNull ;;
  if equals_str type "ticker" then
    has_bid <~ lift (contains "best_bid" data) ;;
    if has_bid then
      b <~ lift (subscript data "best_bid") ;;
      bid <~ lift (to_float float_of_string b) ;;
      a <~ lift (subscript data "best_ask") ;;
      ask <~ lift (to_float float_of_string a) ;;
      Done (Some (bid, ask))
    else Done None
  else Done None.

(** The body of the inner [while True] of [monitor_coinbase] once a frame
    has arrived, as [FreeFeed.on_message] is for Binance. *)
Definition on_coinbase (m : Free.monitor) (a : arrival)
  : Free.monitor * control :=
  let c := readings a in
  let start_time := c 0%nat in
  match decode_coinbase (payload a) with
  | Done (Some (bid, ask)) =>
      let latency := ((c 1%nat - start_time) * 1000)%float in
      let m1 :=
        Free.mkMonitor
          (setitem (Free.prices m) "coinbase"
             (Free.mkPrice bid ask (c 2%nat) latency))
          (Free.arbitrage_opportunities m)
          (Free.total_opportunities m) in
      match Free.check_arbitrage m1 (c 3%nat) (stamp a) with
      | Ok m2 => (m2, Continue)
      | Raise _ => (m1, Break)
      end
  | Done None => (m, Continue)
  | Failed _ => (m, Break)
  end.

End Float.

End Venues.

(** ** [FreeArbitrageMonitor.monitor_bybit] *)

Module FreeBybit.

(** A frame with its text: the Bybit feed looks at the text before it
    parses it. *)
Record heard : Type := mkHeard {
  text : string;
  arrived : arrival
}.

(** The double quote. *)
Definition dquote : string := String (ascii_of_nat 34) EmptyString.

(** The bytes the feed looks for: the key [topic] in its double quotes, a
    colon, and a double quote followed by [orderbook]. *)
Definition marker : string :=
  String.append dquote
    (String.append "topic"
       (String.append dquote
          (String.append ":" (String.append dquote "orderbook")))).

(** [marker in msg.encode()] *)
Definition has_marker (msg : string) : bool :=
  match String.index 0 marker msg with
  | Some _ => true
  | None => false
  end.

Section Float.

Variable float_of_string : string -> result float.

(** The decoding of [monitor_bybit]: nothing is parsed unless the text holds
    the marker. *)
Definition decode (h : heard) : outcome (option (float * float)) :=
  if has_marker (text h) then
    data <~ lift (loads (payload (arrived h))) ;;
    has_data <~ lift (contains "data" data) ;;
    if has_data then
      book_data <~ lift (subscript data "data") ;;
      bids <~ Venues.get_method book_data "b" (JList []) ;;
      asks <~ Venues.get_method book_data "a" (JList []) ;;
      Venues.top_of_book float_of_string bids asks
    else Done None
  else Done None.

(** The body of the inner [while True] of [monitor_bybit] once a frame has
    arrived. *)
Definition on_message (m : Free.monitor) (h : heard)
  : Free.monitor * control :=
  let c := readings (arrived h) in
  let start_time := c 0%nat in
  match decode h with
  | Done (Some (bid, ask)) =>
      let latency := ((c 1%nat - start_time) * 1000)%float in
      let m1 :=
        Free.mkMonitor
          (setitem (Free.prices m) "bybit"
             (Free.mkPrice bid ask (c 2%nat) latency))
          (Free.arbitrage_opportunities m)
          (Free.total_opportunities m) in
      match Free.check_arbitrage m1 (c 3%nat) (stamp (arrived h)) with
      | Ok m2 => (m2, Continue)
      | Raise _ => (m1, Break)
      end
  | Done None => (m, Continue)
  | Failed _ => (m, Break)
  end.

End Float.

End FreeBybit.

(** ** The vocabulary of the properties *)

(** The opportunity of buying on [buy] (at its ask) and selling on [sell]
    (at its bid), with the arithmetic of the loop body of
    [ArbitrageSpeedMonitor.check_arbitrage]. *)
Definition direction (buy sell : string) (pb ps : Speed.price)
  : Speed.opportunity :=
  let profit := (Speed.bid ps - Speed.ask pb)%float in
  Speed.mkOpportunity buy sell (Speed.ask pb) (Speed.bid ps) profit
    (profit / Speed.ask pb * 100)%float.

(** The threshold test of both monitors: [profit_pct > 0.01]. *)
Definition above_threshold (pct : float) : bool := (0.01 <? pct)%float.

(** What the loop body adds for one pair read at time [t]. *)
Definition qualifying (t : float) (ex1 ex2 : string) (p1 p2 : Speed.price)
  : list Speed.opportunity :=
  if Speed.stale t p1 p2 then []
  else
    filter (fun o => above_threshold (Speed.profit_pct o))
      [direction ex1 ex2 p1 p2; direction ex2 ex1 p2 p1].

(** The [k]-th pair the loops of [check_arbitrage] visit, with its quotes. *)
Definition visits (m : Speed.monitor) (k : nat) (ex1 ex2 : string)
    (p1 p2 : Speed.price) : Prop :=
  nth_error (Speed.pairs (keys (Speed.prices m))) k = Some (ex1, ex2)
  /\ getitem (Speed.prices m) ex1 = Ok p1
  /\ getitem (Speed.prices m) ex2 = Ok p2.

(** A candidate direction of a pass: one of the two directions of a visited
    pair whose quotes are both fresh when the pair is read. *)
Definition candidate (m : Speed.monitor) (c : clock) (o : Speed.opportunity)
  : Prop :=
  exists k ex1 ex2 p1 p2,
    visits m k ex1 ex2 p1 p2
    /\ Speed.stale (c k) p1 p2 = false
    /\ (o = direction ex1 ex2 p1 p2 \/ o = direction ex2 ex1 p2 p1).

(** An opportunity refers to the pair of exchanges [ex1], [ex2]. *)
Definition refers_to (o : Speed.opportunity) (ex1 ex2 : string) : Prop :=
  (Speed.buy_exchange o = ex1 /\ Speed.sell_exchange o = ex2)
  \/ (Speed.buy_exchange o = ex2 /\ Speed.sell_exchange o = ex1).

(** The stores [update_price] builds: no exchange is listed twice. *)
Definition well_formed (m : Speed.monitor) : Prop :=
  NoDup (keys (Speed.prices m)).

(** *** The quotes of the profit example *)

Definition quote_A (t : float) : Speed.price := Speed.mkPrice 100.00 100.10 t.
Definition quote_B (t : float) : Speed.price := Speed.mkPrice 100.30 100.40 t.

Definition free_quote_A (t l : float) : Free.price :=
  Free.mkPrice 100.00 100.10 t l.
Definition free_quote_B (t l : float) : Free.price :=
  Free.mkPrice 100.30 100.40 t l.

(** Buying on A at its ask and selling on B at its bid, in binary64. *)
Definition speed_A_to_B (a b : string) : Speed.opportunity :=
  Speed.mkOpportunity a b 100.10 100.30
    (100.30 - 100.10) ((100.30 - 100.10) / 100.10 * 100).

Definition free_A_to_B (stamp : string) (lA lB : float) : Free.opportunity :=
  Free.mkOpportunity stamp "binance" "coinbase" 100.10 100.30
    (100.30 - 100.10) ((100.30 - 100.10) / 100.10 * 100) lA lB.

Definition free_store_AB (tA lA tB lB : float) (third : Free.price)
  : dict Free.price :=
  [("binance", free_quote_A tA lA);
   ("coinbase", free_quote_B tB lB);
   ("bybit", third)].

(** A store with the two quotes, both written at time 10, read at time 11. *)
Definition monitor_AB : Speed.monitor :=
  Speed.mkMonitor [("A", quote_A 10); ("B", quote_B 10)] [] 0 [].

Definition clock_11 : clock := fun _ => 11%float.

(** *** A spread exactly at the threshold

    Buying at 10000 and selling at 10001 is a profit of 1, and
    [(1 / 10000) * 100] is the very float that [0.01] denotes. *)
Definition monitor_at_threshold : Speed.monitor :=
  Speed.mkMonitor
    [("A", Speed.mkPrice 10000 10000 10); ("B", Speed.mkPrice 10001 10002 10)]
    [] 0 [].

(** The percentage [FreeArbitrageMonitor.check_arbitrage] computes for a
    spread. *)
Definition free_profit_percent (s : Free.spread) : float :=
  ((Free.best_bid s - Free.best_ask s) / Free.best_ask s * 100)%float.

(** The entry [check_arbitrage] records for a spread. *)
Definition free_opportunity (ps : dict Free.price) (stamp : string)
    (s : Free.spread) (pa pb : Free.price) : Free.opportunity :=
  Free.mkOpportunity stamp (Free.ask_exchange s) (Free.bid_exchange s)
    (Free.best_ask s) (Free.best_bid s)
    (Free.best_bid s - Free.best_ask s) (free_profit_percent s)
    (Free.latency pa) (Free.latency pb).

(** *** An update older than the stored quote *)

Definition monitor_with_binance : Speed.monitor :=
  Speed.mkMonitor [("Binance", Speed.mkPrice 100 101 10)]
    [("Binance", 1%Z)] 0 [("Binance", 10%float)].

(** What a call of [FreeArbitrageMonitor.check_arbitrage] that records the
    spread [s] turns the monitor into. *)
Definition records (m : Free.monitor) (stamp : string) (s : Free.spread)
    (m' : Free.monitor) : Prop :=
  exists pa pb,
    getitem (Free.prices m) (Free.ask_exchange s) = Ok pa
    /\ getitem (Free.prices m) (Free.bid_exchange s) = Ok pb
    /\ m' = Free.mkMonitor (Free.prices m)
              (Free.deque_append (Free.arbitrage_opportunities m)
                 (free_opportunity (Free.prices m) stamp s pa pb))
              (Free.total_opportunities m + 1).

(** The test that guards the profit computation. *)
Definition crossing (s : Free.spread) : bool :=
  (Free.best_ask s <? Free.best_bid s)%float
  && negb (String.eqb (Free.bid_exchange s) (Free.ask_exchange s)).

(** The quote [update_price] stores: the timestamp given, or else the first
    reading of the clock. *)
Definition stored_quote (bid ask : float) (timestamp : option float)
    (c : clock) : Speed.price :=
  Speed.mkPrice bid ask
    (match timestamp with Some t => t | None => c 0%nat end).

(** *** A quote aged exactly one second *)

Definition free_monitor_aged : Free.monitor :=
  Free.mkMonitor
    (free_store_AB 10 0 9.5 0 (Free.mkPrice 0 0 0 0)) [] 0.

(** *** A store with a stale third quote *)

Definition monitor_ABC : Speed.monitor :=
  Speed.mkMonitor
    [("A", quote_A 10); ("B", quote_B 10); ("C", Speed.mkPrice 200 201 2)]
    [] 0 [].

(** *** Two directions with the same percentage

    X is crossed (bid 202, ask 100) and Y quotes (bid 101, ask 200): buying
    on X and selling on Y earns 1 on 100, buying on Y and selling on X earns
    2 on 200, both 1 percent. *)
Definition monitor_tie : Speed.monitor :=
  Speed.mkMonitor
    [("X", Speed.mkPrice 202 100 10); ("Y", Speed.mkPrice 101 200 10)]
    [] 0 [].

Definition tie_X_to_Y : Speed.opportunity :=
  Speed.mkOpportunity "X" "Y" 100 101 1 1.

Definition tie_Y_to_X : Speed.opportunity :=
  Speed.mkOpportunity "Y" "X" 200 202 2 1.

(** The same quotes, with Y written to the store before X. *)
Definition monitor_tie_swapped : Speed.monitor :=
  Speed.mkMonitor
    [("Y", Speed.mkPrice 101 100 10); ("X", Speed.mkPrice 101 100 10)]
    [] 0 [].

(** *** Frames of the Binance book ticker *)

(** A well-formed frame: [{"b": "100.00", "a": "100.10"}]. *)
Definition frame_A : frame :=
  Json (JDict [("b", JStr "100.00"); ("a", JStr "100.10")]).

(** A frame whose bid is not a number: [{"b": "n/a", "a": "100.10"}]. *)
Definition frame_bad_price : frame :=
  Json (JDict [("b", JStr "n/a"); ("a", JStr "100.10")]).

Definition arrive (fr : frame) : arrival := mkArrival fr clock_11 "12:00:00.000".

(** The float [x] has exactly the value [n / 10 ^ scale]. *)
Definition is_decimal (x : float) (n : Z) (scale : nat) : Prop :=
  match Prim2SF x with
  | S754_zero _ => n = 0%Z
  | S754_finite s m e =>
      let signed := (if s then - Z.pos m else Z.pos m)%Z in
      (signed * 2 ^ e * 10 ^ Z.of_nat scale = n)%Z /\ (0 <= e)%Z
      \/ (signed * 10 ^ Z.of_nat scale = n * 2 ^ (- e))%Z /\ (e < 0)%Z
  | S754_infinity _ | S754_nan => False
  end.

(** *** Best bid and best ask on the same exchange

    Binance holds the highest bid (105) and the lowest ask (100); buying on
    Bybit at 101 and selling on Coinbase at 104 would earn about 2.97
    percent. *)
Definition free_monitor_same_exchange : Free.monitor :=
  Free.mkMonitor
    [("binance", Free.mkPrice 105 100 10 0);
     ("coinbase", Free.mkPrice 104 103 10 0);
     ("bybit", Free.mkPrice 102 101 10 0)]
    [] 0.

(** [n] calls of [FreeArbitrageMonitor.check_arbitrage] in a row, at the
    same reading of the clock. *)
Fixpoint repeat_check (n : nat) (m : Free.monitor) (now : float)
    (stamp : string) : result Free.monitor :=
  match n with
  | O => Ok m
  | S n' =>
      m' <- Free.check_arbitrage m now stamp ;;
      repeat_check n' m' now stamp
  end.

(** What holds of the history and of the counter throughout a run. *)
Definition history_bounded (m : Free.monitor) : Prop :=
  (List.length (Free.arbitrage_opportunities m) <= Free.maxlen)%nat
  /\ (Z.of_nat (List.length (Free.arbitrage_opportunities m))
      <= Free.total_opportunities m)%Z.

(** No stored ask is zero: the condition under which the divisions of a pass
    of [ArbitrageSpeedMonitor.check_arbitrage] do not raise. *)
Definition asks_nonzero (m : Speed.monitor) : Prop :=
  forall ex p,
    getitem (Speed.prices m) ex = Ok p -> (Speed.ask p =? 0)%float = false.

(** *** Further vocabulary *)

(** A clock that gives the same reading throughout a pass. *)
Definition steady (t : float) : clock := fun _ => t.

(** The pair read at place [k] of a pass is fresh and one of its asks is
    zero: the loop body divides by it. *)
Definition divides_by_zero (m : Speed.monitor) (c : clock) : Prop :=
  exists k ex1 ex2 p1 p2,
    visits m k ex1 ex2 p1 p2
    /\ Speed.stale (c k) p1 p2 = false
    /\ ((Speed.ask p1 =? 0)%float = true \/ (Speed.ask p2 =? 0)%float = true).

(** One call of [update_price]: its arguments and the readings of the clock
    while it runs. *)
Record update : Type := mkUpdate {
  upd_exchange : string;
  upd_bid : float;
  upd_ask : float;
  upd_timestamp : option float;
  upd_clock : clock
}.

Definition apply_update (m : Speed.monitor) (u : update) : Speed.monitor :=
  fst (Speed.update_price m (upd_exchange u) (upd_bid u) (upd_ask u)
         (upd_timestamp u) (upd_clock u)).

(** The monitor after the calls [us], oldest first. *)
Definition apply_updates (m : Speed.monitor) (us : list update)
  : Speed.monitor :=
  fold_left apply_update us m.

(** The three dictionaries of the monitor list the same exchanges, in the
    same order, each once. *)
Definition aligned (m : Speed.monitor) : Prop :=
  keys (Speed.message_counts m) = keys (Speed.prices m)
  /\ keys (Speed.last_update m) = keys (Speed.prices m)
  /\ NoDup (keys (Speed.prices m)).

(** The line [print_status] prints for the exchange of [r] shows its stored
    quote, aged at [current_time]. *)
Definition shows_quote (m : Speed.monitor) (current_time : float)
    (r : SpeedReport.row) : Prop :=
  exists p,
    getitem (Speed.prices m) (SpeedReport.exchange r) = Ok p
    /\ SpeedReport.bid r = Speed.bid p
    /\ SpeedReport.ask r = Speed.ask p
    /\ SpeedReport.age r = (current_time - Speed.time p)%float
    /\ SpeedReport.status r = SpeedReport.light_of (SpeedReport.age r).

(** A store with a zero ask. *)
Definition monitor_zero_ask : Speed.monitor :=
  Speed.mkMonitor
    [("A", Speed.mkPrice 100 0 10); ("B", Speed.mkPrice 101 102 10)] [] 0 [].

(** *** Frames of the other venues *)

(** A side of an order book: its first level starts with the price text
    [price], followed by [rest] (the size and what else the venue gives),
    and [deeper] are the levels below. *)
Definition side (price : string) (rest deeper : list json) : json :=
  JList (JList (JStr price :: rest) :: deeper).

(** A Bybit order-book message: [{"topic": "orderbook.1.BTCUSDT",
    "data": {"b": [["100.00", "1"]], "a": [["100.10", "2"]]}}]. *)
Definition bybit_book_A : list (string * json) :=
  [("topic", JStr "orderbook.1.BTCUSDT");
   ("data", JDict [("b", side "100.00" [JStr "1"] []);
                   ("a", side "100.10" [JStr "2"] [])])].

(** An OKX books5 message. *)
Definition okx_book_A : list (string * json) :=
  [("arg", JDict [("channel", JStr "books5"); ("instId", JStr "BTC-USDT")]);
   ("data",
    JList [JDict [("asks", side "100.10" [JStr "2"; JStr "0"; JStr "1"] []);
                  ("bids", side "100.00" [JStr "1"; JStr "0"; JStr "3"] [])]])].

(** A Coinbase ticker without its ask. *)
Definition coinbase_ticker_no_ask : list (string * json) :=
  [("type", JStr "ticker"); ("best_bid", JStr "100.00")].

(** The exchanges of [FreeArbitrageMonitor], in the order of its store. *)
Definition free_exchanges : list string := ["binance"; "coinbase"; "bybit"].

(** What a recorded opportunity of [FreeArbitrageMonitor] says about the
    store it was found in, at the time of the pass. *)
Definition quotes_active_best (m : Free.monitor) (now : float)
    (o : Free.opportunity) : Prop :=
  exists pa pb,
    getitem (Free.prices m) (Free.buy_exchange o) = Ok pa
    /\ getitem (Free.prices m) (Free.sell_exchange o) = Ok pb
    /\ Free.active now pa = true
    /\ Free.active now pb = true
    /\ (Free.ask pa =? Free.buy_price o)%float = true
    /\ (Free.bid pb =? Free.sell_price o)%float = true
    /\ Free.latency_buy o = Free.latency pa
    /\ Free.latency_sell o = Free.latency pb
    /\ forall ex p,
         getitem (Free.prices m) ex = Ok p ->
         Free.active now p = true ->
         (Free.ask p <? Free.buy_price o)%float = false
         /\ (Free.sell_price o <? Free.bid p)%float = false.

(** A store of [FreeArbitrageMonitor] whose cheapest ask is zero. *)
Definition free_monitor_zero_ask : Free.monitor :=
  Free.mkMonitor
    [("binance", Free.mkPrice 100 0 10 0);
     ("coinbase", Free.mkPrice 101 102 10 0);
     ("bybit", Free.mkPrice 0 0 0 0)]
    [] 0.

(** The feeds [run] starts on one [ArbitrageSpeedMonitor]. *)
Inductive venue : Set := Binance | Bybit | OKX.

Definition venue_name (v : venue) : string :=
  match v with
  | Binance => "Binance"
  | Bybit => "Bybit"
  | OKX => "OKX"
  end.

(** What the feed of [v] decodes from a frame, exceptions swallowed. *)
Definition quote_of (float_of_string : string -> result float) (v : venue)
    (fr : frame) : option (float * float) :=
  match v with
  | Binance =>
      match decode_book_ticker float_of_string fr with
      | Ok q => q
      | Raise _ => None
      end
  | Bybit =>
      match Venues.decode_bybit float_of_string fr with
      | Done q => q
      | Failed _ => None
      end
  | OKX =>
      match Venues.decode_okx float_of_string fr with
      | Done q => q
      | Failed _ => None
      end
  end.

(** The handler of the feed of [v]: the body of its [async for].  The
    handlers have no [await], so the event loop runs each one to its end
    before the next frame, of whichever feed, is handled. *)
Definition handle_frame (float_of_string : string -> result float)
    (m : Speed.monitor) (va : venue * arrival) : Speed.monitor :=
  match fst va with
  | Binance => fst (SpeedFeed.on_message float_of_string m (snd va))
  | Bybit => Venues.on_bybit float_of_string m (snd va)
  | OKX => Venues.on_okx float_of_string m (snd va)
  end.

(** The monitor after the frames [frames] of the three feeds, in the
    order the event loop handled them. *)
Definition handle_frames (float_of_string : string -> result float)
    (m : Speed.monitor) (frames : list (venue * arrival)) : Speed.monitor :=
  fold_left (handle_frame float_of_string) frames m.

(** The frames of [v] among [frames] that gave a quote. *)
Definition quotes_from (float_of_string : string -> result float)
    (v : venue) (frames : list (venue * arrival)) : list (venue * arrival) :=
  filter (fun va =>
            match fst va, v with
            | Binance, Binance | Bybit, Bybit | OKX, OKX =>
                match quote_of float_of_string v (payload (snd va)) with
                | Some _ => true
                | None => false
                end
            | _, _ => false
            end) frames.

(** The text of a Bybit order-book message, cut after its topic. *)
Definition bybit_text : string :=
  String.append "{"
    (String.append FreeBybit.marker ".1.BTCUSDT").

(** *** Ties, runs and sequence numbers *)

(** The entry [FreeArbitrageMonitor] records for buying on the exchange
    [a] that quotes A and selling on the exchange [b] that quotes B. *)
Definition free_A_to_B_between (stamp a b : string) (lA lB : float)
  : Free.opportunity :=
  Free.mkOpportunity stamp a b 100.10 100.30
    (100.30 - 100.10) ((100.30 - 100.10) / 100.10 * 100) lA lB.

(** The same two quotes, with B written to the store before A. *)
Definition monitor_BA : Speed.monitor :=
  Speed.mkMonitor [("B", quote_B 10); ("A", quote_A 10)] [] 0 [].

(** The percentage of buying at the ask of [pb] and selling at the bid of
    [ps], with the arithmetic of [FreeArbitrageMonitor.check_arbitrage]. *)
Definition free_direction_pct (pb ps : Free.price) : float :=
  ((Free.bid ps - Free.ask pb) / Free.ask pb * 100)%float.

(** A candidate direction of a pass of [FreeArbitrageMonitor]: buying on
    one active exchange and selling on another. *)
Definition free_candidate (m : Free.monitor) (now : float)
    (buy sell : string) (pb ps : Free.price) : Prop :=
  buy <> sell
  /\ getitem (Free.prices m) buy = Ok pb
  /\ getitem (Free.prices m) sell = Ok ps
  /\ Free.active now pb = true
  /\ Free.active now ps = true.

(** The pass that turned [m] into [m'] recorded an opportunity that buys on
    [buy] and sells on [sell]. *)
Definition records_direction (m m' : Free.monitor) (buy sell : string)
  : Prop :=
  exists o,
    Free.arbitrage_opportunities m'
    = Free.deque_append (Free.arbitrage_opportunities m) o
    /\ Free.total_opportunities m' = (Free.total_opportunities m + 1)%Z
    /\ Free.buy_exchange o = buy
    /\ Free.sell_exchange o = sell.

(** A book ticker frame of Binance with the update id of the order book,
    the sequence number of the venue, in its field [u]:
    [{"u": u, "s": "BTCUSDT", "b": bid, "a": ask}]. *)
Definition ticker_with_sequence (u : float) (bid ask : string) : frame :=
  Json (JDict [("u", JNum u); ("s", JStr "BTCUSDT");
               ("b", JStr bid); ("a", JStr ask)]).

(** The sequence number a frame carries, when it carries one. *)
Definition sequence_of (fr : frame) : option float :=
  match fr with
  | Json (JDict members) =>
      match getitem members "u" with
      | Ok (JNum u) => Some u
      | _ => None
      end
  | _ => None
  end.

(** A frame handled while the clock reads [t]. *)
Definition arrive_at (t : float) (fr : frame) : arrival :=
  mkArrival fr (fun _ => t) "12:00:00.000".

(** A frame that lacks a price field: [{"b": "100.00"}]. *)
Definition frame_no_ask : frame :=
  Json (JDict [("b", JStr "100.00")]).

(** A frame is malformed for the Binance feeds when it gives no quote: it
    is not JSON, it is not an object with the fields [b] and [a], or one
    of the two is not a number. *)
Definition malformed (float_of_string : string -> result float) (fr : frame)
  : Prop :=
  forall quote, decode_book_ticker float_of_string fr <> Ok (Some quote).

(** The decoding of the frame raises. *)
Definition unparseable (float_of_string : string -> result float)
    (fr : frame) : Prop :=
  exists e, decode_book_ticker float_of_string fr = Raise e.

(** The frame is a JSON object without the field [b] or without the field
    [a]. *)
Definition missing_field (fr : frame) : Prop :=
  exists members,
    fr = Json (JDict members)
    /\ (~ In "b" (keys members) \/ ~ In "a" (keys members)).

(** [ex] leads the active exchanges on the bid: it bids at least as much as
    every one of them, and more than every one listed before it. *)
Definition leads_on_bid (ps : dict Free.price) (act : list string)
    (ex : string) : Prop :=
  exists before after pe,
    act = before ++ ex :: after
    /\ getitem ps ex = Ok pe
    /\ (forall o, In o before ->
          exists p, getitem ps o = Ok p
                    /\ (Free.bid p <? Free.bid pe)%float = true)
    /\ (forall o, In o after ->
          exists p, getitem ps o = Ok p
                    /\ (Free.bid p <=? Free.bid pe)%float = true).

(** [ex] leads the active exchanges on the ask: it asks at most as much as
    every one of them, and less than every one listed before it. *)
Definition leads_on_ask (ps : dict Free.price) (act : list string)
    (ex : string) : Prop :=
  exists before after pe,
    act = before ++ ex :: after
    /\ getitem ps ex = Ok pe
    /\ (forall o, In o before ->
          exists p, getitem ps o = Ok p
                    /\ (Free.ask pe <? Free.ask p)%float = true)
    /\ (forall o, In o after ->
          exists p, getitem ps o = Ok p
                    /\ (Free.ask pe <=? Free.ask p)%float = true).

(** [ex] holds the highest bid among the active exchanges. *)
Definition holds_highest_bid (ps : dict Free.price) (act : list string)
    (ex : string) : Prop :=
  In ex act
  /\ exists pe,
       getitem ps ex = Ok pe
       /\ forall o, In o act ->
            exists p, getitem ps o = Ok p
                      /\ (Free.bid p <=? Free.bid pe)%float = true.

(** [ex] holds the lowest ask among the active exchanges. *)
Definition holds_lowest_ask (ps : dict Free.price) (act : list string)
    (ex : string) : Prop :=
  In ex act
  /\ exists pe,
       getitem ps ex = Ok pe
       /\ forall o, In o act ->
            exists p, getitem ps o = Ok p
                      /\ (Free.ask pe <=? Free.ask p)%float = true.

(** Binance and Coinbase bid the same 105, and Coinbase asks the least. *)
Definition free_monitor_tied_bid : Free.monitor :=
  Free.mkMonitor
    [("binance", Free.mkPrice 105 103 10 0);
     ("coinbase", Free.mkPrice 105 100 10 0);
     ("bybit", Free.mkPrice 0 0 0 0)]
    [] 0.

(** A frame that one of the three feeds of [FreeArbitrageMonitor] handles. *)
Inductive free_frame : Type :=
| OnBinance (a : arrival)
| OnCoinbase (a : arrival)
| OnBybit (h : FreeBybit.heard).

(** The monitor after a feed has handled one frame.  The three feeds share
    the monitor, and a handler does not await between the receipt of a
    frame and the end of [check_arbitrage], so frames are handled one at a
    time; whether the receive loop then goes on or reconnects does not
    touch the monitor. *)
Definition free_handle (float_of_string : string -> result float)
    (m : Free.monitor) (fr : free_frame) : Free.monitor :=
  match fr with
  | OnBinance a => fst (FreeFeed.on_message float_of_string m a)
  | OnCoinbase a => fst (Venues.on_coinbase float_of_string m a)
  | OnBybit h => fst (FreeBybit.on_message float_of_string m h)
  end.

(** A run of [FreeArbitrageMonitor]: the frames its feeds handle, in the
    order they are handled. *)
Definition free_handle_all (float_of_string : string -> result float)
    (m : Free.monitor) (frames : list free_frame) : Free.monitor :=
  fold_left (free_handle float_of_string) frames m.

(** A Coinbase ticker that carries the quote B:
    [{"type": "ticker", "best_bid": "100.30", "best_ask": "100.40"}]. *)
Definition ticker_B : frame :=
  Json (JDict [("type", JStr "ticker"); ("best_bid", JStr "100.30");
               ("best_ask", JStr "100.40")]).

(** The Binance frame A followed by [n] Coinbase tickers B, all handled
    within the same second. *)
Definition standing_spread (n : nat) : list free_frame :=
  OnBinance (arrive frame_A) :: repeat (OnCoinbase (arrive ticker_B)) n.

(** What one handled frame does to the history and to the counter: nothing,
    or one entry appended and one counted. *)
Definition one_detection_at_most (m m' : Free.monitor) : Prop :=
  (Free.arbitrage_opportunities m' = Free.arbitrage_opportunities m
   /\ Free.total_opportunities m' = Free.total_opportunities m)
  \/ exists o,
       Free.arbitrage_opportunities m'
       = Free.deque_append (Free.arbitrage_opportunities m) o
       /\ Free.total_opportunities m' = (Free.total_opportunities m + 1)%Z.

(** * Properties *)

(** ** The order of binary64 numbers

    Python's [<] and [>] on floats are the IEEE 754 comparisons, which the
    standard library specifies through [SFcompare].  A NaN compares with
    nothing, so [<] is a strict order on all floats and a total one on the
    floats that are not NaN. *)

Section FloatOrder.

Local Open Scope float_scope.

Local Ltac cmp_cases :=
  repeat match goal with
  | |- context [Z.compare ?a ?b] => destruct (Z.compare_spec a b)
  | H : context [Z.compare ?a ?b] |- _ => destruct (Z.compare_spec a b)
  | |- context [Pos.compare_cont Eq ?a ?b] =>
      change (Pos.compare_cont Eq a b) with (Pos.compare a b);
      destruct (Pos.compare_spec a b)
  | H : context [Pos.compare_cont Eq ?a ?b] |- _ =>
      change (Pos.compare_cont Eq a b) with (Pos.compare a b) in H;
      destruct (Pos.compare_spec a b)
  end.

Local Ltac sf_crush :=
  intros;
  repeat match goal with
  | x : spec_float |- _ => destruct x
  | b : bool |- _ => destruct b
  end;
  simpl in *; try discriminate; try reflexivity; try congruence;
  cmp_cases; simpl in *; subst;
  try discriminate; try reflexivity; try congruence; try lia.

Lemma SFltb_trans a b c :
  SFltb a b = true -> SFltb b c = true -> SFltb a c = true.
Proof. unfold SFltb. sf_crush. Qed.

Lemma SFltb_irrefl a : SFltb a a = false.
Proof. unfold SFltb. sf_crush. Qed.

Lemma SFltb_asym a b : SFltb a b = true -> SFltb b a = false.
Proof. unfold SFltb. sf_crush. Qed.

Lemma SFleb_not_gt a b : SFleb a b = true -> SFltb b a = false.
Proof. unfold SFltb, SFleb. sf_crush. Qed.

Lemma SFeqb_not_lt a b : SFeqb a b = true -> SFltb b a = false.
Proof. unfold SFltb, SFeqb. sf_crush. Qed.

(** Among floats that are below something, that is among non-NaN floats,
    [b] not above [a] and [a] below [c] put [b] below [c]. *)
Lemma SFltb_total_trans a b c z :
  SFltb z b = true ->
  SFltb a b = false -> SFltb a c = true -> SFltb b c = true.
Proof. unfold SFltb. sf_crush. Qed.

Lemma SFleb_of_not_gt a b :
  SFeqb a a = true -> SFeqb b b = true ->
  SFltb b a = false -> SFleb a b = true.
Proof. unfold SFltb, SFleb, SFeqb. sf_crush. Qed.

Lemma ltb_trans x y z : (x <? y) = true -> (y <? z) = true -> (x <? z) = true.
Proof. rewrite !FloatAxioms.ltb_spec. apply SFltb_trans. Qed.

Lemma ltb_irrefl x : (x <? x) = false.
Proof. rewrite FloatAxioms.ltb_spec. apply SFltb_irrefl. Qed.

Lemma ltb_asym x y : (x <? y) = true -> (y <? x) = false.
Proof. rewrite !FloatAxioms.ltb_spec. apply SFltb_asym. Qed.

Lemma leb_not_gt x y : (x <=? y) = true -> (y <? x) = false.
Proof. rewrite FloatAxioms.ltb_spec, FloatAxioms.leb_spec. apply SFleb_not_gt. Qed.

Lemma eqb_not_gt x y : (x =? y) = true -> (y <? x) = false.
Proof. rewrite FloatAxioms.ltb_spec, FloatAxioms.eqb_spec. apply SFeqb_not_lt. Qed.

Lemma ltb_total_trans x y z w :
  (w <? y) = true -> (x <? y) = false -> (x <? z) = true -> (y <? z) = true.
Proof. rewrite !FloatAxioms.ltb_spec. apply SFltb_total_trans. Qed.

(** For two floats that are not NaN, "not above" is "at most". *)
Lemma not_above_iff_at_most x y :
  (x =? x) = true -> (y =? y) = true ->
  (y <? x) = false <-> (x <=? y) = true.
Proof.
  rewrite FloatAxioms.ltb_spec, FloatAxioms.leb_spec, !FloatAxioms.eqb_spec.
  intros Hx Hy. split.
  - now apply SFleb_of_not_gt.
  - apply SFleb_not_gt.
Qed.

End FloatOrder.

(** ** Equality of binary64 numbers *)

Section FloatEquality.

Local Open Scope float_scope.

Local Ltac cmp_eq :=
  repeat match goal with
  | H : context [Z.compare ?a ?b] |- _ => destruct (Z.compare_spec a b)
  | H : context [Pos.compare_cont Eq ?a ?b] |- _ =>
      change (Pos.compare_cont Eq a b) with (Pos.compare a b) in H;
      destruct (Pos.compare_spec a b)
  end.

Lemma SFeqb_eq_or_zeros a b :
  SFeqb a b = true ->
  a = b \/ (exists s t, a = S754_zero s /\ b = S754_zero t).
Proof.
  unfold SFeqb.
  destruct a as [s| s| |s m e], b as [t| t| |t m' e']; simpl;
    try discriminate; try (right; eauto; fail);
    destruct s, t; simpl; try discriminate; auto;
    intros H; cmp_eq; simpl in *; try discriminate; subst; auto.
Qed.

Lemma is_zero_spec x :
  (x =? 0) = true <-> exists s, Prim2SF x = S754_zero s.
Proof.
  rewrite FloatAxioms.eqb_spec.
  change (Prim2SF 0) with (S754_zero false).
  destruct (Prim2SF x) as [s| s| |s m e]; simpl; split;
    try discriminate; try (intros [t Ht]; discriminate); eauto.
  - destruct s; discriminate.
  - destruct s; discriminate.
Qed.

Lemma eqb_eq_or_zeros x y :
  (x =? y) = true -> x = y \/ ((x =? 0) = true /\ (y =? 0) = true).
Proof.
  rewrite FloatAxioms.eqb_spec. intros H.
  apply SFeqb_eq_or_zeros in H as [H|(s & t & Hs & Ht)].
  - left. now apply Prim2SF_inj.
  - right. rewrite !is_zero_spec. eauto.
Qed.

Lemma eqb_nonzero_eq x y :
  (x =? y) = true -> (y =? 0) = false -> x = y.
Proof.
  intros H Hy. apply eqb_eq_or_zeros in H as [H|[_ H]]; congruence.
Qed.

(** The sign of a zero does not show in what is left when a float that is
    not zero is taken from it. *)
Lemma sub_zeros x y a :
  (x =? 0) = true -> (y =? 0) = true -> (a =? 0) = false ->
  x - a = y - a.
Proof.
  intros Hx Hy Ha. apply is_zero_spec in Hx as [s Hs].
  apply is_zero_spec in Hy as [t Ht].
  assert (Hnz : forall u, Prim2SF a <> S754_zero u).
  { intros u Hu. rewrite (proj2 (is_zero_spec a)) in Ha by eauto.
    discriminate. }
  apply Prim2SF_inj. rewrite !FloatAxioms.sub_spec, Hs, Ht.
  destruct (Prim2SF a) as [u| u| |u m e]; try reflexivity.
  exfalso. now apply (Hnz u).
Qed.

Lemma ltb_not_eqb x y : (x <? y) = true -> (x =? y) = false.
Proof.
  rewrite FloatAxioms.ltb_spec, FloatAxioms.eqb_spec. unfold SFltb, SFeqb.
  destruct (SFcompare (Prim2SF x) (Prim2SF y)) as [[| |]|];
    try discriminate; reflexivity.
Qed.

Lemma gtb_not_eqb x y : (y <? x) = true -> (x =? y) = false.
Proof.
  intros H. destruct (x =? y) eqn:E; [|reflexivity].
  apply eqb_not_gt in E. congruence.
Qed.

Lemma SFcompare_refl a b c :
  SFcompare a b = Some c -> SFcompare b b = Some Eq.
Proof.
  intros H.
  assert (Hb : b <> S754_nan).
  { intros ->. destruct a; discriminate. }
  clear H. destruct b as [t| t| |t m e]; simpl; try congruence;
    destruct t; rewrite ?Z.compare_refl;
    try change (Pos.compare_cont Eq m m) with (Pos.compare m m);
    rewrite ?Pos.compare_refl; reflexivity.
Qed.

Lemma ltb_right_number x y : (x <? y) = true -> (y =? y) = true.
Proof.
  rewrite FloatAxioms.ltb_spec, FloatAxioms.eqb_spec. unfold SFltb, SFeqb.
  destruct (SFcompare (Prim2SF x) (Prim2SF y)) as [c|] eqn:E;
    [|discriminate].
  intros _. now rewrite (SFcompare_refl _ _ _ E).
Qed.

Lemma leb_right_number x y : (x <=? y) = true -> (y =? y) = true.
Proof.
  rewrite FloatAxioms.leb_spec, FloatAxioms.eqb_spec. unfold SFleb, SFeqb.
  destruct (SFcompare (Prim2SF x) (Prim2SF y)) as [c|] eqn:E;
    [|discriminate].
  intros _. now rewrite (SFcompare_refl _ _ _ E).
Qed.

Lemma ltb_left_number x y : (x <? y) = true -> (x =? x) = true.
Proof.
  intros H. destruct (x =? x) eqn:E; [reflexivity|].
  rewrite FloatAxioms.ltb_spec in H. rewrite FloatAxioms.eqb_spec in E.
  unfold SFltb in H. unfold SFeqb in E.
  destruct (Prim2SF x) as [s| s| |s m e], (Prim2SF y) as [t| t| |t m' e'];
    simpl in *; try discriminate;
    destruct s; rewrite ?Z.compare_refl in E;
    try change (Pos.compare_cont Eq m m) with (Pos.compare m m) in E;
    rewrite ?Pos.compare_refl in E; discriminate.
Qed.

Lemma leb_left_number x y : (x <=? y) = true -> (x =? x) = true.
Proof.
  intros H. destruct (x =? x) eqn:E; [reflexivity|].
  rewrite FloatAxioms.leb_spec in H. rewrite FloatAxioms.eqb_spec in E.
  unfold SFleb in H. unfold SFeqb in E.
  destruct (Prim2SF x) as [s| s| |s m e], (Prim2SF y) as [t| t| |t m' e'];
    simpl in *; try discriminate;
    destruct s; rewrite ?Z.compare_refl in E;
    try change (Pos.compare_cont Eq m m) with (Pos.compare m m) in E;
    rewrite ?Pos.compare_refl in E; discriminate.
Qed.

Lemma ltb_leb x y : (x <? y) = true -> (x <=? y) = true.
Proof.
  intros H.
  apply (proj1 (not_above_iff_at_most x y (ltb_left_number _ _ H)
                  (ltb_right_number _ _ H))).
  now apply ltb_asym.
Qed.

End FloatEquality.

(** ** Dictionaries *)

Section Dict.

Context {V : Type}.
Implicit Types (d : dict V) (k : string) (v : V).

Lemma getitem_setitem_same d k v : getitem (setitem d k v) k = Ok v.
Proof.
  induction d as [|[k' v'] d IH]; simpl.
  - now rewrite String.eqb_refl.
  - destruct (String.eqb k k') eqn:E; simpl.
    + now rewrite String.eqb_refl.
    + now rewrite E.
Qed.

Lemma getitem_setitem_other d k k' v :
  k' <> k -> getitem (setitem d k v) k' = getitem d k'.
Proof.
  intros Hne. induction d as [|[k0 v0] d IH]; simpl.
  - apply String.eqb_neq in Hne. now rewrite Hne.
  - destruct (String.eqb k k0) eqn:E; simpl.
    + apply String.eqb_eq in E. subst k0.
      apply String.eqb_neq in Hne. now rewrite Hne.
    + now rewrite IH.
Qed.

Lemma keys_setitem_in d k v x :
  In x (keys (setitem d k v)) <-> x = k \/ In x (keys d).
Proof.
  induction d as [|[k0 v0] d IH]; simpl.
  - intuition.
  - destruct (String.eqb k k0) eqn:E; simpl.
    + apply String.eqb_eq in E. subst k0. intuition.
    + rewrite IH. intuition.
Qed.

Lemma keys_setitem_NoDup d k v :
  NoDup (keys d) -> NoDup (keys (setitem d k v)).
Proof.
  induction d as [|[k0 v0] d IH]; simpl; intros Hnd.
  - constructor; [intros [] | constructor].
  - inversion Hnd as [|? ? Hnotin Hnd']; subst.
    destruct (String.eqb k k0) eqn:E; simpl.
    + apply String.eqb_eq in E. subst k0. now constructor.
    + constructor; [|now apply IH].
      rewrite keys_setitem_in. intros [->|Hin]; [|contradiction].
      now rewrite String.eqb_refl in E.
Qed.

Lemma getitem_in_keys d k : In k (keys d) -> exists v, getitem d k = Ok v.
Proof.
  induction d as [|[k0 v0] d IH]; simpl; [intros []|].
  intros Hin. destruct (String.eqb k k0) eqn:E; [now eexists|].
  destruct Hin as [->|Hin]; [now rewrite String.eqb_refl in E | now apply IH].
Qed.

Lemma getitem_keys d k v : getitem d k = Ok v -> In k (keys d).
Proof.
  induction d as [|[k0 v0] d IH]; simpl; [discriminate|].
  destruct (String.eqb k k0) eqn:E.
  - apply String.eqb_eq in E. now left.
  - intros H. right. now apply IH.
Qed.

End Dict.

(** ** The scan of [ArbitrageSpeedMonitor.check_arbitrage] *)

Section SpeedScan.

Import Speed.

Lemma pairs_in (l : list string) a b :
  In (a, b) (pairs l) -> In a l /\ In b l.
Proof.
  induction l as [|x rest IH]; simpl; [intros []|].
  rewrite in_app_iff, in_map_iff. intros [(y & Heq & Hy)|H].
  - inversion Heq; subst. auto.
  - destruct (IH H). auto.
Qed.

Lemma map_pair_NoDup (x : string) (l : list string) :
  NoDup l -> NoDup (map (pair x) l).
Proof.
  induction 1 as [|y l Hnotin Hnd IH]; simpl; constructor; [|assumption].
  rewrite in_map_iff. intros (z & Heq & Hz). inversion Heq; subst.
  contradiction.
Qed.

Lemma pairs_NoDup (l : list string) : NoDup l -> NoDup (pairs l).
Proof.
  induction l as [|x rest IH]; simpl; intros Hnd; [constructor|].
  inversion Hnd as [|? ? Hnotin Hnd']; subst.
  apply NoDup_app.
  - now apply map_pair_NoDup.
  - now apply IH.
  - intros [a b] Hin1 Hin2. apply in_map_iff in Hin1 as (y & Heq & Hy).
    inversion Heq; subst. apply pairs_in in Hin2 as [Ha _]. contradiction.
Qed.

Lemma pairs_not_swapped (l : list string) a b :
  NoDup l -> In (a, b) (pairs l) -> ~ In (b, a) (pairs l).
Proof.
  induction l as [|x rest IH]; simpl; intros Hnd; [intros []|].
  inversion Hnd as [|? ? Hnotin Hnd']; subst.
  rewrite !in_app_iff, !in_map_iff.
  intros [(y & Heq & Hy)|Hin] [(z & Heq' & Hz)|Hin'].
  - inversion Heq; inversion Heq'; subst. contradiction.
  - inversion Heq; subst. apply pairs_in in Hin' as [_ Ha]. contradiction.
  - inversion Heq'; subst. apply pairs_in in Hin as [_ Ha]. contradiction.
  - now apply (IH Hnd' Hin).
Qed.

Lemma pairs_cover (l : list string) a b :
  In a l -> In b l -> a <> b ->
  In (a, b) (Speed.pairs l) \/ In (b, a) (Speed.pairs l).
Proof.
  induction l as [|x rest IH]; simpl; [intros []|].
  intros [Ha|Ha] [Hb|Hb] Hne; subst; rewrite !in_app_iff, !in_map_iff.
  - congruence.
  - left. left. exists b. auto.
  - right. left. exists a. auto.
  - destruct (IH Ha Hb Hne); auto.
Qed.

Lemma pairs_distinct (l : list string) a b :
  NoDup l -> In (a, b) (Speed.pairs l) -> a <> b.
Proof.
  induction l as [|x rest IH]; simpl; intros Hnd; [intros []|].
  inversion Hnd as [|? ? Hnotin Hnd']; subst.
  rewrite in_app_iff, in_map_iff. intros [(y & Heq & Hy)|Hin].
  - inversion Heq; subst. intros ->. contradiction.
  - now apply IH.
Qed.

Lemma check_pair_inv ps t ex1 ex2 opps res :
  check_pair ps t ex1 ex2 opps = Ok res ->
  exists p1 p2,
    getitem ps ex1 = Ok p1 /\ getitem ps ex2 = Ok p2
    /\ res = opps ++ qualifying t ex1 ex2 p1 p2.
Proof.
  unfold check_pair, qualifying.
  destruct (getitem ps ex1) as [p1|]; simpl; [|discriminate].
  destruct (getitem ps ex2) as [p2|]; simpl; [|discriminate].
  intros H. exists p1, p2. split; [reflexivity|]. split; [reflexivity|].
  destruct (stale t p1 p2).
  - inversion H. now rewrite app_nil_r.
  - unfold truediv in H.
    destruct (ask p1 =? 0)%float; simpl in H; [discriminate|].
    destruct (ask p2 =? 0)%float; simpl in H; [discriminate|].
    inversion H; subst; clear H. unfold above_threshold, direction. simpl.
    destruct (0.01 <? _)%float; destruct (0.01 <? _)%float; simpl;
      rewrite <- ?app_assoc; simpl; rewrite ?app_nil_r; reflexivity.
Qed.

Lemma scan_inv ps c todo : forall k opps res,
  scan ps c k todo opps = Ok res ->
  exists found,
    res = opps ++ found
    /\ forall o, In o found <->
         exists j ex1 ex2 p1 p2,
           nth_error todo j = Some (ex1, ex2)
           /\ getitem ps ex1 = Ok p1 /\ getitem ps ex2 = Ok p2
           /\ In o (qualifying (c (k + j)%nat) ex1 ex2 p1 p2).
Proof.
  induction todo as [|[ex1 ex2] todo IH]; simpl; intros k opps res H.
  - inversion H; subst. exists []. split; [now rewrite app_nil_r|].
    intros o. split; [intros []|].
    intros (j & ? & ? & ? & ? & Hnth & _). destruct j; discriminate.
  - destruct (check_pair ps (c k) ex1 ex2 opps) as [opps'|] eqn:Hcp;
      simpl in H; [|discriminate].
    apply check_pair_inv in Hcp as (p1 & p2 & H1 & H2 & ->).
    apply IH in H as (found & -> & Hfound).
    exists (qualifying (c k) ex1 ex2 p1 p2 ++ found).
    split; [now rewrite app_assoc|].
    intros o. rewrite in_app_iff, Hfound. split.
    + intros [Hin|(j & a & b & q1 & q2 & Hnth & Ha & Hb & Hin)].
      * exists 0%nat, ex1, ex2, p1, p2. rewrite Nat.add_0_r. auto.
      * exists (S j), a, b, q1, q2. rewrite Nat.add_succ_r. auto.
    + intros (j & a & b & q1 & q2 & Hnth & Ha & Hb & Hin).
      destruct j as [|j]; simpl in Hnth.
      * inversion Hnth; subst. rewrite Nat.add_0_r in Hin.
        left. congruence.
      * right. exists j, a, b, q1, q2. rewrite Nat.add_succ_r in Hin. auto.
Qed.

Lemma qualifying_in t ex1 ex2 p1 p2 o :
  In o (qualifying t ex1 ex2 p1 p2) <->
  stale t p1 p2 = false
  /\ (o = direction ex1 ex2 p1 p2 \/ o = direction ex2 ex1 p2 p1)
  /\ above_threshold (profit_pct o) = true.
Proof.
  unfold qualifying. destruct (stale t p1 p2).
  - simpl. intuition discriminate.
  - rewrite filter_In. simpl. intuition.
Qed.

(** The list a completed pass has built holds exactly the candidate
    directions above the threshold. *)
Lemma opportunities_spec m c opps :
  opportunities m c = Ok opps ->
  forall o, In o opps <->
    candidate m c o /\ above_threshold (profit_pct o) = true.
Proof.
  unfold opportunities. intros H.
  apply scan_inv in H as (found & -> & Hfound). simpl.
  intros o. rewrite Hfound. unfold candidate, visits. split.
  - intros (j & ex1 & ex2 & p1 & p2 & Hnth & H1 & H2 & Hin).
    apply qualifying_in in Hin as (Hs & Ho & Ht). simpl in Hs.
    split; [|assumption]. exists j, ex1, ex2, p1, p2. auto.
  - intros [(j & ex1 & ex2 & p1 & p2 & (Hnth & H1 & H2) & Hs & Ho) Ht].
    exists j, ex1, ex2, p1, p2. repeat split; try assumption.
    apply qualifying_in. auto.
Qed.

End SpeedScan.

(** ** The profit example (C1) *)

Lemma free_two_quotes tA tB lA lB third now stamp hist total :
  Free.active now (free_quote_A tA lA) = true ->
  Free.active now (free_quote_B tB lB) = true ->
  Free.active now third = false ->
  Free.check_arbitrage
    (Free.mkMonitor (free_store_AB tA lA tB lB third) hist total) now stamp
  = Ok (Free.mkMonitor (free_store_AB tA lA tB lB third)
          (Free.deque_append hist (free_A_to_B stamp lA lB)) (total + 1)).
Proof.
  intros HA HB H3.
  unfold Free.check_arbitrage, Free.active_exchanges, free_store_AB. simpl.
  rewrite HA, HB, H3. simpl. reflexivity.
Qed.

Section TwoQuotes.

Import Speed.

Lemma scan_app ps c l1 : forall k opps l2,
  scan ps c k (l1 ++ l2) opps
  = (r <- scan ps c k l1 opps ;; scan ps c (k + List.length l1) l2 r).
Proof.
  induction l1 as [|[x y] l1 IH]; intros k opps l2; simpl.
  - now rewrite Nat.add_0_r.
  - destruct (check_pair ps (c k) x y opps) as [r|]; simpl; [|reflexivity].
    rewrite IH. now rewrite Nat.add_succ_r.
Qed.

Lemma scan_quiet ps c todo :
  (forall x y k opps, In (x, y) todo -> check_pair ps (c k) x y opps = Ok opps) ->
  forall k opps, scan ps c k todo opps = Ok opps.
Proof.
  induction todo as [|[x y] todo IH]; intros H k opps; simpl; [reflexivity|].
  rewrite H by (simpl; auto). simpl. apply IH.
  intros x' y' k' opps' Hin. apply H. simpl. auto.
Qed.

Lemma check_pair_stale ps t x y px py opps :
  getitem ps x = Ok px -> getitem ps y = Ok py ->
  stale t px py = true ->
  check_pair ps t x y opps = Ok opps.
Proof.
  intros Hx Hy Hs. unfold check_pair. rewrite Hx, Hy. simpl.
  now rewrite Hs.
Qed.

Lemma check_pair_A_B ps t a b tA tB opps :
  getitem ps a = Ok (quote_A tA) -> getitem ps b = Ok (quote_B tB) ->
  stale t (quote_A tA) (quote_B tB) = false ->
  check_pair ps t a b opps = Ok (opps ++ [speed_A_to_B a b]).
Proof.
  intros Ha Hb Hs. unfold check_pair. rewrite Ha, Hb. simpl.
  rewrite Hs. vm_compute. reflexivity.
Qed.

Lemma check_pair_B_A ps t a b tA tB opps :
  getitem ps a = Ok (quote_A tA) -> getitem ps b = Ok (quote_B tB) ->
  stale t (quote_A tA) (quote_B tB) = false ->
  check_pair ps t b a opps = Ok (opps ++ [speed_A_to_B a b]).
Proof.
  intros Ha Hb Hs. unfold check_pair. rewrite Ha, Hb. simpl.
  replace (stale t (quote_B tB) (quote_A tA)) with false
    by (rewrite <- Hs; unfold stale; apply orb_comm).
  vm_compute. reflexivity.
Qed.

Lemma two_keys {V : Type} (d : dict V) a b :
  In a (keys d) -> In b (keys d) -> a <> b -> (2 <= List.length d)%nat.
Proof.
  unfold keys. destruct d as [|[k1 v1] [|[k2 v2] d]]; simpl; intros Ha Hb Hne.
  - destruct Ha.
  - destruct Ha as [<-|[]], Hb as [<-|[]]. congruence.
  - lia.
Qed.

(** A pass over a store in which only the quotes A and B are fresh. *)
Lemma speed_two_fresh_quotes m c a b tA tB :
  well_formed m ->
  a <> b ->
  getitem (prices m) a = Ok (quote_A tA) ->
  getitem (prices m) b = Ok (quote_B tB) ->
  (forall k, stale (c k) (quote_A tA) (quote_B tB) = false) ->
  (forall x p k,
      x <> a -> x <> b -> getitem (prices m) x = Ok p ->
      (5 <? c k - time p)%float = true) ->
  opportunities m c = Ok [speed_A_to_B a b]
  /\ check_arbitrage m c = Ok (Some (speed_A_to_B a b)).
Proof.
  intros Hwf Hab Ha Hb Hfresh Hstale.
  pose proof (getitem_keys _ _ _ Ha) as Hina.
  pose proof (getitem_keys _ _ _ Hb) as Hinb.
  assert (Hquiet : forall l,
             (forall x y, In (x, y) l ->
                In (x, y) (pairs (keys (prices m)))
                /\ (x, y) <> (a, b) /\ (x, y) <> (b, a)) ->
             forall k opps, scan (prices m) c k l opps = Ok opps).
  { intros l Hl. apply scan_quiet. intros x y k opps Hin.
    destruct (Hl x y Hin) as (Hp & Hnab & Hnba).
    pose proof (pairs_distinct _ _ _ Hwf Hp) as Hxy.
    apply pairs_in in Hp as [Hx Hy].
    destruct (getitem_in_keys _ _ Hx) as (px & Hpx).
    destruct (getitem_in_keys _ _ Hy) as (py & Hpy).
    apply (check_pair_stale _ _ _ _ px py); try assumption.
    unfold stale.
    destruct (string_dec x a) as [->|Hxa].
    - destruct (string_dec y b) as [->|Hyb]; [congruence|].
      assert (Hya : y <> a) by congruence.
      rewrite (Hstale y py k Hya Hyb Hpy). apply orb_true_r.
    - destruct (string_dec x b) as [->|Hxb].
      + destruct (string_dec y a) as [->|Hya]; [congruence|].
        assert (Hyb : y <> b) by congruence.
        rewrite (Hstale y py k Hya Hyb Hpy). apply orb_true_r.
      + now rewrite (Hstale x px k Hxa Hxb Hpx). }
  assert (Hopps : opportunities m c = Ok [speed_A_to_B a b]).
  { unfold opportunities.
    pose proof (pairs_NoDup _ Hwf) as Hnd.
    destruct (pairs_cover _ a b Hina Hinb Hab) as [Hin|Hin];
      destruct (in_split _ _ Hin) as (l1 & l2 & Hsplit);
      rewrite Hsplit in Hnd;
      pose proof (NoDup_remove_2 _ _ _ Hnd) as Hnotin;
      assert (Hrest : forall x y, In (x, y) l1 \/ In (x, y) l2 ->
                 In (x, y) (pairs (keys (prices m)))
                 /\ (x, y) <> (a, b) /\ (x, y) <> (b, a))
        by (intros x y Hxy;
            assert (Hp : In (x, y) (pairs (keys (prices m))))
              by (rewrite Hsplit; apply in_or_app; simpl; tauto);
            split; [exact Hp|];
            split; intros Heq; inversion Heq; subst;
            solve [ apply Hnotin; apply in_or_app; exact Hxy
                  | eapply pairs_not_swapped; eassumption ]);
      rewrite Hsplit, scan_app;
      rewrite (Hquiet l1) by (intros x y Hxy; apply Hrest; auto);
      cbn [bind scan].
    - rewrite (check_pair_A_B _ _ _ _ tA tB) by auto. cbn [bind app].
      apply Hquiet. intros x y Hxy. apply Hrest. auto.
    - rewrite (check_pair_B_A _ _ _ _ tA tB) by auto. cbn [bind app].
      apply Hquiet. intros x y Hxy. apply Hrest. auto. }
  split; [assumption|].
  unfold check_arbitrage. rewrite Hopps.
  pose proof (two_keys _ _ _ Hina Hinb Hab) as Hlen.
  destruct (Nat.ltb_spec (List.length (prices m)) 2); [lia|]. reflexivity.
Qed.

End TwoQuotes.

Section FreeTwoQuotes.

Import Free.

Lemma active_exchanges_cons k v rest now :
  active_exchanges ((k, v) :: rest) now
  = if active now v then k :: active_exchanges rest now
    else active_exchanges rest now.
Proof. unfold active_exchanges. simpl. now destruct (active now v). Qed.

Lemma getitem_tail {V : Type} (k : string) (v : V) rest x p :
  ~ In k (keys rest) ->
  getitem rest x = Ok p ->
  x <> k /\ getitem ((k, v) :: rest) x = Ok p.
Proof.
  intros Hk Hx. assert (Hne : x <> k).
  { intros ->. apply Hk. eapply getitem_keys; eassumption. }
  split; [assumption|]. simpl.
  now rewrite (proj2 (String.eqb_neq x k) Hne).
Qed.

Lemma active_none ps now :
  NoDup (keys ps) ->
  (forall x p, getitem ps x = Ok p -> active now p = false) ->
  active_exchanges ps now = [].
Proof.
  induction ps as [|[k v] rest IH]; intros Hnd H; [reflexivity|].
  inversion Hnd as [|? ? Hk Hnd']; subst.
  rewrite active_exchanges_cons.
  rewrite (H k v) by (simpl; now rewrite String.eqb_refl).
  apply IH; [assumption|]. intros x p Hx.
  apply (H x). now apply getitem_tail.
Qed.

Lemma active_one ps now b pb :
  NoDup (keys ps) ->
  getitem ps b = Ok pb -> active now pb = true ->
  (forall x p, x <> b -> getitem ps x = Ok p -> active now p = false) ->
  active_exchanges ps now = [b].
Proof.
  induction ps as [|[k v] rest IH]; intros Hnd Hb Hact H; [discriminate|].
  inversion Hnd as [|? ? Hk Hnd']; subst.
  rewrite active_exchanges_cons. simpl in Hb.
  destruct (String.eqb b k) eqn:E.
  - apply String.eqb_eq in E. subst k. inversion Hb; subst v.
    rewrite Hact. f_equal. apply active_none; [assumption|].
    intros x p Hx. destruct (getitem_tail b pb rest x p Hk Hx) as [Hne Hx'].
    now apply (H x).
  - apply String.eqb_neq in E.
    rewrite (H k v) by (simpl; rewrite ?String.eqb_refl; congruence).
    apply IH; try assumption. intros x p Hne Hx.
    apply (H x); [assumption|]. now apply getitem_tail.
Qed.

Lemma active_two ps now a b pa pb :
  NoDup (keys ps) ->
  a <> b ->
  getitem ps a = Ok pa -> active now pa = true ->
  getitem ps b = Ok pb -> active now pb = true ->
  (forall x p, x <> a -> x <> b -> getitem ps x = Ok p ->
               active now p = false) ->
  active_exchanges ps now = [a; b] \/ active_exchanges ps now = [b; a].
Proof.
  induction ps as [|[k v] rest IH]; intros Hnd Hab Ha Hacta Hb Hactb H;
    [discriminate|].
  inversion Hnd as [|? ? Hk Hnd']; subst.
  rewrite active_exchanges_cons. simpl in Ha, Hb.
  destruct (String.eqb a k) eqn:Ea.
  - apply String.eqb_eq in Ea. subst k. inversion Ha; subst v.
    rewrite (proj2 (String.eqb_neq b a)) in Hb by congruence.
    rewrite Hacta. left. f_equal.
    apply (active_one _ _ b pb); try assumption.
    intros x p Hne Hx. destruct (getitem_tail a pa rest x p Hk Hx) as [Hxa Hx'].
    now apply (H x).
  - destruct (String.eqb b k) eqn:Eb.
    + apply String.eqb_eq in Eb. subst k. inversion Hb; subst v.
      rewrite Hactb. right. f_equal.
      apply (active_one _ _ a pa); try assumption.
      intros x p Hne Hx.
      destruct (getitem_tail b pb rest x p Hk Hx) as [Hxb Hx'].
      now apply (H x).
    + apply String.eqb_neq in Ea, Eb.
      rewrite (H k v) by (simpl; rewrite ?String.eqb_refl; congruence).
      apply IH; try assumption. intros x p Hxa Hxb Hx.
      apply (H x); try assumption. now apply getitem_tail.
Qed.

(** A pass over a store in which only the quotes A and B are active. *)
Lemma best_prices_A_B ps a b tA lA tB lB act :
  act = [a; b] \/ act = [b; a] ->
  getitem ps a = Ok (free_quote_A tA lA) ->
  getitem ps b = Ok (free_quote_B tB lB) ->
  best_prices ps act = Ok (mkSpread 100.30 100.10 b a).
Proof.
  intros Hact Ha Hb. unfold best_prices.
  destruct Hact as [-> | ->]; cbn [traverse next bind]; rewrite Ha, Hb;
    vm_compute; reflexivity.
Qed.

(** A pass over a store in which only the quotes A and B are active. *)
Lemma free_two_active_quotes ps a b tA lA tB lB now stamp hist total :
  NoDup (keys ps) ->
  a <> b ->
  getitem ps a = Ok (free_quote_A tA lA) ->
  getitem ps b = Ok (free_quote_B tB lB) ->
  active now (free_quote_A tA lA) = true ->
  active now (free_quote_B tB lB) = true ->
  (forall x p, x <> a -> x <> b -> getitem ps x = Ok p ->
               active now p = false) ->
  check_arbitrage (mkMonitor ps hist total) now stamp
  = Ok (mkMonitor ps
          (deque_append hist (free_A_to_B_between stamp a b lA lB))
          (total + 1)).
Proof.
  intros Hnd Hab Ha Hb Hacta Hactb Hothers.
  assert (Hba : String.eqb b a = false) by (apply String.eqb_neq; congruence).
  pose proof (active_two ps now a b _ _ Hnd Hab Ha Hacta Hb Hactb Hothers)
    as Hact.
  unfold check_arbitrage. cbn [prices].
  rewrite (best_prices_A_B ps a b tA lA tB lB _ Hact Ha Hb).
  replace (List.length (active_exchanges ps now) <? 2)%nat with false
    by (destruct Hact as [-> | ->]; reflexivity).
  cbn [bind best_ask best_bid bid_exchange ask_exchange].
  rewrite Hba, Ha, Hb. reflexivity.
Qed.

End FreeTwoQuotes.

(** C1, as the code has it: with the quotes A(bid 100.00, ask 100.10) and
    B(bid 100.30, ask 100.40) in the store, on any two exchanges and in
    either order, both fresh and every other quote of the store stale, one
    pass of either monitor finds exactly one opportunity, buying on A at
    100.10 and selling on B at 100.30, and none in the reverse direction.
    Its absolute profit is the binary64 difference [100.30 - 100.10], which
    is [0.20000000000000284]: within 1e-14 of 0.20, and not 0.20.  Its
    percentage is [0.19980019980020267], between 0.1998 and 0.1999. *)
Theorem C1_profit_example :
  (forall m c a b tA tB,
      well_formed m ->
      a <> b ->
      getitem (Speed.prices m) a = Ok (quote_A tA) ->
      getitem (Speed.prices m) b = Ok (quote_B tB) ->
      (forall k, Speed.stale (c k) (quote_A tA) (quote_B tB) = false) ->
      (forall x p k,
          x <> a -> x <> b -> getitem (Speed.prices m) x = Ok p ->
          (5 <? c k - Speed.time p)%float = true) ->
      Speed.opportunities m c = Ok [speed_A_to_B a b]
      /\ Speed.check_arbitrage m c = Ok (Some (speed_A_to_B a b)))
  /\ (forall ps a b tA lA tB lB now stamp hist total,
      NoDup (keys ps) ->
      a <> b ->
      getitem ps a = Ok (free_quote_A tA lA) ->
      getitem ps b = Ok (free_quote_B tB lB) ->
      Free.active now (free_quote_A tA lA) = true ->
      Free.active now (free_quote_B tB lB) = true ->
      (forall x p, x <> a -> x <> b -> getitem ps x = Ok p ->
                   Free.active now p = false) ->
      Free.check_arbitrage (Free.mkMonitor ps hist total) now stamp
      = Ok (Free.mkMonitor ps
              (Free.deque_append hist
                 (free_A_to_B_between stamp a b lA lB))
              (total + 1)))
  /\ (forall a b,
      Speed.profit_usd (speed_A_to_B a b) = 0.20000000000000284%float
      /\ (0.20 <? Speed.profit_usd (speed_A_to_B a b))%float = true
      /\ (Speed.profit_usd (speed_A_to_B a b) <? 0.20 + 1e-14)%float = true
      /\ Speed.profit_pct (speed_A_to_B a b) = 0.19980019980020267%float
      /\ (0.1998 <? Speed.profit_pct (speed_A_to_B a b))%float = true
      /\ (Speed.profit_pct (speed_A_to_B a b) <? 0.1999)%float = true)
  /\ (forall stamp a b lA lB,
      Free.profit_usd (free_A_to_B_between stamp a b lA lB)
      = Speed.profit_usd (speed_A_to_B a b)
      /\ Free.profit_percent (free_A_to_B_between stamp a b lA lB)
         = Speed.profit_pct (speed_A_to_B a b)).
Proof.
  split; [|split; [|split]].
  - exact speed_two_fresh_quotes.
  - exact free_two_active_quotes.
  - intros a b. vm_compute. repeat split.
  - intros stamp a b lA lB. split; reflexivity.
Qed.

Lemma C1_profit_example_witness :
  Speed.opportunities monitor_BA clock_11 = Ok [speed_A_to_B "A" "B"]
  /\ Speed.check_arbitrage monitor_BA clock_11
     = Ok (Some (speed_A_to_B "A" "B")).
Proof.
  apply (proj1 C1_profit_example monitor_BA clock_11 "A" "B"
           10%float 10%float).
  - unfold well_formed. simpl. repeat constructor; simpl; intuition discriminate.
  - discriminate.
  - reflexivity.
  - reflexivity.
  - intros k. vm_compute. reflexivity.
  - intros x p k Ha Hb. simpl.
    destruct (String.eqb_spec x "B") as [->|_]; [congruence|].
    destruct (String.eqb_spec x "A") as [->|_]; [congruence|].
    discriminate.
Defined.

(** C1 as stated fails on the absolute profit: the opportunity the pass
    reports does not have [profit_usd == 0.20]. *)
Lemma C1_profit_is_not_0_20 :
  exists o,
    Speed.check_arbitrage monitor_AB clock_11 = Ok (Some o)
    /\ (Speed.profit_usd o =? 0.20)%float = false.
Proof.
  exists (speed_A_to_B "A" "B"). split; vm_compute; reflexivity.
Qed.

(** ** One pass of [FreeArbitrageMonitor.check_arbitrage] *)

Section FreePass.

Import Free.

(** A pass that returns either leaves the monitor alone or records the one
    spread it computed, and it records it exactly when the spread crosses
    between two different exchanges with a percentage above 0.01. *)
Lemma free_check_inv m now stamp m' :
  check_arbitrage m now stamp = Ok m' ->
  ((List.length (active_exchanges (prices m) now) < 2)%nat /\ m' = m)
  \/ exists s,
       (2 <= List.length (active_exchanges (prices m) now))%nat
       /\ best_prices (prices m) (active_exchanges (prices m) now) = Ok s
       /\ ((crossing s = true
            /\ above_threshold (free_profit_percent s) = true
            /\ records m stamp s m')
           \/ ((crossing s = false
                \/ above_threshold (free_profit_percent s) = false)
               /\ m' = m)).
Proof.
  unfold check_arbitrage.
  destruct (Nat.ltb_spec (List.length (active_exchanges (prices m) now)) 2)
    as [Hlt|Hge].
  - intros H. inversion H; subst. left. split; [assumption|reflexivity].
  - destruct (best_prices (prices m) (active_exchanges (prices m) now))
      as [s|] eqn:Hs; simpl; [|discriminate].
    intros H. right. exists s. split; [assumption|]. split; [reflexivity|].
    fold (crossing s) in H. destruct (crossing s) eqn:Hc.
    + unfold truediv in H.
      destruct (best_ask s =? 0)%float; simpl in H; [discriminate|].
      fold (free_profit_percent s) in H.
      fold (above_threshold (free_profit_percent s)) in H.
      destruct (above_threshold (free_profit_percent s)) eqn:Ht.
      * destruct (getitem (prices m) (ask_exchange s)) as [pa|] eqn:Ha;
          simpl in H; [|discriminate].
        destruct (getitem (prices m) (bid_exchange s)) as [pb|] eqn:Hb;
          simpl in H; [|discriminate].
        inversion H; subst; clear H. left. repeat split.
        exists pa, pb. auto.
      * inversion H. right. auto.
    + inversion H. right. auto.
Qed.

Lemma free_check_prices m now stamp m' :
  check_arbitrage m now stamp = Ok m' -> prices m' = prices m.
Proof.
  intros H. apply free_check_inv in H
    as [[_ ->]|(s & _ & _ & [(_ & _ & pa & pb & _ & _ & ->)|[_ ->]])];
    reflexivity.
Qed.

End FreePass.

Lemma next_in {A : Type} (p : A -> result bool) (xs : list A) x :
  next p xs = Ok x -> In x xs /\ p x = Ok true.
Proof.
  induction xs as [|y xs IH]; simpl; [discriminate|].
  destruct (p y) as [[|]|] eqn:Hp; simpl; try discriminate.
  - intros H. inversion H; subst. auto.
  - intros H. destruct (IH H). auto.
Qed.

Section Extremum.

(** A strict order on floats: [<] for [max], [>] for [min]. *)
Variable lt : float -> float -> bool.
Hypothesis lt_trans :
  forall x y z, lt x y = true -> lt y z = true -> lt x z = true.
Hypothesis lt_irrefl : forall x, lt x x = false.

Let pick (best y : float) : float := if lt best y then y else best.

Lemma lt_not_back x y : lt x y = true -> lt y x = false.
Proof.
  intros Hxy. destruct (lt y x) eqn:Hyx; [|reflexivity].
  rewrite <- (lt_irrefl x). symmetry. eapply lt_trans; eassumption.
Qed.

Lemma fold_pick_extremal (xs : list float) : forall best,
  (lt best (fold_left pick xs best) = true \/ fold_left pick xs best = best)
  /\ Forall (fun x => lt (fold_left pick xs best) x = false) xs.
Proof.
  induction xs as [|y xs IH]; intros best; simpl; [auto|].
  destruct (lt best y) eqn:Hy.
  - replace (pick best y) with y by (unfold pick; now rewrite Hy).
    destruct (IH y) as [Hup Hall]. split.
    + left. destruct Hup as [Hup|Heq].
      * eapply lt_trans; eassumption.
      * now rewrite Heq.
    + constructor; [|assumption]. destruct Hup as [Hup|Heq].
      * now apply lt_not_back.
      * rewrite Heq. apply lt_irrefl.
  - replace (pick best y) with best by (unfold pick; now rewrite Hy).
    destruct (IH best) as [Hup Hall]. split; [assumption|].
    constructor; [|assumption]. destruct Hup as [Hup|Heq].
    + destruct (lt (fold_left pick xs best) y) eqn:Hr; [|reflexivity].
      rewrite <- Hy. symmetry. eapply lt_trans; eassumption.
    + now rewrite Heq.
Qed.

End Extremum.

Lemma max_float_greatest xs best :
  max_float xs = Ok best ->
  Forall (fun x => (best <? x)%float = false) xs.
Proof.
  destruct xs as [|x xs]; simpl; [discriminate|].
  intros H. inversion H; subst; clear H.
  destruct (fold_pick_extremal PrimFloat.ltb ltb_trans ltb_irrefl xs x)
    as [Hup Hall].
  constructor; [|exact Hall].
  destruct Hup as [Hup|Heq].
  - now apply ltb_asym.
  - rewrite Heq. apply ltb_irrefl.
Qed.

Lemma min_float_least xs best :
  min_float xs = Ok best ->
  Forall (fun x => (x <? best)%float = false) xs.
Proof.
  destruct xs as [|x xs]; simpl; [discriminate|].
  intros H. inversion H; subst; clear H.
  destruct (fold_pick_extremal (fun a b => PrimFloat.ltb b a)
              (fun a b c Hab Hbc => ltb_trans c b a Hbc Hab)
              ltb_irrefl xs x) as [Hup Hall].
  constructor; [|exact Hall].
  destruct Hup as [Hup|Heq].
  - now apply ltb_asym.
  - rewrite Heq. apply ltb_irrefl.
Qed.

Lemma traverse_in {A B : Type} (f : A -> result B) xs ys x :
  traverse f xs = Ok ys -> In x xs -> exists y, f x = Ok y /\ In y ys.
Proof.
  revert ys. induction xs as [|x0 xs IH]; intros ys; simpl; [intros _ []|].
  destruct (f x0) as [y0|] eqn:Hf; simpl; [|discriminate].
  destruct (traverse f xs) as [ys0|]; simpl; [|discriminate].
  intros H. inversion H; subst; clear H. intros [->|Hin].
  - exists y0. simpl. auto.
  - destruct (IH ys0 eq_refl Hin) as (y & Hy & Hiny). exists y. simpl. auto.
Qed.

(** The spread [check_arbitrage] computes: no active exchange bids above
    [best_bid] or asks below [best_ask], and the two exchanges named are
    active ones that quote these prices. *)
Lemma best_prices_extremal ps act s :
  Free.best_prices ps act = Ok s ->
  (forall ex p,
      In ex act -> getitem ps ex = Ok p ->
      (Free.best_bid s <? Free.bid p)%float = false
      /\ (Free.ask p <? Free.best_ask s)%float = false)
  /\ In (Free.bid_exchange s) act
  /\ In (Free.ask_exchange s) act
  /\ (exists p, getitem ps (Free.bid_exchange s) = Ok p
                /\ (Free.bid p =? Free.best_bid s)%float = true)
  /\ (exists p, getitem ps (Free.ask_exchange s) = Ok p
                /\ (Free.ask p =? Free.best_ask s)%float = true).
Proof.
  unfold Free.best_prices.
  destruct (traverse _ act) as [bids|] eqn:Hbids; simpl; [|discriminate].
  destruct (max_float bids) as [bb|] eqn:Hbb; simpl; [|discriminate].
  destruct (traverse _ act) as [asks|] eqn:Hasks in |- *; simpl;
    [|discriminate].
  destruct (min_float asks) as [ba|] eqn:Hba; simpl; [|discriminate].
  destruct (next _ act) as [be|] eqn:Hbe; simpl; [|discriminate].
  destruct (next _ act) as [ae|] eqn:Hae in |- *; simpl; [|discriminate].
  intros H. inversion H; subst; clear H. simpl.
  apply next_in in Hbe as [Hbe Hbe']. apply next_in in Hae as [Hae Hae'].
  apply max_float_greatest in Hbb. apply min_float_least in Hba.
  rewrite Forall_forall in Hbb, Hba.
  split; [|split; [assumption|split; [assumption|split]]].
  - intros ex p Hin Hp. split.
    + destruct (traverse_in _ _ _ ex Hbids Hin) as (y & Hy & Hiny).
      rewrite Hp in Hy. simpl in Hy. inversion Hy; subst. now apply Hbb.
    + destruct (traverse_in _ _ _ ex Hasks Hin) as (y & Hy & Hiny).
      rewrite Hp in Hy. simpl in Hy. inversion Hy; subst. now apply Hba.
  - destruct (getitem ps be) as [p|]; simpl in Hbe'; [|discriminate].
    exists p. split; [reflexivity|]. now inversion Hbe'.
  - destruct (getitem ps ae) as [p|]; simpl in Hae'; [|discriminate].
    exists p. split; [reflexivity|]. now inversion Hae'.
Qed.

Lemma deque_append_inj {A : Type} (q : list A) (x y : A) :
  Free.deque_append q x = Free.deque_append q y -> x = y.
Proof.
  destruct q as [|z q].
  - intros H. change ([x] = [y]) in H. now inversion H.
  - unfold Free.deque_append. rewrite !length_app. cbn [List.length].
    destruct (Free.maxlen <? S (List.length q) + 1)%nat; simpl;
      intros H; [|inversion H as [H']; clear H; rename H' into H];
      now apply app_inj_tail in H.
Qed.

(** A pass that returns did not divide by zero. *)
Lemma free_check_divisor m now stamp m' s :
  Free.check_arbitrage m now stamp = Ok m' ->
  (2 <= List.length (Free.active_exchanges (Free.prices m) now))%nat ->
  Free.best_prices (Free.prices m)
    (Free.active_exchanges (Free.prices m) now) = Ok s ->
  crossing s = true ->
  (Free.best_ask s =? 0)%float = false.
Proof.
  unfold Free.check_arbitrage. intros H Hlen Hs Hc.
  destruct (Nat.ltb_spec
              (List.length (Free.active_exchanges (Free.prices m) now)) 2)
    as [Hlt|_]; [lia|].
  rewrite Hs in H. cbn [bind] in H. fold (crossing s) in H.
  rewrite Hc in H. unfold truediv in H.
  destruct (Free.best_ask s =? 0)%float; [discriminate|reflexivity].
Qed.

(** The percentage of the spread is the percentage of the direction between
    the two exchanges the pass found. *)
Lemma free_spread_is_direction ps act s pb psell :
  Free.best_prices ps act = Ok s ->
  (Free.best_ask s =? 0)%float = false ->
  getitem ps (Free.ask_exchange s) = Ok pb ->
  getitem ps (Free.bid_exchange s) = Ok psell ->
  free_direction_pct pb psell = free_profit_percent s.
Proof.
  intros Hs Hnz Hb Hsell.
  destruct (best_prices_extremal _ _ _ Hs)
    as (_ & _ & _ & (p1 & Hp1 & Hbid) & (p2 & Hp2 & Hask)).
  rewrite Hsell in Hp1. inversion Hp1; subst p1.
  rewrite Hb in Hp2. inversion Hp2; subst p2.
  unfold free_direction_pct, free_profit_percent.
  apply eqb_nonzero_eq in Hask; [|assumption]. rewrite Hask.
  apply eqb_eq_or_zeros in Hbid as [->|[Hz1 Hz2]]; [reflexivity|].
  now rewrite (sub_zeros _ _ _ Hz1 Hz2 Hnz).
Qed.

(** ** The profit threshold (C2) *)

(** C2, as the code has it.  [ArbitrageSpeedMonitor] tests
    [profit_pct > 0.01]: a candidate direction of a pass is in the list of
    opportunities exactly when its percentage is strictly above 0.01, so
    one at 0.01 or below is left out.  In [FreeArbitrageMonitor] no
    direction between two active exchanges whose percentage is strictly
    below 0.01 is recorded; and the spread the pass computes, when it
    crosses between two exchanges, is recorded when its percentage is
    strictly above 0.01 and changes nothing when it is strictly below. *)
Theorem C2_threshold_is_strict :
  (forall m c opps o,
      Speed.opportunities m c = Ok opps ->
      candidate m c o ->
      (In o opps <-> (0.01 <? Speed.profit_pct o)%float = true)
      /\ ((Speed.profit_pct o <=? 0.01)%float = true -> ~ In o opps))
  /\ (forall m now stamp m' buy sell pb ps,
      Free.check_arbitrage m now stamp = Ok m' ->
      free_candidate m now buy sell pb ps ->
      (free_direction_pct pb ps <? 0.01)%float = true ->
      ~ records_direction m m' buy sell)
  /\ (forall m now stamp s m',
      Free.check_arbitrage m now stamp = Ok m' ->
      (2 <= List.length (Free.active_exchanges (Free.prices m) now))%nat ->
      Free.best_prices (Free.prices m)
        (Free.active_exchanges (Free.prices m) now) = Ok s ->
      crossing s = true ->
      ((0.01 <? free_profit_percent s)%float = true -> records m stamp s m')
      /\ ((free_profit_percent s <? 0.01)%float = true -> m' = m)).
Proof.
  split; [|split].
  - intros m c opps o Hopps Hcand.
    pose proof (opportunities_spec m c opps Hopps o) as Hspec.
    unfold above_threshold in Hspec. split.
    + rewrite Hspec. tauto.
    + intros Hle Hin. apply Hspec in Hin as [_ Hgt].
      apply leb_not_gt in Hle. congruence.
  - intros m now stamp m' buy sell pb ps Hcheck
      (Hne & Hb & Hsell & _ & _) Hbelow (o & Hhist & Htot & Hbuy & Hs).
    pose proof Hcheck as Hinv.
    apply free_check_inv in Hinv
      as [[_ ->]|(s & Hlen & Hbest & [(Hc & Hgt & pa & pq & Ha & Hq & ->)
                                     |[_ ->]])];
      [lia| |lia].
    cbn [Free.arbitrage_opportunities] in Hhist.
    apply deque_append_inj in Hhist. subst o.
    cbn [free_opportunity Free.buy_exchange Free.sell_exchange] in Hbuy, Hs.
    subst buy sell.
    pose proof (free_check_divisor _ _ _ _ _ Hcheck Hlen Hbest Hc) as Hnz.
    rewrite (free_spread_is_direction _ _ _ _ _ Hbest Hnz Hb Hsell)
      in Hbelow.
    unfold above_threshold in Hgt. apply ltb_asym in Hgt. congruence.
  - intros m now stamp s m' Hcheck Hlen Hs Hcross.
    apply free_check_inv in Hcheck as [[Hlt _]|(s' & _ & Hs' & Hcases)];
      [lia|].
    rewrite Hs in Hs'. inversion Hs'; subst s'; clear Hs'.
    unfold above_threshold in Hcases.
    destruct Hcases as [(_ & Hgt & Hrec)|[[Hc|Hngt] ->]].
    + split; [tauto|]. intros Hlt. apply ltb_asym in Hlt. congruence.
    + congruence.
    + split; [congruence|reflexivity].
Qed.

Lemma C2_threshold_is_strict_witness :
  In (direction "A" "B" (quote_A 10) (quote_B 10)) [speed_A_to_B "A" "B"]
  <-> (0.01 <? Speed.profit_pct (direction "A" "B" (quote_A 10) (quote_B 10)))%float
      = true.
Proof.
  apply (proj1 C2_threshold_is_strict monitor_AB clock_11).
  - vm_compute. reflexivity.
  - exists 0%nat, "A", "B", (quote_A 10), (quote_B 10).
    repeat split; try reflexivity. now left.
Defined.

(** C2 as stated fails at the boundary: a fresh direction whose percentage
    is exactly the threshold 0.01 is a candidate of the pass of
    [ArbitrageSpeedMonitor], and the pass finds no opportunity at all. *)
Lemma C2_equal_to_threshold_is_excluded :
  candidate monitor_at_threshold clock_11
    (direction "A" "B" (Speed.mkPrice 10000 10000 10)
       (Speed.mkPrice 10001 10002 10))
  /\ (Speed.profit_pct
        (direction "A" "B" (Speed.mkPrice 10000 10000 10)
           (Speed.mkPrice 10001 10002 10)) =? 0.01)%float = true
  /\ Speed.opportunities monitor_at_threshold clock_11 = Ok []
  /\ Speed.check_arbitrage monitor_at_threshold clock_11 = Ok None.
Proof.
  split.
  - exists 0%nat, "A", "B", (Speed.mkPrice 10000 10000 10),
      (Speed.mkPrice 10001 10002 10).
    repeat split; try reflexivity. now left.
  - repeat split; vm_compute; reflexivity.
Qed.

(** ** The decoding of the book ticker *)

Lemma contains_member (members : dict json) key v :
  getitem members key = Ok v -> contains key (JDict members) = Ok true.
Proof.
  intros H. simpl. f_equal. apply existsb_exists. exists key.
  split; [eapply getitem_keys; eassumption | apply String.eqb_refl].
Qed.

Lemma decode_strings float_of_string members sb sa x y :
  getitem members "b" = Ok (JStr sb) ->
  getitem members "a" = Ok (JStr sa) ->
  float_of_string sb = Ok x ->
  float_of_string sa = Ok y ->
  decode_book_ticker float_of_string (Json (JDict members)) = Ok (Some (x, y)).
Proof.
  intros Hb Ha Hx Hy. unfold decode_book_ticker.
  cbn [loads bind]. rewrite (contains_member _ _ _ Hb). cbn [bind].
  rewrite (contains_member _ _ _ Ha). cbn [bind subscript].
  rewrite Hb. cbn [bind to_float]. rewrite Hx. cbn [bind].
  rewrite Ha. cbn [bind to_float]. rewrite Hy. reflexivity.
Qed.

(** ** Ingestion (C3) *)

(** C3, as the code has it: [update_price] takes no sequence number and
    compares nothing with what is stored.  Whatever the timestamp of the
    update, the stored quote of the exchange becomes the incoming one, and
    its message count goes up by one; the quotes of the other exchanges stay
    as they were.  Nor does the feed that calls it check an order: of a
    frame it reads the fields [b] and [a] and nothing else, so whatever
    sequence number the frame carries, the quote it gives replaces the
    stored one. *)
Theorem C3_update_always_overwrites :
  (forall m exchange bid ask timestamp c,
      let m' := fst (Speed.update_price m exchange bid ask timestamp c) in
      getitem (Speed.prices m') exchange
      = Ok (stored_quote bid ask timestamp c)
      /\ getitem (Speed.message_counts m') exchange
         = Ok (get (Speed.message_counts m) exchange 0 + 1)%Z
      /\ (forall other,
             other <> exchange ->
             getitem (Speed.prices m') other = getitem (Speed.prices m) other)
      /\ (well_formed m -> well_formed m'))
  /\ (forall (float_of_string : string -> result float) m a members
             sb sa x y,
      payload a = Json (JDict members) ->
      getitem members "b" = Ok (JStr sb) ->
      getitem members "a" = Ok (JStr sa) ->
      float_of_string sb = Ok x ->
      float_of_string sa = Ok y ->
      let m' := fst (SpeedFeed.on_message float_of_string m a) in
      getitem (Speed.prices m') "Binance"
      = Ok (Speed.mkPrice x y (readings a 0%nat))
      /\ getitem (Speed.message_counts m') "Binance"
         = Ok (get (Speed.message_counts m) "Binance" 0 + 1)%Z).
Proof.
  split.
  - intros m exchange bid ask timestamp c m'. subst m'.
    unfold Speed.update_price, stored_quote, well_formed.
    destruct timestamp as [t|]; simpl;
      (split; [apply getitem_setitem_same|];
       split; [apply getitem_setitem_same|];
       split; [intros other Hne; now apply getitem_setitem_other
              | apply keys_setitem_NoDup]).
  - intros fos m a members sb sa x y Hp Hb Ha Hx Hy m'. subst m'.
    unfold SpeedFeed.on_message.
    rewrite Hp, (decode_strings fos members sb sa x y Hb Ha Hx Hy).
    unfold Speed.update_price. cbn [fst Speed.prices Speed.message_counts].
    split; apply getitem_setitem_same.
Qed.

Lemma C3_update_always_overwrites_witness :
  getitem
    (Speed.prices
       (fst (Speed.update_price monitor_with_binance "OKX" 100 101 None
               clock_11)))
    "Binance"
  = getitem (Speed.prices monitor_with_binance) "Binance".
Proof.
  apply (proj1 C3_update_always_overwrites monitor_with_binance "OKX"
           100%float 101%float None clock_11).
  discriminate.
Defined.

(** C3 as stated fails: a frame that carries the sequence number 5 arrives
    after the frame with the sequence number 10 whose quote is stored, and
    its quote replaces the stored one; so does a second frame with the
    sequence number 10. *)
Lemma C3_lower_sequence_replaces_quote :
  sequence_of (ticker_with_sequence 10 "100.00" "100.10") = Some 10%float
  /\ sequence_of (ticker_with_sequence 5 "99.00" "99.10") = Some 5%float
  /\ (5 <=? 10)%float = true
  /\ getitem
       (Speed.prices
          (SpeedFeed.monitor
             (SpeedFeed.run float_of_decimal (SpeedFeed.start 0)
                [ConnectOk;
                 Message (arrive_at 11
                            (ticker_with_sequence 10 "100.00" "100.10"))])))
       "Binance"
     = Ok (Speed.mkPrice 100.00 100.10 11)
  /\ getitem
       (Speed.prices
          (SpeedFeed.monitor
             (SpeedFeed.run float_of_decimal (SpeedFeed.start 0)
                [ConnectOk;
                 Message (arrive_at 11
                            (ticker_with_sequence 10 "100.00" "100.10"));
                 Message (arrive_at 12
                            (ticker_with_sequence 5 "99.00" "99.10"))])))
       "Binance"
     = Ok (Speed.mkPrice 99.00 99.10 12)
  /\ getitem
       (Speed.prices
          (SpeedFeed.monitor
             (SpeedFeed.run float_of_decimal (SpeedFeed.start 0)
                [ConnectOk;
                 Message (arrive_at 11
                            (ticker_with_sequence 10 "100.00" "100.10"));
                 Message (arrive_at 12
                            (ticker_with_sequence 10 "100.00" "100.10"))])))
       "Binance"
     = Ok (Speed.mkPrice 100.00 100.10 12).
Proof. repeat split. Qed.

(** ** Reconnection (C4) *)

Section Reconnect.

Variable float_of_string : string -> result float.

Lemma speed_step_delays f e :
  exists extra,
    SpeedFeed.delays (SpeedFeed.step float_of_string f e)
    = SpeedFeed.delays f ++ extra
    /\ (extra = [] \/ extra = [1%Z]).
Proof.
  unfold SpeedFeed.step.
  destruct (SpeedFeed.state f), e; simpl;
    try (exists []; rewrite app_nil_r; now auto);
    try (exists [1%Z]; now auto).
  destruct (SpeedFeed.on_message _ _ _) as [m []]; simpl;
    exists []; rewrite app_nil_r; auto.
Qed.

Lemma free_step_delays f e :
  exists extra,
    FreeFeed.delays (FreeFeed.step float_of_string f e)
    = FreeFeed.delays f ++ extra
    /\ (extra = [] \/ extra = [1%Z]).
Proof.
  unfold FreeFeed.step.
  destruct (FreeFeed.state f), e; simpl;
    try (exists []; rewrite app_nil_r; now auto);
    try (exists [1%Z]; now auto).
  destruct (FreeFeed.on_message _ _ _) as [m []]; simpl;
    exists []; rewrite app_nil_r; auto.
Qed.

Lemma speed_run_delays events : forall f,
  Forall (eq 1%Z) (SpeedFeed.delays f) ->
  Forall (eq 1%Z) (SpeedFeed.delays (SpeedFeed.run float_of_string f events)).
Proof.
  unfold SpeedFeed.run.
  induction events as [|e events IH]; simpl; intros f Hf; [assumption|].
  apply IH. destruct (speed_step_delays f e) as (extra & -> & [->| ->]);
    apply Forall_app; auto.
Qed.

Lemma free_run_delays events : forall f,
  Forall (eq 1%Z) (FreeFeed.delays f) ->
  Forall (eq 1%Z) (FreeFeed.delays (FreeFeed.run float_of_string f events)).
Proof.
  unfold FreeFeed.run.
  induction events as [|e events IH]; simpl; intros f Hf; [assumption|].
  apply IH. destruct (free_step_delays f e) as (extra & -> & [->| ->]);
    apply Forall_app; auto.
Qed.

Lemma speed_failures n : forall f,
  SpeedFeed.state f = Connecting ->
  SpeedFeed.run float_of_string f (repeat ConnectFailed n)
  = SpeedFeed.mkFeed Connecting (SpeedFeed.monitor f)
      (SpeedFeed.delays f ++ repeat 1%Z n).
Proof.
  unfold SpeedFeed.run.
  induction n as [|n IH]; simpl; intros f Hf.
  - rewrite app_nil_r. destruct f; simpl in *. now subst.
  - rewrite IH; unfold SpeedFeed.step; rewrite Hf; simpl; [|reflexivity].
    now rewrite <- app_assoc.
Qed.

Lemma free_failures n : forall f,
  FreeFeed.state f = Connecting ->
  FreeFeed.run float_of_string f (repeat ConnectFailed n)
  = FreeFeed.mkFeed Connecting (FreeFeed.monitor f)
      (FreeFeed.delays f ++ repeat 1%Z n).
Proof.
  unfold FreeFeed.run.
  induction n as [|n IH]; simpl; intros f Hf.
  - rewrite app_nil_r. destruct f; simpl in *. now subst.
  - rewrite IH; unfold FreeFeed.step; rewrite Hf; simpl; [|reflexivity].
    now rewrite <- app_assoc.
Qed.

End Reconnect.

Lemma all_ones_sorted (l : list Z) :
  Forall (eq 1%Z) l -> StronglySorted Z.le l.
Proof.
  induction 1 as [|x l Hx Hl IH]; constructor; [assumption|].
  subst x. eapply Forall_impl; [|exact Hl]. intros y <-. lia.
Qed.

(** C4, as the code has it: both Binance feeds sleep a constant
    [asyncio.sleep(1)] before they connect again.  [n] connection failures
    in a row produce [n] delays of one second each, so the delays are
    non-decreasing and bounded, and they do not grow; whatever happened
    before, a streaming period of any length included, every delay is one
    second.  In [ArbitrageSpeedMonitor] a connection that breaks while
    streaming sleeps as a failed connection does; in [FreeArbitrageMonitor]
    it connects again at once. *)
Theorem C4_reconnect_delay_is_constant :
  forall float_of_string : string -> result float,
    (forall f n,
        SpeedFeed.state f = Connecting ->
        SpeedFeed.delays
          (SpeedFeed.run float_of_string f (repeat ConnectFailed n))
        = SpeedFeed.delays f ++ repeat 1%Z n)
    /\ (forall f n,
        FreeFeed.state f = Connecting ->
        FreeFeed.delays
          (FreeFeed.run float_of_string f (repeat ConnectFailed n))
        = FreeFeed.delays f ++ repeat 1%Z n)
    /\ (forall now events,
        let ds :=
          SpeedFeed.delays
            (SpeedFeed.run float_of_string (SpeedFeed.start now) events) in
        Forall (eq 1%Z) ds /\ StronglySorted Z.le ds)
    /\ (forall events,
        let ds :=
          FreeFeed.delays
            (FreeFeed.run float_of_string FreeFeed.start events) in
        Forall (eq 1%Z) ds /\ StronglySorted Z.le ds)
    /\ (forall f,
        SpeedFeed.state f = Streaming ->
        SpeedFeed.delays
          (SpeedFeed.run float_of_string f [CloseError; ConnectFailed])
        = SpeedFeed.delays f ++ [1%Z; 1%Z])
    /\ (forall f,
        FreeFeed.state f = Streaming ->
        FreeFeed.delays
          (FreeFeed.run float_of_string f [CloseError; ConnectFailed])
        = FreeFeed.delays f ++ [1%Z]).
Proof.
  intros fos. repeat split.
  - intros f n Hf. now rewrite speed_failures.
  - intros f n Hf. now rewrite free_failures.
  - apply speed_run_delays. constructor.
  - apply all_ones_sorted, speed_run_delays. constructor.
  - apply free_run_delays. constructor.
  - apply all_ones_sorted, free_run_delays. constructor.
  - intros f Hf. unfold SpeedFeed.run, SpeedFeed.step. simpl.
    rewrite Hf. simpl. now rewrite <- app_assoc.
  - intros f Hf. unfold FreeFeed.run, FreeFeed.step. simpl.
    rewrite Hf. reflexivity.
Qed.

Lemma C4_reconnect_delay_is_constant_witness :
  SpeedFeed.delays
    (SpeedFeed.run float_of_decimal (SpeedFeed.start 0)
       (repeat ConnectFailed 4))
  = SpeedFeed.delays (SpeedFeed.start 0) ++ repeat 1%Z 4.
Proof.
  apply (C4_reconnect_delay_is_constant float_of_decimal).
  reflexivity.
Defined.

(** C4 as stated fails on the growth: after three failures in a row the
    delays are one second each, and the second is not longer than the
    first. *)
Lemma C4_delays_do_not_grow :
  SpeedFeed.delays
    (SpeedFeed.run float_of_decimal (SpeedFeed.start 0)
       [ConnectFailed; ConnectFailed; ConnectFailed])
  = [1; 1; 1]%Z
  /\ FreeFeed.delays
       (FreeFeed.run float_of_decimal FreeFeed.start
          [ConnectFailed; ConnectFailed; ConnectFailed])
     = [1; 1; 1]%Z
  /\ ~ (nth 0 [1; 1; 1] 0 < nth 1 [1; 1; 1] 0)%Z.
Proof. repeat split. simpl. lia. Qed.

(** ** Freshness (C5) *)

Section Freshness.

Lemma speed_stale_pair_silent m c opps k ex1 ex2 p1 p2 o :
  well_formed m ->
  Speed.opportunities m c = Ok opps ->
  visits m k ex1 ex2 p1 p2 ->
  Speed.stale (c k) p1 p2 = true ->
  In o opps ->
  ~ refers_to o ex1 ex2.
Proof.
  intros Hwf Hopps (Hk & H1 & H2) Hstale Hin Href.
  apply (opportunities_spec m c opps Hopps) in Hin
    as [(j & a & b & q1 & q2 & (Hj & Ha & Hb) & Hfresh & Ho) _].
  pose proof (pairs_NoDup _ Hwf) as Hnd.
  assert (Hsame : (a, b) = (ex1, ex2) -> False).
  { intros Heq. inversion Heq; subst a b.
    assert (j = k).
    { apply (proj1 (NoDup_nth_error _) Hnd).
      - apply nth_error_Some. congruence.
      - congruence. }
    subst j. congruence. }
  assert (Hswap : (a, b) = (ex2, ex1) -> False).
  { intros Heq. inversion Heq; subst a b.
    apply (pairs_not_swapped _ ex1 ex2 Hwf).
    - eapply nth_error_In; eassumption.
    - eapply nth_error_In; eassumption. }
  destruct Ho as [-> | ->]; destruct Href as [[Hb' Hs']|[Hb' Hs']];
    simpl in Hb', Hs'; subst; auto.
Qed.

Lemma best_prices_active ps act s :
  Free.best_prices ps act = Ok s ->
  In (Free.bid_exchange s) act /\ In (Free.ask_exchange s) act.
Proof.
  unfold Free.best_prices.
  destruct (traverse _ act) as [bids|]; simpl; [|discriminate].
  destruct (max_float bids) as [bb|]; simpl; [|discriminate].
  destruct (traverse _ act) as [asks|]; simpl; [|discriminate].
  destruct (min_float asks) as [ba|]; simpl; [|discriminate].
  destruct (next _ act) as [be|] eqn:Hbe; simpl; [|discriminate].
  destruct (next _ act) as [ae|] eqn:Hae in |- *; simpl; [|discriminate].
  intros H. inversion H; subst; simpl.
  apply next_in in Hbe as [Hbe _]. apply next_in in Hae as [Hae _]. auto.
Qed.

Lemma active_exchanges_in ps now ex :
  NoDup (keys ps) ->
  In ex (Free.active_exchanges ps now) ->
  exists p, getitem ps ex = Ok p /\ Free.active now p = true.
Proof.
  unfold Free.active_exchanges. rewrite in_map_iff.
  intros Hnd ([k p] & Hk & Hin). simpl in Hk. subst k.
  apply filter_In in Hin as [Hin Hact]. simpl in Hact.
  exists p. split; [|assumption].
  clear Hact. induction ps as [|[k0 p0] ps IH]; [destruct Hin|].
  simpl in *. inversion Hnd as [|? ? Hnotin Hnd']; subst.
  destruct Hin as [Heq|Hin].
  - inversion Heq; subst. now rewrite String.eqb_refl.
  - destruct (String.eqb ex k0) eqn:E; [|now apply IH].
    apply String.eqb_eq in E. subst k0. exfalso. apply Hnotin.
    apply in_map_iff. exists (ex, p). auto.
Qed.

Lemma free_inactive_exchange_silent m now stamp m' ex p :
  NoDup (keys (Free.prices m)) ->
  Free.check_arbitrage m now stamp = Ok m' ->
  getitem (Free.prices m) ex = Ok p ->
  Free.active now p = false ->
  m' = m
  \/ exists o,
       Free.arbitrage_opportunities m'
       = Free.deque_append (Free.arbitrage_opportunities m) o
       /\ Free.buy_exchange o <> ex /\ Free.sell_exchange o <> ex.
Proof.
  intros Hnd Hcheck Hp Hinactive.
  apply free_check_inv in Hcheck
    as [[_ ->]|(s & _ & Hs & [(_ & _ & pa & pb & Ha & Hb & ->)|[_ ->]])];
    auto.
  right. eexists. split; [reflexivity|]. simpl.
  apply best_prices_active in Hs as [Hbid Hask].
  apply (active_exchanges_in _ _ _ Hnd) in Hbid as (qb & Hqb & Hactb).
  apply (active_exchanges_in _ _ _ Hnd) in Hask as (qa & Hqa & Hacta).
  split; intros Heq; rewrite Heq in *; congruence.
Qed.

End Freshness.

(** C5, as the code has it.  In [ArbitrageSpeedMonitor] a pair is skipped
    when the age of either quote is above 5 seconds as the pair is read: no
    opportunity of the pass refers to such a pair, and a quote is fresh
    exactly when its age is not above 5, which for an age that is a number
    is "at most 5".  In [FreeArbitrageMonitor] an exchange takes part exactly
    when its timestamp is positive and its age is strictly below 1.0
    second: a pass records no opportunity that refers to any other
    exchange. *)
Theorem C5_stale_quotes_are_ignored :
  (forall m c opps k ex1 ex2 p1 p2 o,
      well_formed m ->
      Speed.opportunities m c = Ok opps ->
      visits m k ex1 ex2 p1 p2 ->
      (5 <? c k - Speed.time p1)%float = true
      \/ (5 <? c k - Speed.time p2)%float = true ->
      In o opps ->
      ~ refers_to o ex1 ex2)
  /\ (forall t p1 p2,
      Speed.stale t p1 p2 = false
      <-> (5 <? t - Speed.time p1)%float = false
          /\ (5 <? t - Speed.time p2)%float = false)
  /\ (forall age : float,
      (age =? age)%float = true ->
      (5 <? age)%float = false <-> (age <=? 5)%float = true)
  /\ (forall m now stamp m' ex p,
      NoDup (keys (Free.prices m)) ->
      Free.check_arbitrage m now stamp = Ok m' ->
      getitem (Free.prices m) ex = Ok p ->
      Free.active now p = false ->
      m' = m
      \/ exists o,
           Free.arbitrage_opportunities m'
           = Free.deque_append (Free.arbitrage_opportunities m) o
           /\ Free.buy_exchange o <> ex /\ Free.sell_exchange o <> ex)
  /\ (forall now p,
      Free.active now p = true
      <-> (0 <? Free.time p)%float = true
          /\ (now - Free.time p <? 1.0)%float = true).
Proof.
  repeat split.
  - intros m c opps k ex1 ex2 p1 p2 o Hwf Hopps Hvis Hage Hin.
    eapply speed_stale_pair_silent; try eassumption.
    unfold Speed.stale. apply orb_true_iff. exact Hage.
  - unfold Speed.stale in H. now apply orb_false_iff in H.
  - unfold Speed.stale in H. now apply orb_false_iff in H.
  - intros [H1 H2]. unfold Speed.stale. now rewrite H1, H2.
  - now apply not_above_iff_at_most.
  - now apply not_above_iff_at_most.
  - exact free_inactive_exchange_silent.
  - unfold Free.active in H. now apply andb_true_iff in H.
  - unfold Free.active in H. now apply andb_true_iff in H.
  - intros [H1 H2]. unfold Free.active. now rewrite H1, H2.
Qed.

Lemma C5_stale_quotes_are_ignored_witness :
  ~ refers_to (speed_A_to_B "A" "B") "A" "C".
Proof.
  refine (proj1 C5_stale_quotes_are_ignored monitor_ABC clock_11
            [speed_A_to_B "A" "B"] 1%nat "A" "C" (quote_A 10)
            (Speed.mkPrice 200 201 2) (speed_A_to_B "A" "B") _ _ _ _ _).
  - unfold well_formed. simpl.
    repeat constructor; simpl; intuition discriminate.
  - vm_compute. reflexivity.
  - repeat split.
  - right. vm_compute. reflexivity.
  - now left.
Defined.

(** C5 as stated fails on what fresh means: in [FreeArbitrageMonitor] the
    quote of B, aged exactly 1.0 second, is within a maximum age of 1.0 and
    is not fresh, so the pass records nothing although A and B make the
    spread of the profit example. *)
Lemma C5_age_equal_to_window_is_stale :
  (10.5 - Free.time (free_quote_B 9.5 0) <=? 1.0)%float = true
  /\ Free.active 10.5 (free_quote_B 9.5 0) = false
  /\ Free.check_arbitrage free_monitor_aged 10.5 "12:00:00.000"
     = Ok free_monitor_aged.
Proof. repeat split. Qed.

(** ** The choice of the best opportunity (C6) *)

Section Best.

Context {A : Type} (key : A -> float).

Let pick (best y : A) : A := if (key best <? key y)%float then y else best.

Lemma fold_pick_split (rest : list A) : forall before best after floor,
  Forall (fun o => (floor <? key o)%float = true)
    (before ++ best :: after ++ rest) ->
  Forall (fun o => (key o <? key best)%float = true) before ->
  Forall (fun o => (key best <? key o)%float = false) after ->
  exists before' after',
    before ++ best :: after ++ rest
    = before' ++ fold_left pick rest best :: after'
    /\ Forall (fun o => (key o <? key (fold_left pick rest best))%float = true)
         before'
    /\ Forall (fun o => (key (fold_left pick rest best) <? key o)%float = false)
         after'.
Proof.
  induction rest as [|y rest IH]; intros before best after floor Hfloor Hb Ha.
  - exists before, after. rewrite app_nil_r. auto.
  - simpl. destruct (key best <? key y)%float eqn:Hy.
    + replace (pick best y) with y by (unfold pick; now rewrite Hy).
      destruct (IH (before ++ best :: after) y [] floor)
        as (before' & after' & Heq & Hb' & Ha').
      * simpl. rewrite <- app_assoc. exact Hfloor.
      * apply Forall_app. split; [|constructor].
        -- eapply Forall_impl; [|exact Hb]. intros o Ho. simpl in Ho.
           eapply ltb_trans; eassumption.
        -- assumption.
        -- rewrite Forall_forall in Ha, Hfloor. apply Forall_forall.
           intros o Ho. apply (ltb_total_trans (key best) (key o) (key y) floor).
           ++ apply Hfloor. rewrite in_app_iff. right. right.
              rewrite in_app_iff. now left.
           ++ now apply Ha.
           ++ assumption.
      * constructor.
      * exists before', after'. split; [|auto].
        rewrite <- Heq. simpl. rewrite <- app_assoc. reflexivity.
    + replace (pick best y) with best by (unfold pick; now rewrite Hy).
      destruct (IH before best (after ++ [y]) floor)
        as (before' & after' & Heq & Hb' & Ha').
      * rewrite <- app_assoc. exact Hfloor.
      * assumption.
      * apply Forall_app. split; [assumption|]. constructor; [assumption|constructor].
      * exists before', after'. split; [|auto].
        rewrite <- Heq. rewrite <- app_assoc. reflexivity.
Qed.

(** [max(xs, key=key)] on keys that are numbers (each above some [floor]):
    the result is the first element of greatest key. *)
Lemma max_by_first_greatest (xs : list A) (floor : float) (best : A) :
  Forall (fun o => (floor <? key o)%float = true) xs ->
  max_by key xs = Some best ->
  exists before after,
    xs = before ++ best :: after
    /\ Forall (fun o => (key o <? key best)%float = true) before
    /\ Forall (fun o => (key best <? key o)%float = false) after.
Proof.
  destruct xs as [|x rest]; simpl; [discriminate|].
  intros Hfloor H. inversion H; subst; clear H.
  destruct (fold_pick_split rest [] x [] floor)
    as (before & after & Heq & Hb & Ha); try constructor; try assumption.
  - inversion Hfloor; assumption.
  - inversion Hfloor; assumption.
  - exists before, after. auto.
Qed.

Lemma max_by_none (xs : list A) : max_by key xs = None <-> xs = [].
Proof. destruct xs; simpl; split; intros; congruence. Qed.

End Best.

Lemma speed_no_pairs m c :
  (List.length (Speed.prices m) < 2)%nat -> Speed.opportunities m c = Ok [].
Proof.
  unfold Speed.opportunities. destruct (Speed.prices m) as [|[k1 p1] [|kp ps]];
    simpl; intros Hlen; try reflexivity. lia.
Qed.

Lemma check_pair_total ps t ex1 ex2 opps :
  (forall ex p, getitem ps ex = Ok p -> (Speed.ask p =? 0)%float = false) ->
  In ex1 (keys ps) -> In ex2 (keys ps) ->
  exists res, Speed.check_pair ps t ex1 ex2 opps = Ok res.
Proof.
  intros Hask H1 H2. unfold Speed.check_pair.
  destruct (getitem_in_keys ps ex1 H1) as [p1 Hp1].
  destruct (getitem_in_keys ps ex2 H2) as [p2 Hp2].
  rewrite Hp1, Hp2. cbn [bind].
  destruct (Speed.stale t p1 p2); [eexists; reflexivity|].
  unfold truediv. rewrite (Hask ex1 p1 Hp1), (Hask ex2 p2 Hp2). cbn [bind].
  eexists. reflexivity.
Qed.

Lemma scan_total ps c todo : forall k opps,
  (forall ex p, getitem ps ex = Ok p -> (Speed.ask p =? 0)%float = false) ->
  (forall a b, In (a, b) todo -> In a (keys ps) /\ In b (keys ps)) ->
  exists res, Speed.scan ps c k todo opps = Ok res.
Proof.
  induction todo as [|[ex1 ex2] todo IH]; intros k opps Hask Hin; simpl.
  - eexists. reflexivity.
  - destruct (Hin ex1 ex2 (or_introl eq_refl)) as [H1 H2].
    destruct (check_pair_total ps (c k) ex1 ex2 opps Hask H1 H2)
      as [opps' ->].
    cbn [bind]. apply IH; [assumption|]. intros a b Hab. apply Hin. now right.
Qed.

(** A pass over a store without a zero ask completes. *)
Lemma check_arbitrage_total m c :
  asks_nonzero m -> exists reported, Speed.check_arbitrage m c = Ok reported.
Proof.
  intros Hask. unfold Speed.check_arbitrage.
  destruct (List.length (Speed.prices m) <? 2)%nat; [eexists; reflexivity|].
  unfold Speed.opportunities.
  destruct (scan_total (Speed.prices m) c
              (Speed.pairs (keys (Speed.prices m))) 0 [] Hask)
    as [opps ->].
  - intros a b Hab. now apply pairs_in.
  - cbn [bind]. eexists. reflexivity.
Qed.




(** ** Malformed messages (C7) *)

Lemma contains_absent (members : dict json) key :
  ~ In key (keys members) -> contains key (JDict members) = Ok false.
Proof.
  intros H. simpl. f_equal. destruct (existsb _ _) eqn:E; [|reflexivity].
  apply existsb_exists in E as (k & Hk & Heq).
  apply String.eqb_eq in Heq. subst k. contradiction.
Qed.

Lemma contains_object (members : dict json) key :
  contains key (JDict members) = Ok true
  \/ contains key (JDict members) = Ok false.
Proof. simpl. destruct (existsb _ _); auto. Qed.

Lemma missing_field_no_quote float_of_string fr :
  missing_field fr -> decode_book_ticker float_of_string fr = Ok None.
Proof.
  intros (members & -> & [Hb|Ha]); unfold decode_book_ticker;
    cbn [loads bind].
  - now rewrite (contains_absent _ _ Hb).
  - destruct (contains_object members "b") as [-> | ->]; cbn [bind];
      [|reflexivity].
    now rewrite (contains_absent _ _ Ha).
Qed.

Lemma malformed_cases float_of_string fr :
  malformed float_of_string fr <->
  unparseable float_of_string fr
  \/ decode_book_ticker float_of_string fr = Ok None.
Proof.
  unfold malformed, unparseable.
  destruct (decode_book_ticker float_of_string fr) as [[q|]|e]; split.
  - intros H. now destruct (H q).
  - intros [[e He]|H]; discriminate.
  - auto.
  - intros _ q. discriminate.
  - eauto.
  - intros _ q. discriminate.
Qed.

(** C7, as the code has it.  A frame that gives no quote is dropped and
    nothing counts it: in both monitors the store, the message counts and
    the history are as before.  [ArbitrageSpeedMonitor.binance_feed] stays
    in the streaming state in every such case
    ([except Exception: continue]).  [FreeArbitrageMonitor.monitor_binance]
    stays in the streaming state when the decoding raises nothing, as when
    the frame parses and only lacks a field: the test
    [if 'b' in data and 'a' in data] then fails without an exception.  When
    the decoding raises (the frame is not JSON, or a price of it is not a
    number), [except Exception: break] ends the receive loop and the feed
    connects again, without a delay.  A frame that is not JSON, an object
    that lacks a field or holds a price [float] refuses, and JSON that is
    not an object are all frames that give no quote. *)
Theorem C7_malformed_frame :
  (forall (float_of_string : string -> result float) (a : arrival),
      malformed float_of_string (payload a) ->
      (forall f,
          SpeedFeed.state f = Streaming ->
          SpeedFeed.step float_of_string f (Message a) = f)
      /\ (forall f,
          FreeFeed.state f = Streaming ->
          FreeFeed.monitor (FreeFeed.step float_of_string f (Message a))
          = FreeFeed.monitor f
          /\ FreeFeed.delays (FreeFeed.step float_of_string f (Message a))
             = FreeFeed.delays f
          /\ (unparseable float_of_string (payload a) ->
              FreeFeed.state (FreeFeed.step float_of_string f (Message a))
              = Connecting)
          /\ (~ unparseable float_of_string (payload a) ->
              FreeFeed.step float_of_string f (Message a) = f)
          /\ (missing_field (payload a) ->
              FreeFeed.step float_of_string f (Message a) = f)))
  /\ (forall (float_of_string : string -> result float),
      malformed float_of_string Garbage
      /\ unparseable float_of_string Garbage)
  /\ (forall (float_of_string : string -> result float) fr,
      missing_field fr ->
      malformed float_of_string fr /\ ~ unparseable float_of_string fr)
  /\ (forall (float_of_string : string -> result float) members b e,
      getitem members "b" = Ok b ->
      In "a" (keys members) ->
      to_float float_of_string b = Raise e ->
      malformed float_of_string (Json (JDict members))
      /\ unparseable float_of_string (Json (JDict members)))
  /\ (forall (float_of_string : string -> result float) members b x a e,
      getitem members "b" = Ok b ->
      to_float float_of_string b = Ok x ->
      getitem members "a" = Ok a ->
      to_float float_of_string a = Raise e ->
      malformed float_of_string (Json (JDict members))
      /\ unparseable float_of_string (Json (JDict members)))
  /\ (forall (float_of_string : string -> result float) data,
      (forall members, data <> JDict members) ->
      malformed float_of_string (Json data)).
Proof.
  assert (Hraise : forall fos fr,
             unparseable fos fr -> malformed fos fr /\ unparseable fos fr).
  { intros fos fr H. split; [|assumption]. apply malformed_cases. auto. }
  split; [|split; [|split; [|split; [|split]]]].
  - intros fos a Hbad. apply malformed_cases in Hbad. split; intros f Hf.
    + unfold SpeedFeed.step, SpeedFeed.on_message. rewrite Hf.
      destruct Hbad as [[e ->]| ->]; destruct f; simpl in *; now subst.
    + unfold FreeFeed.step, FreeFeed.on_message. rewrite Hf.
      destruct Hbad as [[e He]|Hnone].
      * rewrite He. cbn. repeat split; try reflexivity.
        -- intros Hnot. destruct Hnot. exists e. exact He.
        -- intros Hmiss.
           rewrite (missing_field_no_quote fos _ Hmiss) in He. discriminate.
      * rewrite Hnone. cbn. repeat split; try reflexivity.
        -- intros [e He]. congruence.
        -- intros _. destruct f; simpl in *; now subst.
        -- intros _. destruct f; simpl in *; now subst.
  - intros fos. apply Hraise. exists JSONDecodeError. reflexivity.
  - intros fos fr Hmiss.
    pose proof (missing_field_no_quote fos fr Hmiss) as Hnone. split.
    + apply malformed_cases. auto.
    + intros [e He]. congruence.
  - intros fos members b e Hb Ha Hraises. apply Hraise.
    apply getitem_in_keys in Ha as (va & Ha).
    exists e. unfold decode_book_ticker. cbn [loads bind].
    rewrite (contains_member _ _ _ Hb). cbn [bind].
    rewrite (contains_member _ _ _ Ha). cbn [bind subscript].
    rewrite Hb. cbn [bind]. now rewrite Hraises.
  - intros fos members b x a e Hb Hx Ha Hraises. apply Hraise.
    exists e. unfold decode_book_ticker. cbn [loads bind].
    rewrite (contains_member _ _ _ Hb). cbn [bind].
    rewrite (contains_member _ _ _ Ha). cbn [bind subscript].
    rewrite Hb. cbn [bind]. rewrite Hx. cbn [bind].
    rewrite Ha. cbn [bind]. now rewrite Hraises.
  - intros fos data Hshape quote. unfold decode_book_ticker.
    cbn [loads bind].
    destruct data as [|flag|x|s|items|members];
      try discriminate; [| |now destruct (Hshape members)];
      cbn [contains bind subscript];
      repeat match goal with
      | |- context [if ?c then _ else _] => destruct c; cbn [bind]
      end; discriminate.
Qed.

Lemma C7_malformed_frame_witness :
  FreeFeed.step float_of_decimal
    (FreeFeed.mkFeed Streaming Free.init []) (Message (arrive frame_no_ask))
  = FreeFeed.mkFeed Streaming Free.init []
  /\ FreeFeed.state
       (FreeFeed.step float_of_decimal
          (FreeFeed.mkFeed Streaming Free.init [])
          (Message (arrive frame_bad_price)))
     = Connecting.
Proof.
  split.
  - apply (proj1 C7_malformed_frame float_of_decimal (arrive frame_no_ask)).
    + intros quote. vm_compute. discriminate.
    + reflexivity.
    + exists [("b", JStr "100.00")]. split; [reflexivity|]. right.
      simpl. intuition discriminate.
  - apply (proj1 C7_malformed_frame float_of_decimal
             (arrive frame_bad_price)).
    + intros quote. vm_compute. discriminate.
    + reflexivity.
    + exists ValueError. vm_compute. reflexivity.
Defined.

(** C7 as stated fails in [FreeArbitrageMonitor]: after a frame with a
    non-numeric price the feed is no longer streaming but connecting again;
    and in [ArbitrageSpeedMonitor] no counter has moved. *)
Lemma C7_free_feed_leaves_streaming :
  malformed float_of_decimal frame_bad_price
  /\ FreeFeed.state
       (FreeFeed.run float_of_decimal FreeFeed.start
          [ConnectOk; Message (arrive frame_bad_price)])
     = Connecting
  /\ Speed.message_counts
       (SpeedFeed.monitor
          (SpeedFeed.run float_of_decimal (SpeedFeed.start 0)
             [ConnectOk; Message (arrive frame_bad_price)]))
     = [].
Proof.
  split; [intros quote; vm_compute; discriminate|].
  repeat split.
Qed.

(** ** Price parsing (C8) *)

(** C8, as the code has it: both Binance feeds convert the wire fields with
    the builtin [float], and what the store then holds under the exchange
    is that binary64 number, bit for bit; no fixed-point or decimal type
    takes part.  For the wire text ["100.10"] the stored price is the float
    nearest to 100.10, whose value is not 100.10. *)
Theorem C8_prices_are_binary64 :
  forall (float_of_string : string -> result float)
         (a : arrival) members sb sa (x y : float),
    payload a = Json (JDict members) ->
    getitem members "b" = Ok (JStr sb) ->
    getitem members "a" = Ok (JStr sa) ->
    float_of_string sb = Ok x ->
    float_of_string sa = Ok y ->
    (forall m,
        getitem
          (Speed.prices (fst (SpeedFeed.on_message float_of_string m a)))
          "Binance"
        = Ok (Speed.mkPrice x y (readings a 0%nat)))
    /\ (forall m,
        getitem
          (Free.prices (fst (FreeFeed.on_message float_of_string m a)))
          "binance"
        = Ok (Free.mkPrice x y (readings a 2%nat)
                ((readings a 1%nat - readings a 0%nat) * 1000)%float))
    /\ float_of_decimal "100.10" = Ok 100.10%float
    /\ ~ is_decimal 100.10 10010 2.
Proof.
  intros fos a members sb sa x y Hpay Hb Ha Hx Hy.
  pose proof (decode_strings fos members sb sa x y Hb Ha Hx Hy) as Hdec.
  rewrite <- Hpay in Hdec. repeat split.
  - intros m. unfold SpeedFeed.on_message. rewrite Hdec.
    unfold Speed.update_price. cbn [fst Speed.prices].
    apply getitem_setitem_same.
  - intros m. unfold FreeFeed.on_message. rewrite Hdec.
    match goal with
    | |- context [Free.check_arbitrage ?m1 ?t ?s] =>
        destruct (Free.check_arbitrage m1 t s) as [m2|e] eqn:Hcheck
    end; cbn [fst].
    + rewrite (free_check_prices _ _ _ _ Hcheck). cbn [Free.prices].
      apply getitem_setitem_same.
    + cbn [Free.prices]. apply getitem_setitem_same.
  - vm_compute. intros [[H _]|[H _]]; discriminate.
Qed.

Lemma C8_prices_are_binary64_witness :
  getitem
    (Speed.prices
       (fst (SpeedFeed.on_message float_of_decimal (Speed.init 0)
               (arrive frame_A))))
    "Binance"
  = Ok (Speed.mkPrice 100.00 100.10 11).
Proof.
  refine (proj1 (C8_prices_are_binary64 float_of_decimal (arrive frame_A)
                   [("b", JStr "100.00"); ("a", JStr "100.10")]
                   "100.00" "100.10" 100.00%float 100.10%float
                   _ _ _ _ _) (Speed.init 0)).
  all: vm_compute; reflexivity.
Defined.

(** C8 as stated fails: the price parsed from the wire text ["100.10"] is a
    binary64 number whose value is 7043911292184166 / 2^46, not the decimal
    100.10, and the profit computed from the parsed ["100.30"] and
    ["100.10"] is not the float that ["0.20"] parses to. *)
Lemma C8_parsed_price_is_rounded :
  exists ask bid p,
    float_of_decimal "100.10" = Ok ask
    /\ Prim2SF ask = S754_finite false 7043911292184166 (-46)
    /\ ~ is_decimal ask 10010 2
    /\ float_of_decimal "100.30" = Ok bid
    /\ float_of_decimal "0.20" = Ok p
    /\ (bid - ask =? p)%float = false.
Proof.
  exists 100.10%float, 100.30%float, 0.20%float.
  repeat split; try (vm_compute; reflexivity).
  vm_compute. intros [[H _]|[H _]]; discriminate.
Qed.

(** ** Best bid and best ask on one exchange (C9) *)

Section Leader.

(** [replaces best y]: whether [max] (or [min]) drops its choice [best] for
    [y]. *)
Variable replaces : float -> float -> bool.

Let pick (best y : float) : float := if replaces best y then y else best.

Lemma fold_pick_member (ws : list float) : forall best,
  In (fold_left pick ws best) (best :: ws).
Proof.
  induction ws as [|w ws IH]; intros best; simpl; [auto|].
  destruct (IH (pick best w)) as [H|H]; [|auto].
  rewrite <- H. unfold pick. destruct (replaces best w); auto.
Qed.

Lemma fold_pick_keeps (ws : list float) v :
  (forall w, In w ws -> replaces v w = false) ->
  fold_left pick ws v = v.
Proof.
  induction ws as [|w ws IH]; intros H; simpl; [reflexivity|].
  replace (pick v w) with v
    by (unfold pick; now rewrite (H w) by (simpl; auto)).
  apply IH. intros w' Hw'. apply H. simpl. auto.
Qed.

Lemma fold_pick_leader (before after : list float) v :
  (forall w, In w before -> replaces w v = true) ->
  (forall w, In w after -> replaces v w = false) ->
  match before ++ v :: after with
  | [] => False
  | x :: rest => fold_left pick rest x = v
  end.
Proof.
  intros Hb Ha. destruct before as [|x before]; simpl.
  - now apply fold_pick_keeps.
  - rewrite fold_left_app. simpl.
    assert (Hin : In (fold_left pick before x) (x :: before))
      by apply fold_pick_member.
    set (b := fold_left pick before x) in *.
    replace (pick b v) with v by (unfold pick; now rewrite (Hb b Hin)).
    now apply fold_pick_keeps.
Qed.

End Leader.

Lemma traverse_app {A B : Type} (f : A -> result B) xs ys xs' ys' :
  traverse f xs = Ok xs' -> traverse f ys = Ok ys' ->
  traverse f (xs ++ ys) = Ok (xs' ++ ys').
Proof.
  revert xs'. induction xs as [|x xs IH]; intros xs'; simpl.
  - intros H. inversion H; subst. simpl. auto.
  - destruct (f x) as [y|]; simpl; [|discriminate].
    destruct (traverse f xs) as [zs|]; simpl; [|discriminate].
    intros H Hys. inversion H; subst.
    rewrite (IH zs eq_refl Hys). reflexivity.
Qed.

Lemma traverse_all {A B : Type} (f : A -> result B) (P : B -> Prop) xs :
  (forall x, In x xs -> exists y, f x = Ok y /\ P y) ->
  exists ys, traverse f xs = Ok ys /\ forall y, In y ys -> P y.
Proof.
  induction xs as [|x xs IH]; intros H; simpl.
  - exists []. split; [reflexivity|intros y []].
  - destruct (H x) as (y & Hy & HP); [simpl; auto|].
    destruct IH as (ys & Hys & HPs); [intros x' Hx'; apply H; simpl; auto|].
    exists (y :: ys). rewrite Hy, Hys. split; [reflexivity|].
    intros y' [<-|Hin]; auto.
Qed.

Lemma next_leader {A : Type} (p : A -> result bool) before x after :
  (forall o, In o before -> p o = Ok false) ->
  p x = Ok true ->
  next p (before ++ x :: after) = Ok x.
Proof.
  intros Hb Hx. induction before as [|o before IH]; simpl.
  - now rewrite Hx.
  - rewrite (Hb o) by (simpl; auto). simpl. apply IH.
    intros o' Ho'. apply Hb. simpl. auto.
Qed.

(** What [max], [min] and the two [next] find when one exchange leads on
    the bid and on the ask. *)
Lemma best_prices_of_leader ps act ex pe :
  (2 <= List.length act)%nat ->
  getitem ps ex = Ok pe ->
  leads_on_bid ps act ex ->
  leads_on_ask ps act ex ->
  Free.best_prices ps act
  = Ok (Free.mkSpread (Free.bid pe) (Free.ask pe) ex ex).
Proof.
  intros Hlen Hpe (bb & ba & pe1 & Hact1 & Hpe1 & Hbb & Hba)
    (ab & aa & pe2 & Hact2 & Hpe2 & Hab & Haa).
  rewrite Hpe in Hpe1, Hpe2. inversion Hpe1; subst pe1.
  inversion Hpe2; subst pe2. clear Hpe1 Hpe2.
  assert (Hbid_num : (Free.bid pe =? Free.bid pe)%float = true).
  { destruct bb as [|o bb].
    - destruct ba as [|o ba].
      + rewrite Hact1 in Hlen. simpl in Hlen. lia.
      + destruct (Hba o) as (p & _ & Hle); [simpl; auto|].
        eapply leb_right_number; eassumption.
    - destruct (Hbb o) as (p & _ & Hlt); [simpl; auto|].
      eapply ltb_right_number; eassumption. }
  assert (Hask_num : (Free.ask pe =? Free.ask pe)%float = true).
  { destruct ab as [|o ab].
    - destruct aa as [|o aa].
      + rewrite Hact2 in Hlen. simpl in Hlen. lia.
      + destruct (Haa o) as (p & _ & Hle); [simpl; auto|].
        eapply leb_left_number; eassumption.
    - destruct (Hab o) as (p & _ & Hlt); [simpl; auto|].
      eapply ltb_left_number; eassumption. }
  set (bid_of := fun o => p <- getitem ps o ;; Ok (Free.bid p)).
  set (ask_of := fun o => p <- getitem ps o ;; Ok (Free.ask p)).
  (* the bids *)
  destruct (traverse_all bid_of
              (fun w => (w <? Free.bid pe)%float = true) bb)
    as (wbb & Hwbb & Pwbb).
  { intros o Ho. destruct (Hbb o Ho) as (p & Hp & Hlt).
    exists (Free.bid p). unfold bid_of. rewrite Hp. auto. }
  destruct (traverse_all bid_of
              (fun w => (w <=? Free.bid pe)%float = true) ba)
    as (wba & Hwba & Pwba).
  { intros o Ho. destruct (Hba o Ho) as (p & Hp & Hle).
    exists (Free.bid p). unfold bid_of. rewrite Hp. auto. }
  assert (Hbids : traverse bid_of act = Ok (wbb ++ Free.bid pe :: wba)).
  { rewrite Hact1. apply traverse_app; [assumption|].
    simpl. unfold bid_of at 1. rewrite Hpe. simpl. now rewrite Hwba. }
  assert (Hmax : max_float (wbb ++ Free.bid pe :: wba) = Ok (Free.bid pe)).
  { pose proof (fold_pick_leader (fun best y => (best <? y)%float)
                  wbb wba (Free.bid pe) Pwbb
                  (fun w Hw => leb_not_gt _ _ (Pwba w Hw))) as H.
    unfold max_float.
    destruct (wbb ++ Free.bid pe :: wba) as [|x rest]; [destruct H|].
    now rewrite H. }
  (* the asks *)
  destruct (traverse_all ask_of
              (fun w => (Free.ask pe <? w)%float = true) ab)
    as (wab & Hwab & Pwab).
  { intros o Ho. destruct (Hab o Ho) as (p & Hp & Hlt).
    exists (Free.ask p). unfold ask_of. rewrite Hp. auto. }
  destruct (traverse_all ask_of
              (fun w => (Free.ask pe <=? w)%float = true) aa)
    as (waa & Hwaa & Pwaa).
  { intros o Ho. destruct (Haa o Ho) as (p & Hp & Hle).
    exists (Free.ask p). unfold ask_of. rewrite Hp. auto. }
  assert (Hasks : traverse ask_of act = Ok (wab ++ Free.ask pe :: waa)).
  { rewrite Hact2. apply traverse_app; [assumption|].
    simpl. unfold ask_of at 1. rewrite Hpe. simpl. now rewrite Hwaa. }
  assert (Hmin : min_float (wab ++ Free.ask pe :: waa) = Ok (Free.ask pe)).
  { pose proof (fold_pick_leader (fun best y => (y <? best)%float)
                  wab waa (Free.ask pe) Pwab
                  (fun w Hw => leb_not_gt _ _ (Pwaa w Hw))) as H.
    unfold min_float.
    destruct (wab ++ Free.ask pe :: waa) as [|x rest]; [destruct H|].
    now rewrite H. }
  (* the two searches *)
  assert (Hnb : next (fun o => p <- getitem ps o ;;
                               Ok (Free.bid p =? Free.bid pe)%float) act
                = Ok ex).
  { rewrite Hact1. apply next_leader.
    - intros o Ho. destruct (Hbb o Ho) as (p & Hp & Hlt). rewrite Hp. simpl.
      now rewrite (ltb_not_eqb _ _ Hlt).
    - rewrite Hpe. simpl. now rewrite Hbid_num. }
  assert (Hna : next (fun o => p <- getitem ps o ;;
                               Ok (Free.ask p =? Free.ask pe)%float) act
                = Ok ex).
  { rewrite Hact2. apply next_leader.
    - intros o Ho. destruct (Hab o Ho) as (p & Hp & Hlt). rewrite Hp. simpl.
      now rewrite (gtb_not_eqb _ _ Hlt).
    - rewrite Hpe. simpl. now rewrite Hask_num. }
  unfold Free.best_prices. fold bid_of ask_of.
  rewrite Hbids. cbn [bind]. rewrite Hmax. cbn [bind].
  rewrite Hasks. cbn [bind]. rewrite Hmin. cbn [bind].
  rewrite Hnb. cbn [bind]. rewrite Hna. reflexivity.
Qed.

Lemma NoDup_active_exchanges ps now :
  NoDup (keys ps) -> NoDup (Free.active_exchanges ps now).
Proof.
  unfold Free.active_exchanges, keys.
  induction ps as [|[k p] ps IH]; simpl; intros Hnd; [constructor|].
  inversion Hnd as [|? ? Hnotin Hnd']; subst.
  destruct (Free.active now p); simpl; [|now apply IH].
  constructor; [|now apply IH].
  intros Hin. apply Hnotin. apply in_map_iff in Hin as ([k' p'] & Hk & Hin).
  apply filter_In in Hin as [Hin _]. apply in_map_iff. exists (k', p'). auto.
Qed.

(** A pass in which one exchange leads on both sides changes nothing. *)
Lemma free_leader_silent m now stamp ex :
  leads_on_bid (Free.prices m)
    (Free.active_exchanges (Free.prices m) now) ex ->
  leads_on_ask (Free.prices m)
    (Free.active_exchanges (Free.prices m) now) ex ->
  Free.check_arbitrage m now stamp = Ok m.
Proof.
  intros Hbid Hask. unfold Free.check_arbitrage.
  destruct (Nat.ltb_spec
              (List.length (Free.active_exchanges (Free.prices m) now)) 2)
    as [Hlt|Hge]; [reflexivity|].
  destruct Hbid as (bb & ba & pe & Hact & Hpe & Hbb & Hba).
  rewrite (best_prices_of_leader _ _ ex pe Hge Hpe);
    [|exists bb, ba, pe; auto|assumption].
  cbn [bind Free.bid_exchange Free.ask_exchange].
  rewrite String.eqb_refl. cbn [negb]. now rewrite andb_false_r.
Qed.

(** C9, as the code has it.  The exchange the pass takes for the best bid
    is the first active one, in the order of the store, whose bid equals the
    highest, and likewise for the best ask.  When one active exchange leads
    on both sides (it bids at least as much and asks at most as much as
    every active exchange, and no active exchange listed before it ties it
    on either side), [FreeArbitrageMonitor.check_arbitrage] leaves the
    monitor as it is: no opportunity is recorded and the counter does not
    move.  That is so in particular when one exchange outbids and undercuts
    every other active exchange, and whenever the two exchanges the pass
    finds are the same.  It holds even when another pair of active exchanges
    has a spread above the threshold, as in the store where Binance quotes
    105/100, Coinbase 104/103 and Bybit 102/101. *)
Theorem C9_leading_exchange_records_nothing :
  (forall m now stamp ex,
      leads_on_bid (Free.prices m)
        (Free.active_exchanges (Free.prices m) now) ex ->
      leads_on_ask (Free.prices m)
        (Free.active_exchanges (Free.prices m) now) ex ->
      Free.check_arbitrage m now stamp = Ok m)
  /\ (forall m now stamp ex pe,
      NoDup (keys (Free.prices m)) ->
      In ex (Free.active_exchanges (Free.prices m) now) ->
      getitem (Free.prices m) ex = Ok pe ->
      (forall o p,
          In o (Free.active_exchanges (Free.prices m) now) ->
          o <> ex ->
          getitem (Free.prices m) o = Ok p ->
          (Free.bid p <? Free.bid pe)%float = true
          /\ (Free.ask pe <? Free.ask p)%float = true) ->
      Free.check_arbitrage m now stamp = Ok m)
  /\ (forall m now stamp s,
      (2 <= List.length (Free.active_exchanges (Free.prices m) now))%nat ->
      Free.best_prices (Free.prices m)
        (Free.active_exchanges (Free.prices m) now) = Ok s ->
      Free.bid_exchange s = Free.ask_exchange s ->
      Free.check_arbitrage m now stamp = Ok m
      /\ (forall ex p,
             In ex (Free.active_exchanges (Free.prices m) now) ->
             getitem (Free.prices m) ex = Ok p ->
             (Free.best_bid s <? Free.bid p)%float = false
             /\ (Free.ask p <? Free.best_ask s)%float = false))
  /\ (Free.active_exchanges (Free.prices free_monitor_same_exchange) 10.5
      = ["binance"; "coinbase"; "bybit"]
      /\ Free.best_prices (Free.prices free_monitor_same_exchange)
           ["binance"; "coinbase"; "bybit"]
         = Ok (Free.mkSpread 105 100 "binance" "binance")
      /\ (0.01 <? (104 - 101) / 101 * 100)%float = true
      /\ Free.check_arbitrage free_monitor_same_exchange 10.5 "12:00:00.000"
         = Ok free_monitor_same_exchange).
Proof.
  split; [exact free_leader_silent|split; [|split]].
  - intros m now stamp ex pe Hnd Hin Hpe Hothers.
    pose proof (NoDup_active_exchanges _ now Hnd) as Hact.
    destruct (in_split _ _ Hin) as (before & after & Hsplit).
    rewrite Hsplit in Hact.
    assert (Hother : forall o, In o before \/ In o after ->
              exists p, getitem (Free.prices m) o = Ok p
                        /\ (Free.bid p <? Free.bid pe)%float = true
                        /\ (Free.ask pe <? Free.ask p)%float = true).
    { intros o Ho.
      assert (Hino : In o (Free.active_exchanges (Free.prices m) now)).
      { rewrite Hsplit. apply in_or_app. simpl. tauto. }
      assert (Hne : o <> ex).
      { intros ->. apply NoDup_remove_2 in Hact. apply Hact.
        apply in_or_app. exact Ho. }
      destruct (active_exchanges_in _ _ _ Hnd Hino) as (p & Hp & _).
      exists p. split; [assumption|]. now apply (Hothers o p). }
    apply free_leader_silent with (ex := ex).
    + exists before, after, pe. repeat split; try assumption.
      * intros o Ho. destruct (Hother o (or_introl Ho)) as (p & Hp & Hb & _).
        eauto.
      * intros o Ho. destruct (Hother o (or_intror Ho)) as (p & Hp & Hb & _).
        exists p. split; [assumption|].
        now apply ltb_leb.
    + exists before, after, pe. repeat split; try assumption.
      * intros o Ho. destruct (Hother o (or_introl Ho)) as (p & Hp & _ & Ha).
        eauto.
      * intros o Ho. destruct (Hother o (or_intror Ho)) as (p & Hp & _ & Ha).
        exists p. split; [assumption|].
        now apply ltb_leb.
  - intros m now stamp s Hlen Hs Hsame. unfold Free.check_arbitrage.
    destruct (Nat.ltb_spec
                (List.length (Free.active_exchanges (Free.prices m) now)) 2)
      as [Hlt|_]; [lia|].
    split; [|exact (proj1 (best_prices_extremal _ _ _ Hs))].
    rewrite Hs. cbn [bind]. rewrite Hsame, String.eqb_refl.
    cbn [negb]. now rewrite andb_false_r.
  - repeat split.
Qed.

Lemma C9_leading_exchange_records_nothing_witness :
  Free.check_arbitrage free_monitor_same_exchange 10.5 "12:00:00.000"
  = Ok free_monitor_same_exchange.
Proof.
  apply (proj1 C9_leading_exchange_records_nothing
           free_monitor_same_exchange 10.5%float "12:00:00.000" "binance").
  - exists [], ["coinbase"; "bybit"], (Free.mkPrice 105 100 10 0).
    repeat split; [intros o []|].
    intros o [<-|[<-|[]]]; eexists; split; reflexivity.
  - exists [], ["coinbase"; "bybit"], (Free.mkPrice 105 100 10 0).
    repeat split; [intros o []|].
    intros o [<-|[<-|[]]]; eexists; split; reflexivity.
Defined.

(** C9 as stated fails at a tie.  Coinbase holds the highest bid (105, as
    Binance does) and the lowest ask (100); the pass takes Binance, listed
    first, for the best bid, and records the opportunity of buying on
    Coinbase at 100 and selling on Binance at 105. *)
Lemma C9_tied_bid_records_an_opportunity :
  Free.active_exchanges (Free.prices free_monitor_tied_bid) 10.5
  = ["binance"; "coinbase"]
  /\ holds_highest_bid (Free.prices free_monitor_tied_bid)
       ["binance"; "coinbase"] "coinbase"
  /\ holds_lowest_ask (Free.prices free_monitor_tied_bid)
       ["binance"; "coinbase"] "coinbase"
  /\ Free.check_arbitrage free_monitor_tied_bid 10.5 "12:00:00.000"
     = Ok (Free.mkMonitor (Free.prices free_monitor_tied_bid)
             [Free.mkOpportunity "12:00:00.000" "coinbase" "binance"
                100 105 5 5 0 0]
             1).
Proof.
  split; [reflexivity|]. split; [|split].
  - split; [simpl; auto|]. exists (Free.mkPrice 105 100 10 0).
    split; [reflexivity|].
    intros o [<-|[<-|[]]]; eexists; split; reflexivity.
  - split; [simpl; auto|]. exists (Free.mkPrice 105 100 10 0).
    split; [reflexivity|].
    intros o [<-|[<-|[]]]; eexists; split; reflexivity.
  - vm_compute. reflexivity.
Qed.

(** ** The opportunity history (C10) *)

Section History.

Lemma length_snoc {A : Type} (q : list A) (x : A) :
  List.length (q ++ [x]) = S (List.length q).
Proof. rewrite length_app. cbn [List.length]. lia. Qed.

Lemma deque_append_length {A : Type} (q : list A) (x : A) :
  (List.length q <= Free.maxlen)%nat ->
  List.length (Free.deque_append q x)
  = Nat.min (S (List.length q)) Free.maxlen.
Proof.
  unfold Free.deque_append. intros Hq. rewrite length_snoc.
  destruct (Nat.ltb_spec Free.maxlen (S (List.length q))) as [Hlt|Hge].
  - destruct q as [|y q]; cbn [List.length tl app] in *.
    + unfold Free.maxlen in *. lia.
    + rewrite length_snoc. lia.
  - rewrite length_snoc. lia.
Qed.

Lemma deque_append_full {A : Type} (q : list A) (x : A) :
  List.length q = Free.maxlen ->
  Free.deque_append q x = tl q ++ [x].
Proof.
  unfold Free.deque_append. intros Hq. rewrite length_snoc, Hq.
  destruct (Nat.ltb_spec Free.maxlen (S Free.maxlen)) as [_|Hge]; [|lia].
  destruct q as [|y q]; [discriminate|reflexivity].
Qed.

Lemma deque_append_room {A : Type} (q : list A) (x : A) :
  (List.length q < Free.maxlen)%nat ->
  Free.deque_append q x = q ++ [x].
Proof.
  unfold Free.deque_append. intros Hq. rewrite length_snoc.
  destruct (Nat.ltb_spec Free.maxlen (S (List.length q))); [lia|reflexivity].
Qed.

(** A pass either changes nothing or appends one entry and counts it. *)
Lemma free_check_effect m now stamp m' :
  Free.check_arbitrage m now stamp = Ok m' ->
  m' = m
  \/ exists o,
       m' = Free.mkMonitor (Free.prices m)
              (Free.deque_append (Free.arbitrage_opportunities m) o)
              (Free.total_opportunities m + 1).
Proof.
  intros H. apply free_check_inv in H
    as [[_ ->]|(s & _ & _ & [(_ & _ & pa & pb & _ & _ & ->)|[_ ->]])]; auto.
  right. eexists. reflexivity.
Qed.

End History.

Lemma repeat_check_standing n : forall tA lA tB lB third now stamp hist total,
  Free.active now (free_quote_A tA lA) = true ->
  Free.active now (free_quote_B tB lB) = true ->
  Free.active now third = false ->
  (List.length hist <= Free.maxlen)%nat ->
  exists hist',
    repeat_check n
      (Free.mkMonitor (free_store_AB tA lA tB lB third) hist total) now stamp
    = Ok (Free.mkMonitor (free_store_AB tA lA tB lB third) hist'
            (total + Z.of_nat n))
    /\ List.length hist' = Nat.min (List.length hist + n) Free.maxlen.
Proof.
  induction n as [|n IH];
    intros tA lA tB lB third now stamp hist total HA HB H3 Hlen.
  - exists hist. simpl. rewrite Z.add_0_r. split; [reflexivity|lia].
  - cbn [repeat_check]. rewrite (free_two_quotes _ _ _ _ _ _ _ _ _ HA HB H3).
    cbn [bind].
    destruct (IH tA lA tB lB third now stamp
                (Free.deque_append hist (free_A_to_B stamp lA lB))
                (total + 1)%Z HA HB H3) as (hist' & Hrun & Hlen').
    + rewrite deque_append_length by assumption. lia.
    + exists hist'. rewrite Hrun. split; [f_equal; f_equal; lia|].
      rewrite Hlen', deque_append_length by assumption. lia.
Qed.

Section Runs.

Variable float_of_string : string -> result float.

(** What a handler does once it has a quote for [exchange]. *)
Lemma free_store_then_check m exchange q now stamp :
  let m1 :=
    Free.mkMonitor (setitem (Free.prices m) exchange q)
      (Free.arbitrage_opportunities m) (Free.total_opportunities m) in
  one_detection_at_most m
    (fst match Free.check_arbitrage m1 now stamp with
         | Ok m2 => (m2, Continue)
         | Raise _ => (m1, Break)
         end).
Proof.
  intros m1. destruct (Free.check_arbitrage m1 now stamp) as [m2|e] eqn:H;
    cbn [fst].
  - apply free_check_effect in H as [->|[o ->]].
    + left. split; reflexivity.
    + right. exists o. split; reflexivity.
  - left. split; reflexivity.
Qed.

Lemma free_handle_effect m fr :
  one_detection_at_most m (free_handle float_of_string m fr).
Proof.
  destruct fr as [a|a|h]; unfold free_handle.
  - unfold FreeFeed.on_message.
    destruct (decode_book_ticker float_of_string (payload a))
      as [[[bid ask]|]|]; try (left; split; reflexivity).
    apply free_store_then_check.
  - unfold Venues.on_coinbase.
    destruct (Venues.decode_coinbase float_of_string (payload a))
      as [[[bid ask]|]|]; try (left; split; reflexivity).
    apply free_store_then_check.
  - unfold FreeBybit.on_message.
    destruct (FreeBybit.decode float_of_string h)
      as [[[bid ask]|]|]; try (left; split; reflexivity).
    apply free_store_then_check.
Qed.

Lemma one_detection_bounded m m' :
  one_detection_at_most m m' ->
  history_bounded m ->
  history_bounded m'
  /\ (Free.total_opportunities m <= Free.total_opportunities m')%Z.
Proof.
  unfold history_bounded.
  intros [[Hh Ht]|(o & Hh & Ht)] [Hlen Htot]; rewrite Hh, Ht.
  - split; [split; assumption|lia].
  - rewrite deque_append_length by assumption. split; [split|]; lia.
Qed.

Lemma free_handle_all_bounded frames : forall m,
  history_bounded m ->
  history_bounded (free_handle_all float_of_string m frames)
  /\ (Free.total_opportunities m
      <= Free.total_opportunities
           (free_handle_all float_of_string m frames))%Z.
Proof.
  unfold free_handle_all.
  induction frames as [|fr frames IH]; simpl; intros m Hm.
  - split; [assumption|lia].
  - destruct (one_detection_bounded _ _ (free_handle_effect m fr) Hm)
      as [Hb Hle].
    destruct (IH _ Hb) as [Hb' Hle']. split; [assumption|lia].
Qed.

End Runs.

(** A Coinbase ticker B that arrives while the quote A of Binance is fresh
    is a detection. *)
Lemma ticker_B_detects ps hist total :
  setitem ps "coinbase" (free_quote_B 11 0)
  = free_store_AB 11 0 11 0 (Free.mkPrice 0 0 0 0) ->
  free_handle float_of_decimal (Free.mkMonitor ps hist total)
    (OnCoinbase (arrive ticker_B))
  = Free.mkMonitor (free_store_AB 11 0 11 0 (Free.mkPrice 0 0 0 0))
      (Free.deque_append hist (free_A_to_B "12:00:00.000" 0 0))
      (total + 1).
Proof.
  intros Hset. unfold free_handle, Venues.on_coinbase.
  replace (Venues.decode_coinbase float_of_decimal
             (payload (arrive ticker_B)))
    with (PyMore.Done (Some (100.30, 100.40)%float))
    by (vm_compute; reflexivity).
  cbn [Free.prices Free.arbitrage_opportunities Free.total_opportunities
       readings arrive stamp clock_11].
  change (Free.mkPrice 100.30 100.40 (clock_11 2)
            ((clock_11 1 - clock_11 0) * 1000))
    with (free_quote_B 11 0).
  rewrite Hset. change (clock_11 3) with 11%float.
  rewrite free_two_quotes by (vm_compute; reflexivity).
  reflexivity.
Qed.

Lemma tickers_B_detect n : forall ps hist total,
  setitem ps "coinbase" (free_quote_B 11 0)
  = free_store_AB 11 0 11 0 (Free.mkPrice 0 0 0 0) ->
  (List.length hist <= Free.maxlen)%nat ->
  let m := free_handle_all float_of_decimal (Free.mkMonitor ps hist total)
             (repeat (OnCoinbase (arrive ticker_B)) n) in
  Free.total_opportunities m = (total + Z.of_nat n)%Z
  /\ List.length (Free.arbitrage_opportunities m)
     = Nat.min (List.length hist + n) Free.maxlen.
Proof.
  induction n as [|n IH]; intros ps hist total Hset Hlen.
  - simpl. split; [lia|]. rewrite Nat.add_0_r. lia.
  - destruct (IH (free_store_AB 11 0 11 0 (Free.mkPrice 0 0 0 0))
                (Free.deque_append hist (free_A_to_B "12:00:00.000" 0 0))
                (total + 1)%Z) as [Ht Hh].
    + reflexivity.
    + rewrite deque_append_length by assumption. lia.
    + unfold free_handle_all in *. cbn [repeat fold_left].
      rewrite (ticker_B_detects _ _ _ Hset).
      rewrite Ht, Hh, deque_append_length by assumption. split; lia.
Qed.

(** C10: throughout a run of [FreeArbitrageMonitor], whatever frames its
    three feeds handle and in whatever order, the history
    [arbitrage_opportunities] holds at most 100 entries, and never more than
    were counted; [total_opportunities] never decreases.  A frame either
    leaves the history and the counter alone or appends one entry and adds
    one to the counter; a pass that detects an opportunity appends it and
    adds one, and a pass that detects none changes neither.  Appending to a
    history of 100 entries drops the oldest one.  The counter has no bound:
    a Binance quote A followed by [n] Coinbase tickers B within the second
    is [n] detections, after which the counter is [n] and the history holds
    [n] entries or 100, whichever is less. *)
Theorem C10_history_is_bounded_counter_is_not :
  (forall (float_of_string : string -> result float) frames,
      let m := free_handle_all float_of_string Free.init frames in
      (List.length (Free.arbitrage_opportunities m) <= 100)%nat
      /\ (Z.of_nat (List.length (Free.arbitrage_opportunities m))
          <= Free.total_opportunities m)%Z)
  /\ (forall (float_of_string : string -> result float) frames fr,
      let m := free_handle_all float_of_string Free.init frames in
      let m' := free_handle_all float_of_string Free.init (frames ++ [fr]) in
      one_detection_at_most m m'
      /\ (Free.total_opportunities m <= Free.total_opportunities m')%Z)
  /\ (forall n,
      let m := free_handle_all float_of_decimal Free.init
                 (standing_spread n) in
      Free.total_opportunities m = Z.of_nat n
      /\ List.length (Free.arbitrage_opportunities m) = Nat.min n 100)
  /\ (forall m now stamp m',
      Free.check_arbitrage m now stamp = Ok m' ->
      m' = m
      \/ exists o,
           m' = Free.mkMonitor (Free.prices m)
                  (Free.deque_append (Free.arbitrage_opportunities m) o)
                  (Free.total_opportunities m + 1))
  /\ (forall (q : list Free.opportunity) o,
      List.length q = 100%nat ->
      Free.deque_append q o = tl q ++ [o]
      /\ List.length (Free.deque_append q o) = 100%nat)
  /\ (forall (q : list Free.opportunity) o,
      (List.length q < 100)%nat -> Free.deque_append q o = q ++ [o])
  /\ (forall n tA lA tB lB third now stamp hist total,
      Free.active now (free_quote_A tA lA) = true ->
      Free.active now (free_quote_B tB lB) = true ->
      Free.active now third = false ->
      (List.length hist <= 100)%nat ->
      exists hist',
        repeat_check n
          (Free.mkMonitor (free_store_AB tA lA tB lB third) hist total)
          now stamp
        = Ok (Free.mkMonitor (free_store_AB tA lA tB lB third) hist'
                (total + Z.of_nat n))
        /\ List.length hist' = Nat.min (List.length hist + n) 100).
Proof.
  assert (Hstart : history_bounded Free.init).
  { unfold history_bounded, Free.maxlen. simpl. split; lia. }
  split; [|split; [|split; [|split; [|split; [|split]]]]].
  - intros fos frames.
    exact (proj1 (free_handle_all_bounded fos frames Free.init Hstart)).
  - intros fos frames fr m m'. subst m m'. unfold free_handle_all.
    rewrite fold_left_app. cbn [fold_left].
    split; [apply free_handle_effect|].
    eapply one_detection_bounded; [apply free_handle_effect|].
    exact (proj1 (free_handle_all_bounded fos frames Free.init Hstart)).
  - intros n m. subst m. unfold standing_spread.
    cbn [free_handle_all fold_left].
    replace (free_handle float_of_decimal Free.init
               (OnBinance (arrive frame_A)))
      with (Free.mkMonitor
              [("binance", free_quote_A 11 0);
               ("coinbase", Free.mkPrice 0 0 0 0);
               ("bybit", Free.mkPrice 0 0 0 0)] [] 0)
      by (vm_compute; reflexivity).
    destruct (tickers_B_detect n
                [("binance", free_quote_A 11 0);
                 ("coinbase", Free.mkPrice 0 0 0 0);
                 ("bybit", Free.mkPrice 0 0 0 0)] [] 0%Z eq_refl)
      as [Ht Hh]; [simpl; lia|].
    unfold free_handle_all in Ht, Hh. rewrite Ht, Hh.
    unfold Free.maxlen. simpl. split; lia.
  - exact free_check_effect.
  - intros q o Hq. split; [now apply deque_append_full|].
    rewrite deque_append_length by (unfold Free.maxlen; lia).
    unfold Free.maxlen. lia.
  - intros q o Hq. now apply deque_append_room.
  - exact repeat_check_standing.
Qed.

Lemma C10_history_is_bounded_counter_is_not_witness :
  exists hist',
    repeat_check 101
      (Free.mkMonitor
         (free_store_AB 10 0 10 0 (Free.mkPrice 0 0 0 0)) [] 0)
      10.5 "12:00:00.000"
    = Ok (Free.mkMonitor
            (free_store_AB 10 0 10 0 (Free.mkPrice 0 0 0 0)) hist'
            (0 + Z.of_nat 101))
    /\ List.length hist' = Nat.min (List.length (@nil Free.opportunity) + 101) 100.
Proof.
  refine (proj2 (proj2 (proj2 (proj2 (proj2 (proj2
            C10_history_is_bounded_counter_is_not)))))
            101%nat 10%float 0%float 10%float 0%float (Free.mkPrice 0 0 0 0)
            10.5%float "12:00:00.000" [] 0%Z _ _ _ _).
  - vm_compute. reflexivity.
  - vm_compute. reflexivity.
  - vm_compute. reflexivity.
  - simpl. lia.
Defined.

(** * Further properties of the monitors *)

(** ** The pairs a pass of [ArbitrageSpeedMonitor] visits *)

Lemma pairs_length (l : list string) :
  (2 * List.length (Speed.pairs l)
   = List.length l * (List.length l - 1))%nat.
Proof.
  induction l as [|x rest IH]; [reflexivity|].
  cbn [Speed.pairs List.length]. rewrite length_app, length_map.
  destruct rest as [|y rest]; [reflexivity|].
  cbn [List.length] in *. nia.
Qed.

(** The two loops of [check_arbitrage] visit every two different exchanges
    of the store once, in one order or the other, and never an exchange
    with itself: [n] exchanges make [n (n - 1) / 2] pairs. *)
Theorem pass_visits_each_pair_once :
  forall m,
    well_formed m ->
    let visited := Speed.pairs (keys (Speed.prices m)) in
    (forall a b,
        In a (keys (Speed.prices m)) -> In b (keys (Speed.prices m)) ->
        a <> b ->
        (In (a, b) visited /\ ~ In (b, a) visited)
        \/ (In (b, a) visited /\ ~ In (a, b) visited))
    /\ NoDup visited
    /\ (forall a b, In (a, b) visited -> a <> b)
    /\ (2 * List.length visited
        = List.length (Speed.prices m) * (List.length (Speed.prices m) - 1))%nat.
Proof.
  intros m Hwf visited. subst visited. unfold well_formed in Hwf.
  repeat split.
  - intros a b Ha Hb Hne.
    destruct (pairs_cover _ a b Ha Hb Hne) as [H|H]; [left|right];
      (split; [assumption|]); now apply pairs_not_swapped.
  - now apply pairs_NoDup.
  - intros a b. now apply pairs_distinct.
  - rewrite pairs_length. unfold keys. now rewrite length_map.
Qed.

Lemma pass_visits_each_pair_once_witness :
  (2 * List.length (Speed.pairs (keys (Speed.prices monitor_ABC)))
   = List.length (Speed.prices monitor_ABC)
     * (List.length (Speed.prices monitor_ABC) - 1))%nat.
Proof.
  apply (pass_visits_each_pair_once monitor_ABC).
  unfold well_formed. simpl.
  repeat constructor; simpl; intuition discriminate.
Defined.

(** ** What a reported opportunity says *)

Lemma max_by_in {A : Type} (key : A -> float) (xs : list A) best :
  max_by key xs = Some best -> In best xs.
Proof.
  destruct xs as [|x rest]; simpl; [discriminate|].
  intros H. inversion H; subst; clear H.
  revert x. induction rest as [|y rest IH]; intros x; simpl; [now left|].
  destruct (key x <? key y)%float.
  - destruct (IH y) as [Heq|Hin]; [right; left; exact Heq|right; right; exact Hin].
  - destruct (IH x) as [Heq|Hin]; [left; exact Heq|right; right; exact Hin].
Qed.

(** The opportunity [check_arbitrage] prints is between two different
    exchanges of the store; it buys at the stored ask of the one and sells at
    the stored bid of the other, its profit is their difference, and its
    percentage, the profit over the buying price times 100, is above
    0.01. *)
Theorem reported_opportunity_quotes_the_store :
  forall m c best,
    well_formed m ->
    Speed.check_arbitrage m c = Ok (Some best) ->
    Speed.buy_exchange best <> Speed.sell_exchange best
    /\ (0.01 <? Speed.profit_pct best)%float = true
    /\ exists pb ps,
         getitem (Speed.prices m) (Speed.buy_exchange best) = Ok pb
         /\ getitem (Speed.prices m) (Speed.sell_exchange best) = Ok ps
         /\ Speed.buy_price best = Speed.ask pb
         /\ Speed.sell_price best = Speed.bid ps
         /\ Speed.profit_usd best = (Speed.bid ps - Speed.ask pb)%float
         /\ Speed.profit_pct best
            = ((Speed.bid ps - Speed.ask pb) / Speed.ask pb * 100)%float.
Proof.
  intros m c best Hwf. unfold Speed.check_arbitrage.
  destruct (List.length (Speed.prices m) <? 2)%nat; [discriminate|].
  destruct (Speed.opportunities m c) as [opps|] eqn:Hopps; simpl;
    [|discriminate].
  intros H. inversion H as [Hbest]; clear H. apply max_by_in in Hbest.
  apply (opportunities_spec m c opps Hopps) in Hbest
    as [(k & ex1 & ex2 & p1 & p2 & (Hk & H1 & H2) & _ & Ho) Hgt].
  apply nth_error_In in Hk. apply (pairs_distinct _ _ _ Hwf) in Hk.
  split; [|split; [exact Hgt|]].
  - destruct Ho as [-> | ->]; simpl; congruence.
  - destruct Ho as [-> | ->]; simpl.
    + exists p1, p2. repeat split; assumption.
    + exists p2, p1. repeat split; assumption.
Qed.

Lemma reported_opportunity_quotes_the_store_witness :
  Speed.buy_exchange (speed_A_to_B "A" "B")
  <> Speed.sell_exchange (speed_A_to_B "A" "B").
Proof.
  apply (reported_opportunity_quotes_the_store monitor_AB clock_11).
  - unfold well_formed. simpl.
    repeat constructor; simpl; intuition discriminate.
  - vm_compute. reflexivity.
Defined.

(** ** The best opportunity is the best *)

Lemma stale_sym t p1 p2 : Speed.stale t p1 p2 = Speed.stale t p2 p1.
Proof. unfold Speed.stale. apply orb_comm. Qed.

(** When the clock does not move during a pass over a store without a zero
    ask, any direction between two different exchanges with fresh quotes
    and a percentage above 0.01 makes the pass report an opportunity, and
    the percentage of the one it reports is not below that of the
    direction. *)
Theorem reported_opportunity_is_not_beaten :
  forall m t a b pa pb,
    asks_nonzero m ->
    getitem (Speed.prices m) a = Ok pa ->
    getitem (Speed.prices m) b = Ok pb ->
    a <> b ->
    Speed.stale t pa pb = false ->
    (0.01 <? Speed.profit_pct (direction a b pa pb))%float = true ->
    exists best,
      Speed.check_arbitrage m (steady t) = Ok (Some best)
      /\ (Speed.profit_pct best
          <? Speed.profit_pct (direction a b pa pb))%float = false.
Proof.
  intros m t a b pa pb Hask Ha Hb Hne Hfresh Hgt.
  destruct (check_arbitrage_total m (steady t) Hask) as [reported Hrep].
  set (o := direction a b pa pb) in *.
  assert (Hcand : candidate m (steady t) o).
  { destruct (pairs_cover (keys (Speed.prices m)) a b) as [Hin|Hin];
      try (eapply getitem_keys; eassumption); [assumption| |];
      apply In_nth_error in Hin as [k Hk].
    - exists k, a, b, pa, pb. unfold visits, steady. auto 6.
    - exists k, b, a, pb, pa. unfold visits, steady.
      rewrite stale_sym. auto 6. }
  pose proof Hrep as Hrep'. unfold Speed.check_arbitrage in Hrep'.
  destruct (Nat.ltb_spec (List.length (Speed.prices m)) 2) as [Hlt|Hge].
  - exfalso. pose proof (speed_no_pairs m (steady t) Hlt) as Hnone.
    apply (proj2 (opportunities_spec m _ [] Hnone o)); auto.
  - destruct (Speed.opportunities m (steady t)) as [opps|] eqn:Hopps;
      simpl in Hrep'; [|discriminate].
    inversion Hrep' as [Hmax]; clear Hrep'.
    assert (Hin : In o opps)
      by (apply (opportunities_spec m _ opps Hopps); auto).
    destruct (max_by Speed.profit_pct opps) as [best|] eqn:Hbest.
    + exists best. subst reported. split; [exact Hrep|].
      destruct (max_by_first_greatest Speed.profit_pct opps 0.01%float best)
        as (before & after & Heq & Hb4 & Haft); [|assumption|].
      * apply Forall_forall. intros o' Ho'.
        now apply (opportunities_spec m _ opps Hopps) in Ho' as [_ Ho'].
      * rewrite Heq in Hin. rewrite Forall_forall in Hb4, Haft.
        apply in_app_iff in Hin as [Hin|[Hin|Hin]].
        -- apply ltb_asym. now apply Hb4.
        -- rewrite Hin. apply ltb_irrefl.
        -- now apply Haft.
    + apply max_by_none in Hbest. subst opps. destruct Hin.
Qed.

Lemma reported_opportunity_is_not_beaten_witness :
  exists best,
    Speed.check_arbitrage monitor_AB (steady 11) = Ok (Some best)
    /\ (Speed.profit_pct best
        <? Speed.profit_pct (direction "A" "B" (quote_A 10) (quote_B 10)))%float
       = false.
Proof.
  apply (reported_opportunity_is_not_beaten monitor_AB 11%float "A" "B"
           (quote_A 10) (quote_B 10)).
  - intros ex p. unfold monitor_AB. simpl.
    destruct (String.eqb ex "A"); [intros H; inversion H; reflexivity|].
    destruct (String.eqb ex "B"); [intros H; inversion H; reflexivity|].
    discriminate.
  - reflexivity.
  - reflexivity.
  - discriminate.
  - vm_compute. reflexivity.
  - vm_compute. reflexivity.
Defined.

(** ** When a pass of [ArbitrageSpeedMonitor] raises *)

Lemma check_pair_raises ps t ex1 ex2 opps p1 p2 e :
  getitem ps ex1 = Ok p1 -> getitem ps ex2 = Ok p2 ->
  Speed.check_pair ps t ex1 ex2 opps = Raise e <->
  e = ZeroDivisionError
  /\ Speed.stale t p1 p2 = false
  /\ ((Speed.ask p1 =? 0)%float = true \/ (Speed.ask p2 =? 0)%float = true).
Proof.
  intros H1 H2. unfold Speed.check_pair. rewrite H1, H2. cbn [bind].
  destruct (Speed.stale t p1 p2).
  - split; [discriminate|]. intros (_ & Hs & _). discriminate.
  - unfold truediv. destruct (Speed.ask p1 =? 0)%float; cbn [bind].
    + split; [intros H; inversion H; auto|]. intros (-> & _). reflexivity.
    + destruct (Speed.ask p2 =? 0)%float; cbn [bind].
      * split; [intros H; inversion H; auto|]. intros (-> & _). reflexivity.
      * split; [discriminate|]. intros (_ & _ & [H|H]); discriminate.
Qed.

Lemma scan_raises ps c todo e : forall k opps,
  (forall a b, In (a, b) todo -> In a (keys ps) /\ In b (keys ps)) ->
  Speed.scan ps c k todo opps = Raise e <->
  e = ZeroDivisionError
  /\ exists j ex1 ex2 p1 p2,
       nth_error todo j = Some (ex1, ex2)
       /\ getitem ps ex1 = Ok p1 /\ getitem ps ex2 = Ok p2
       /\ Speed.stale (c (k + j)%nat) p1 p2 = false
       /\ ((Speed.ask p1 =? 0)%float = true
           \/ (Speed.ask p2 =? 0)%float = true).
Proof.
  induction todo as [|[ex1 ex2] todo IH]; intros k opps Hkeys; simpl.
  - split; [discriminate|].
    intros (_ & j & ? & ? & ? & ? & Hnth & _). destruct j; discriminate.
  - destruct (Hkeys ex1 ex2 (or_introl eq_refl)) as [Hk1 Hk2].
    destruct (getitem_in_keys ps ex1 Hk1) as [p1 Hp1].
    destruct (getitem_in_keys ps ex2 Hk2) as [p2 Hp2].
    pose proof (check_pair_raises ps (c k) ex1 ex2 opps p1 p2) as Hpair.
    destruct (Speed.check_pair ps (c k) ex1 ex2 opps) as [opps'|e'] eqn:Hcp;
      cbn [bind].
    + rewrite IH by (intros a b Hab; apply Hkeys; now right). split.
      * intros (-> & j & a & b & q1 & q2 & Hnth & Ha & Hb & Hs & Hz).
        split; [reflexivity|]. exists (S j), a, b, q1, q2.
        rewrite Nat.add_succ_r. auto 6.
      * intros (-> & j & a & b & q1 & q2 & Hnth & Ha & Hb & Hs & Hz).
        split; [reflexivity|]. destruct j as [|j]; simpl in Hnth.
        -- exfalso. inversion Hnth; subst a b. rewrite Nat.add_0_r in Hs.
           assert (q1 = p1) by congruence. assert (q2 = p2) by congruence.
           subst q1 q2.
           assert (Hr : @Ok (list Speed.opportunity) opps'
                        = Raise ZeroDivisionError)
             by (apply (proj2 (Hpair ZeroDivisionError Hp1 Hp2)); auto).
           discriminate.
        -- exists j, a, b, q1, q2. rewrite Nat.add_succ_r in Hs. auto 6.
    + split.
      * intros H. inversion H; subst e'.
        destruct (proj1 (Hpair e Hp1 Hp2) eq_refl) as (-> & Hs & Hz).
        split; [reflexivity|]. exists 0%nat, ex1, ex2, p1, p2.
        rewrite Nat.add_0_r. auto 6.
      * intros (-> & _).
        destruct (proj1 (Hpair e' Hp1 Hp2) eq_refl) as (-> & _).
        reflexivity.
Qed.

(** A pass of [check_arbitrage] raises exactly when a pair it reads as
    fresh has a zero ask, and what it raises is [ZeroDivisionError]: no
    lookup fails.  The pass then reports nothing, whatever the other pairs
    hold. *)
Theorem pass_raises_on_a_zero_ask :
  forall m c,
    (forall e,
        Speed.check_arbitrage m c = Raise e -> e = ZeroDivisionError)
    /\ (Speed.check_arbitrage m c = Raise ZeroDivisionError
        <-> divides_by_zero m c).
Proof.
  intros m c.
  assert (Hscan : forall e,
             Speed.check_arbitrage m c = Raise e <->
             e = ZeroDivisionError /\ divides_by_zero m c).
  { intros e. unfold Speed.check_arbitrage, divides_by_zero, visits.
    destruct (Nat.ltb_spec (List.length (Speed.prices m)) 2) as [Hlt|Hge].
    - split; [discriminate|].
      intros (_ & k & ex1 & ex2 & p1 & p2 & (Hk & _) & _). exfalso.
      destruct (Speed.prices m) as [|[k1 q1] [|kq ps]]; simpl in *;
        try lia; destruct k; discriminate.
    - unfold Speed.opportunities.
      destruct (Speed.scan (Speed.prices m) c 0
                  (Speed.pairs (keys (Speed.prices m))) [])
        as [opps|e'] eqn:Hsc; cbn [bind].
      + split; [discriminate|].
        intros (-> & k & ex1 & ex2 & p1 & p2 & (Hk & H1 & H2) & Hf & Hz).
        exfalso.
        assert (Hr : Speed.scan (Speed.prices m) c 0
                       (Speed.pairs (keys (Speed.prices m))) []
                     = Raise ZeroDivisionError).
        { apply scan_raises; [intros a b; apply pairs_in|].
          split; [reflexivity|]. exists k, ex1, ex2, p1, p2. auto 6. }
        rewrite Hsc in Hr. discriminate.
      + apply scan_raises in Hsc
          as (-> & k & ex1 & ex2 & p1 & p2 & Hk & H1 & H2 & Hf & Hz);
          [|intros a b; apply pairs_in].
        split.
        * intros H. inversion H; subst e. split; [reflexivity|].
          exists k, ex1, ex2, p1, p2. auto 6.
        * intros (-> & _). reflexivity. }
  split.
  - intros e He. now apply Hscan in He.
  - rewrite Hscan. tauto.
Qed.

Lemma pass_raises_on_a_zero_ask_witness :
  Speed.check_arbitrage monitor_zero_ask clock_11 = Raise ZeroDivisionError.
Proof.
  apply (proj2 (pass_raises_on_a_zero_ask monitor_zero_ask clock_11)).
  exists 0%nat, "A", "B", (Speed.mkPrice 100 0 10), (Speed.mkPrice 101 102 10).
  repeat split. left. reflexivity.
Defined.

(** ** Sequences of updates *)

Section Updates.

Lemma keys_setitem_same_keys {V W : Type} (d1 : dict V) (d2 : dict W) k v w :
  keys d1 = keys d2 -> keys (setitem d1 k v) = keys (setitem d2 k w).
Proof.
  revert d2. induction d1 as [|[k1 v1] d1 IH]; intros [|[k2 v2] d2];
    simpl; try discriminate; [reflexivity|].
  intros H. inversion H; subst.
  destruct (String.eqb k k2); simpl; [congruence|].
  f_equal. now apply IH.
Qed.

Lemma aligned_init now : aligned (Speed.init now).
Proof. repeat split. constructor. Qed.

Lemma aligned_update m u : aligned m -> aligned (apply_update m u).
Proof.
  intros (Hc & Hl & Hnd). unfold apply_update, Speed.update_price.
  destruct (upd_timestamp u) as [t|]; cbn [fst]; unfold aligned;
    cbn [Speed.prices Speed.message_counts Speed.last_update];
    (split; [now apply keys_setitem_same_keys|];
     split; [now apply keys_setitem_same_keys|];
     now apply keys_setitem_NoDup).
Qed.

Lemma aligned_updates us : forall m, aligned m -> aligned (apply_updates m us).
Proof.
  unfold apply_updates.
  induction us as [|u us IH]; simpl; intros m Hm; [assumption|].
  apply IH. now apply aligned_update.
Qed.

Lemma get_setitem_same {V : Type} (d : dict V) k v default :
  get (setitem d k v) k default = v.
Proof. unfold get. now rewrite getitem_setitem_same. Qed.

Lemma get_setitem_other {V : Type} (d : dict V) k k' v default :
  k' <> k -> get (setitem d k v) k' default = get d k' default.
Proof. intros H. unfold get. now rewrite getitem_setitem_other. Qed.

Lemma count_after_update m u ex :
  get (Speed.message_counts (apply_update m u)) ex 0%Z
  = (get (Speed.message_counts m) ex 0
     + if String.eqb (upd_exchange u) ex then 1 else 0)%Z.
Proof.
  unfold apply_update, Speed.update_price.
  destruct (String.eqb_spec (upd_exchange u) ex) as [<-|Hne];
    destruct (upd_timestamp u); cbn [fst Speed.message_counts];
    rewrite ?get_setitem_same; try reflexivity;
    rewrite get_setitem_other by congruence; lia.
Qed.

Lemma quote_after_update m u ex :
  getitem (Speed.prices (apply_update m u)) ex
  = if String.eqb (upd_exchange u) ex
    then Ok (stored_quote (upd_bid u) (upd_ask u) (upd_timestamp u)
               (upd_clock u))
    else getitem (Speed.prices m) ex.
Proof.
  unfold apply_update, Speed.update_price, stored_quote.
  destruct (String.eqb_spec (upd_exchange u) ex) as [<-|Hne];
    destruct (upd_timestamp u); cbn [fst Speed.prices];
    rewrite ?getitem_setitem_same; try reflexivity;
    now rewrite getitem_setitem_other by congruence.
Qed.

End Updates.

(** After any calls of [update_price], the store holds for an exchange the
    quote of the last call made for it, with the timestamp that call gave
    or read, and the count of the exchange has grown by the number of calls
    made for it; an exchange no call named keeps its quote and its
    count. *)
Theorem updates_last_call_wins :
  forall m us ex,
    let m' := apply_updates m us in
    get (Speed.message_counts m') ex 0%Z
    = (get (Speed.message_counts m) ex 0
       + Z.of_nat (count_occ string_dec (map upd_exchange us) ex))%Z
    /\ (forall before u after,
           us = before ++ u :: after ->
           upd_exchange u = ex ->
           ~ In ex (map upd_exchange after) ->
           getitem (Speed.prices m') ex
           = Ok (stored_quote (upd_bid u) (upd_ask u) (upd_timestamp u)
                   (upd_clock u)))
    /\ (~ In ex (map upd_exchange us) ->
        getitem (Speed.prices m') ex = getitem (Speed.prices m) ex).
Proof.
  intros m us ex m'. subst m'. unfold apply_updates.
  assert (Hkeep : forall vs m0,
             ~ In ex (map upd_exchange vs) ->
             getitem (Speed.prices (fold_left apply_update vs m0)) ex
             = getitem (Speed.prices m0) ex).
  { induction vs as [|v vs IH]; simpl; intros m0 Hnot; [reflexivity|].
    rewrite IH by tauto. rewrite quote_after_update.
    destruct (String.eqb_spec (upd_exchange v) ex); [tauto|reflexivity]. }
  split; [|split].
  - revert m. induction us as [|u us IH]; intros m; simpl; [lia|].
    rewrite IH, count_after_update.
    destruct (string_dec (upd_exchange u) ex) as [Heq|Hne].
    + rewrite (proj2 (String.eqb_eq _ _) Heq). lia.
    + rewrite (proj2 (String.eqb_neq _ _) Hne). lia.
  - intros before u after -> Hu Hnot. rewrite fold_left_app. simpl.
    rewrite Hkeep by assumption. rewrite quote_after_update.
    now rewrite (proj2 (String.eqb_eq _ _) Hu).
  - apply Hkeep.
Qed.

Lemma updates_last_call_wins_witness :
  getitem
    (Speed.prices
       (apply_updates (Speed.init 0)
          [mkUpdate "Binance" 100 101 None clock_11;
           mkUpdate "OKX" 99 100 None clock_11;
           mkUpdate "Binance" 102 103 (Some 12%float) clock_11]))
    "OKX"
  = Ok (stored_quote 99 100 None clock_11).
Proof.
  refine (proj1 (proj2 (updates_last_call_wins (Speed.init 0) _ "OKX"))
            [mkUpdate "Binance" 100 101 None clock_11]
            (mkUpdate "OKX" 99 100 None clock_11)
            [mkUpdate "Binance" 102 103 (Some 12%float) clock_11] _ _ _).
  - reflexivity.
  - reflexivity.
  - simpl. intuition discriminate.
Defined.

(** ** [print_status] and the final statistics *)

Section Report.

Import SpeedReport.

Lemma positive_is_not_zero (y : float) :
  (0 <? y)%float = true -> (y =? 0)%float = false.
Proof.
  rewrite FloatAxioms.ltb_spec, FloatAxioms.eqb_spec.
  change (Prim2SF 0) with (S754_zero false).
  unfold SFltb, SFeqb. destruct (Prim2SF y) as [s|s| |s mant e];
    try destruct s; simpl; congruence.
Qed.

Lemma insert_sorted_in x y xs : In y (insert_sorted x xs) <-> y = x \/ In y xs.
Proof.
  induction xs as [|z xs IH]; simpl; [intuition|].
  destruct (String.leb x z); simpl; [intuition|]. rewrite IH. intuition.
Qed.

Lemma sorted_in y xs : In y (sorted xs) <-> In y xs.
Proof.
  unfold sorted. induction xs as [|x xs IH]; simpl; [tauto|].
  rewrite insert_sorted_in, IH. intuition.
Qed.

Lemma insert_sorted_length x xs :
  List.length (insert_sorted x xs) = S (List.length xs).
Proof.
  induction xs as [|z xs IH]; simpl; [reflexivity|].
  destruct (String.leb x z); simpl; congruence.
Qed.

Lemma sorted_length xs : List.length (sorted xs) = List.length xs.
Proof.
  unfold sorted. induction xs as [|x xs IH]; simpl; [reflexivity|].
  now rewrite insert_sorted_length, IH.
Qed.

Lemma status_row_inv m t rt ex :
  aligned m -> In ex (keys (Speed.prices m)) ->
  (exists r, status_row m t rt ex = Done r
             /\ exchange r = ex /\ shows_quote m t r)
  \/ status_row m t rt ex = Failed OverflowError.
Proof.
  intros (Hc & _ & _) Hin. unfold status_row.
  destruct (getitem_in_keys _ ex Hin) as [p Hp]. rewrite Hp.
  rewrite <- Hc in Hin. destruct (getitem_in_keys _ ex Hin) as [n Hn].
  rewrite Hn. cbn [lift and_then].
  destruct (0 <? rt)%float eqn:Hrt.
  - unfold int_truediv, float_of_int.
    destruct (is_infinity (Wire.float_of_Z n)); cbn [and_then]; [now right|].
    unfold truediv. rewrite (positive_is_not_zero rt Hrt). cbn [lift and_then].
    left. eexists. split; [reflexivity|]. split; [reflexivity|].
    exists p. cbn. auto.
  - cbn [and_then]. left. eexists. split; [reflexivity|].
    split; [reflexivity|]. exists p. cbn. auto.
Qed.

Lemma for_each_rows m t rt exs :
  aligned m -> (forall ex, In ex exs -> In ex (keys (Speed.prices m))) ->
  (exists rows, for_each (status_row m t rt) exs = Done rows
                /\ map exchange rows = exs
                /\ Forall (shows_quote m t) rows)
  \/ for_each (status_row m t rt) exs = Failed OverflowError.
Proof.
  intros Hal. induction exs as [|ex exs IH]; intros Hin; simpl.
  - left. exists []. auto.
  - destruct (status_row_inv m t rt ex Hal (Hin ex (or_introl eq_refl)))
      as [(r & -> & Hr & Hq)| ->]; cbn [and_then]; [|now right].
    destruct IH as [(rows & -> & Hrows & Hall)| ->]; cbn [and_then];
      [intros x Hx; apply Hin; now right| |now right].
    left. exists (r :: rows). simpl. rewrite Hr, Hrows. auto.
Qed.

Lemma sum_values_cons k v (d : dict Z) :
  sum_values ((k, v) :: d) = (v + sum_values d)%Z.
Proof.
  unfold sum_values. simpl. generalize (map snd d). intros l.
  assert (H : forall a, fold_left Z.add l a = (a + fold_left Z.add l 0)%Z).
  { induction l as [|x l IH]; simpl; intros a; [lia|].
    rewrite (IH (a + x)%Z), (IH x). lia. }
  apply H.
Qed.

Lemma sum_values_setitem (d : dict Z) k :
  sum_values (setitem d k (get d k 0 + 1)%Z) = (sum_values d + 1)%Z.
Proof.
  induction d as [|[k0 v0] d IH].
  - reflexivity.
  - unfold get in *. simpl. destruct (String.eqb k k0) eqn:E.
    + rewrite !sum_values_cons. lia.
    + rewrite !sum_values_cons.
      replace (match getitem d k with Ok v => v | Raise _ => 0%Z end)
        with (get d k 0%Z) by reflexivity.
      unfold get. rewrite IH. lia.
Qed.

Lemma sum_after_updates us : forall m,
  sum_values (Speed.message_counts (apply_updates m us))
  = (sum_values (Speed.message_counts m) + Z.of_nat (List.length us))%Z.
Proof.
  unfold apply_updates. induction us as [|u us IH]; intros m; simpl.
  - lia.
  - rewrite IH. unfold apply_update, Speed.update_price.
    destruct (upd_timestamp u); cbn [fst Speed.message_counts];
      rewrite sum_values_setitem; lia.
Qed.

Lemma max_item_greatest (d : dict Z) k n :
  max_item d = Ok (k, n) ->
  In (k, n) d /\ forall k' n', In (k', n') d -> (n' <= n)%Z.
Proof.
  destruct d as [|x rest]; simpl; [discriminate|].
  intros H. inversion H as [Hfold]; clear H.
  revert x Hfold. induction rest as [|y rest IH]; intros x Hfold; simpl in *.
  - subst x. split; [now left|]. intros k' n' [Heq|[]]. inversion Heq. lia.
  - destruct (Z.ltb_spec (snd x) (snd y)) as [Hlt|Hge].
    + destruct (IH y Hfold) as [Hin Hmax]. split.
      * destruct Hin; [right; now left|right; now right].
      * intros k' n' [Heq|Hin']; [|now apply (Hmax k' n')].
        subst x. simpl in Hlt.
        assert (snd y <= n)%Z
          by (destruct y as [ky ny]; simpl; apply (Hmax ky ny); now left).
        lia.
    + destruct (IH x Hfold) as [Hin Hmax]. split.
      * destruct Hin; [now left|right; now right].
      * intros k' n' [Heq|[Heq|Hin']].
        -- apply (Hmax k' n'). now left.
        -- subst y. simpl in Hge.
           assert (snd x <= n)%Z
             by (destruct x as [kx nx]; simpl; apply (Hmax kx nx); now left).
           lia.
        -- apply (Hmax k' n'). now right.
Qed.

Lemma getitem_item {V : Type} (d : dict V) k v :
  getitem d k = Ok v -> In (k, v) d.
Proof.
  induction d as [|[k0 v0] d IH]; simpl; [discriminate|].
  destruct (String.eqb_spec k k0) as [->|_].
  - intros H. inversion H; subst. now left.
  - intros H. right. now apply IH.
Qed.

Lemma getitem_of_item {V : Type} (d : dict V) k v :
  NoDup (keys d) -> In (k, v) d -> getitem d k = Ok v.
Proof.
  induction d as [|[k0 v0] d IH]; simpl; intros Hnd Hin; [destruct Hin|].
  inversion Hnd as [|? ? Hnotin Hnd']; subst.
  destruct Hin as [Heq|Hin].
  - inversion Heq; subst. now rewrite String.eqb_refl.
  - destruct (String.eqb_spec k k0) as [->|_]; [|now apply IH].
    exfalso. apply Hnotin. apply in_map_iff. exists (k0, v). auto.
Qed.

End Report.

(** For a monitor built by calls of [update_price], [print_status] finds a
    quote and a message count for every exchange it lists: no lookup raises
    [KeyError] and no rate divides by zero.  It prints one line for each
    exchange of the store, in the order of the names, showing the stored
    bid and ask and the age of the quote; the one exception it can raise is
    the [OverflowError] of a count too large for a float. *)
Theorem print_status_lists_every_exchange :
  forall start us current_time,
    let m := apply_updates (Speed.init start) us in
    (exists rows,
        SpeedReport.print_status m current_time = Done rows
        /\ map SpeedReport.exchange rows = sorted (keys (Speed.prices m))
        /\ List.length rows = List.length (Speed.prices m)
        /\ Forall (shows_quote m current_time) rows)
    \/ SpeedReport.print_status m current_time = Failed OverflowError.
Proof.
  intros start us t m.
  assert (Hal : aligned m) by (apply aligned_updates, aligned_init).
  unfold SpeedReport.print_status.
  destruct (for_each_rows m t (t - Speed.start_time m)%float
              (sorted (keys (Speed.prices m))) Hal)
    as [(rows & Hrows & Hmap & Hall)|Hfail].
  - intros ex. apply sorted_in.
  - left. exists rows. repeat split; try assumption.
    rewrite <- (length_map SpeedReport.exchange), Hmap, sorted_length.
    unfold keys. apply length_map.
  - now right.
Qed.

(** The final statistics count the calls of [update_price]: after [n] calls
    on a fresh monitor [total_messages] is [n], and the exchange named the
    fastest has a count no other exchange exceeds.  With no call at all the
    statistics break off before the last line: the rate raises
    [ZeroDivisionError] when no time has passed, and otherwise [max] raises
    [ValueError] on the empty counts. *)
Theorem final_stats_count_the_updates :
  forall start us now,
    let m := apply_updates (Speed.init start) us in
    sum_values (Speed.message_counts m) = Z.of_nat (List.length us)
    /\ (forall s,
           SpeedReport.final_stats m now = Done s ->
           SpeedReport.total_messages s = Z.of_nat (List.length us)
           /\ exists n,
                getitem (Speed.message_counts m) (SpeedReport.fastest s)
                = Ok n
                /\ forall ex n',
                     getitem (Speed.message_counts m) ex = Ok n' ->
                     (n' <= n)%Z)
    /\ (us = [] ->
        SpeedReport.final_stats m now
        = if (now - start =? 0)%float
          then Failed (Builtin ZeroDivisionError)
          else Failed (Builtin ValueError)).
Proof.
  intros start us now m.
  assert (Hsum : sum_values (Speed.message_counts m)
                 = Z.of_nat (List.length us)).
  { subst m. rewrite sum_after_updates. reflexivity. }
  assert (Hal : aligned m) by (apply aligned_updates, aligned_init).
  split; [exact Hsum|]. split.
  - intros s. unfold SpeedReport.final_stats.
    destruct (int_truediv _ _) as [rate|]; cbn [and_then]; [|discriminate].
    destruct (max_item (Speed.message_counts m)) as [[k n]|] eqn:Hmax;
      cbn [lift and_then]; [|discriminate].
    intros H. inversion H; subst s; clear H. cbn.
    split; [exact Hsum|].
    apply max_item_greatest in Hmax as [Hin Hmax].
    destruct Hal as (Hc & _ & Hnd). rewrite <- Hc in Hnd.
    exists n. split; [now apply getitem_of_item|].
    intros ex n' Hex. apply (Hmax ex n'). now apply getitem_item.
  - intros ->. subst m. unfold SpeedReport.final_stats. cbn.
    unfold truediv. destruct (now - start =? 0)%float; reflexivity.
Qed.

(** ** The decodings of the other venues *)

Lemma getitem_missing {V : Type} (d : dict V) k :
  ~ In k (keys d) -> getitem d k = Raise KeyError.
Proof.
  induction d as [|[k0 v0] d IH]; simpl; intros Hnot; [reflexivity|].
  destruct (String.eqb_spec k k0) as [->|_]; [tauto|]. apply IH. tauto.
Qed.

Lemma has_key {V : Type} (d : dict V) k v :
  getitem d k = Ok v -> existsb (String.eqb k) (keys d) = true.
Proof.
  intros H. apply existsb_exists. exists k.
  split; [eapply getitem_keys; eassumption|apply String.eqb_refl].
Qed.

Lemma get_found {V : Type} (d : dict V) k v default :
  getitem d k = Ok v -> get d k default = v.
Proof. intros H. unfold get. now rewrite H. Qed.

Section OtherVenues.

Import Venues.

Variable float_of_string : string -> result float.

Lemma top_of_book_levels pb sb db pa sa da x y :
  float_of_string pb = Ok x -> float_of_string pa = Ok y ->
  top_of_book float_of_string (side pb sb db) (side pa sa da)
  = Done (Some (x, y)).
Proof.
  intros Hx Hy. unfold top_of_book, side. cbn. rewrite Hx. cbn.
  rewrite Hy. reflexivity.
Qed.

Lemma top_of_book_empty bids asks :
  truthy bids && truthy asks = false ->
  top_of_book float_of_string bids asks = Done None.
Proof. intros H. unfold top_of_book. now rewrite H. Qed.

Lemma decode_bybit_book members topic book :
  getitem members "topic" = Ok (JStr topic) ->
  String.prefix "orderbook" topic = true ->
  getitem members "data" = Ok (JDict book) ->
  decode_bybit float_of_string (Json (JDict members))
  = top_of_book float_of_string
      (get book "b" (JList [])) (get book "a" (JList [])).
Proof.
  intros Ht Hp Hd. unfold decode_bybit. cbn [loads lift and_then].
  rewrite (get_found _ _ _ _ Ht). cbn [startswith and_then]. rewrite Hp.
  rewrite (has_key _ _ _ Hd). cbn [andb]. rewrite Hd. reflexivity.
Qed.

Lemma decode_okx_book members arg book more :
  getitem members "arg" = Ok (JDict arg) ->
  getitem arg "channel" = Ok (JStr "books5") ->
  getitem members "data" = Ok (JList (JDict book :: more)) ->
  decode_okx float_of_string (Json (JDict members))
  = top_of_book float_of_string
      (get book "bids" (JList [])) (get book "asks" (JList [])).
Proof.
  intros Ha Hc Hd. unfold decode_okx. cbn [loads lift and_then].
  rewrite (has_key _ _ _ Hd). rewrite (get_found _ _ _ _ Ha).
  cbn [get_method and_then]. rewrite (get_found _ _ _ _ Hc).
  cbn [equals_str]. rewrite String.eqb_refl. rewrite Hd. reflexivity.
Qed.

End OtherVenues.

(** [ArbitrageSpeedMonitor.bybit_feed] reads the top of the book.  A
    message whose topic starts with [orderbook] and whose [data] is an
    object gives the first price of ["b"] as bid and the first price of
    ["a"] as ask, whatever lies deeper in the book, and the monitor then
    holds them under [Bybit]; when a side is missing or empty the message
    is passed over and the monitor is as before.  A message of another
    topic or without one, a subscription reply for instance, is passed over
    too, and none of this raises. *)
Theorem bybit_feed_reads_the_top_of_the_book :
  forall (float_of_string : string -> result float) members,
    (forall topic book,
        getitem members "topic" = Ok (JStr topic) ->
        String.prefix "orderbook" topic = true ->
        getitem members "data" = Ok (JDict book) ->
        (forall pb sb db pa sa da x y m a,
            getitem book "b" = Ok (side pb sb db) ->
            getitem book "a" = Ok (side pa sa da) ->
            float_of_string pb = Ok x ->
            float_of_string pa = Ok y ->
            payload a = Json (JDict members) ->
            Venues.decode_bybit float_of_string (Json (JDict members))
            = Done (Some (x, y))
            /\ getitem
                 (Speed.prices (Venues.on_bybit float_of_string m a)) "Bybit"
               = Ok (Speed.mkPrice x y (readings a 0%nat)))
        /\ (Venues.truthy (get book "b" (JList []))
            && Venues.truthy (get book "a" (JList [])) = false ->
            Venues.decode_bybit float_of_string (Json (JDict members))
            = Done None
            /\ forall m a,
                 payload a = Json (JDict members) ->
                 Venues.on_bybit float_of_string m a = m))
    /\ ((forall topic, getitem members "topic" = Ok topic ->
                       exists s, topic = JStr s
                                 /\ String.prefix "orderbook" s = false) ->
        Venues.decode_bybit float_of_string (Json (JDict members))
        = Done None).
Proof.
  intros fos members. split.
  - intros topic book Ht Hp Hd.
    pose proof (decode_bybit_book fos members topic book Ht Hp Hd) as Hdec.
    split.
    + intros pb sb db pa sa da x y m a Hb Ha Hx Hy Hpay.
      rewrite (get_found _ _ _ _ Hb), (get_found _ _ _ _ Ha) in Hdec.
      rewrite (top_of_book_levels fos _ _ _ _ _ _ x y Hx Hy) in Hdec.
      split; [exact Hdec|].
      unfold Venues.on_bybit, Venues.speed_on_message. rewrite Hpay, Hdec.
      unfold Speed.update_price. cbn [fst Speed.prices].
      apply getitem_setitem_same.
    + intros Hempty. rewrite (top_of_book_empty fos _ _ Hempty) in Hdec.
      split; [exact Hdec|]. intros m a Hpay.
      unfold Venues.on_bybit, Venues.speed_on_message.
      now rewrite Hpay, Hdec.
  - intros Htopic. unfold Venues.decode_bybit. cbn [loads lift and_then].
    unfold get. destruct (getitem members "topic") as [topic|] eqn:Ht.
    + destruct (Htopic topic eq_refl) as (s & -> & Hp).
      cbn [Venues.startswith and_then]. now rewrite Hp.
    + reflexivity.
Qed.

Lemma bybit_feed_reads_the_top_of_the_book_witness :
  Venues.decode_bybit float_of_decimal (Json (JDict bybit_book_A))
  = Done (Some (100.00, 100.10)%float).
Proof.
  refine (proj1 (proj1 (proj1 (bybit_feed_reads_the_top_of_the_book
                           float_of_decimal bybit_book_A)
                         "orderbook.1.BTCUSDT"
                         [("b", side "100.00" [JStr "1"] []);
                          ("a", side "100.10" [JStr "2"] [])] _ _ _)
                  "100.00" [JStr "1"] [] "100.10" [JStr "2"] []
                  100.00%float 100.10%float (Speed.init 0)
                  (arrive (Json (JDict bybit_book_A))) _ _ _ _ _)).
  all: vm_compute; reflexivity.
Defined.

(** [ArbitrageSpeedMonitor.okx_feed] reads the top of the first book of a
    [books5] message: the first price of ["bids"] and the first price of
    ["asks"], which the monitor then holds under [OKX]; when a side is
    missing or empty the message is passed over.  A message without [data],
    or whose channel is not [books5], is passed over, and one with an empty
    [data] list as well. *)
Theorem okx_feed_reads_the_top_of_the_book :
  forall (float_of_string : string -> result float) members,
    (forall arg book more,
        getitem members "arg" = Ok (JDict arg) ->
        getitem arg "channel" = Ok (JStr "books5") ->
        getitem members "data" = Ok (JList (JDict book :: more)) ->
        (forall pb sb db pa sa da x y m a,
            getitem book "bids" = Ok (side pb sb db) ->
            getitem book "asks" = Ok (side pa sa da) ->
            float_of_string pb = Ok x ->
            float_of_string pa = Ok y ->
            payload a = Json (JDict members) ->
            Venues.decode_okx float_of_string (Json (JDict members))
            = Done (Some (x, y))
            /\ getitem
                 (Speed.prices (Venues.on_okx float_of_string m a)) "OKX"
               = Ok (Speed.mkPrice x y (readings a 0%nat)))
        /\ (Venues.truthy (get book "bids" (JList []))
            && Venues.truthy (get book "asks" (JList [])) = false ->
            Venues.decode_okx float_of_string (Json (JDict members))
            = Done None))
    /\ (~ In "data" (keys members) ->
        Venues.decode_okx float_of_string (Json (JDict members)) = Done None)
    /\ (forall arg channel,
        getitem members "arg" = Ok (JDict arg) ->
        getitem arg "channel" = Ok (JStr channel) ->
        channel <> "books5" ->
        Venues.decode_okx float_of_string (Json (JDict members)) = Done None)
    /\ (forall arg,
        getitem members "arg" = Ok (JDict arg) ->
        getitem arg "channel" = Ok (JStr "books5") ->
        getitem members "data" = Ok (JList []) ->
        Venues.decode_okx float_of_string (Json (JDict members)) = Done None).
Proof.
  intros fos members. split; [|split; [|split]].
  - intros arg book more Harg Hch Hd.
    pose proof (decode_okx_book fos members arg book more Harg Hch Hd)
      as Hdec.
    split.
    + intros pb sb db pa sa da x y m a Hb Ha Hx Hy Hpay.
      rewrite (get_found _ _ _ _ Hb), (get_found _ _ _ _ Ha) in Hdec.
      rewrite (top_of_book_levels fos _ _ _ _ _ _ x y Hx Hy) in Hdec.
      split; [exact Hdec|].
      unfold Venues.on_okx, Venues.speed_on_message. rewrite Hpay, Hdec.
      unfold Speed.update_price. cbn [fst Speed.prices].
      apply getitem_setitem_same.
    + intros Hempty. now rewrite (top_of_book_empty fos _ _ Hempty) in Hdec.
  - intros Hnot. unfold Venues.decode_okx. cbn [loads lift and_then].
    destruct (existsb (String.eqb "data") (keys members)) eqn:E;
      [|reflexivity].
    apply existsb_exists in E as (k & Hin & Heq).
    apply String.eqb_eq in Heq. subst k. contradiction.
  - intros arg channel Harg Hch Hne.
    unfold Venues.decode_okx. cbn [loads lift and_then].
    destruct (existsb (String.eqb "data") (keys members)); [|reflexivity].
    rewrite (get_found _ _ _ _ Harg). cbn [Venues.get_method and_then].
    rewrite (get_found _ _ _ _ Hch). cbn [Venues.equals_str].
    now rewrite (proj2 (String.eqb_neq _ _) Hne).
  - intros arg Harg Hch Hd.
    unfold Venues.decode_okx. cbn [loads lift and_then].
    rewrite (has_key _ _ _ Hd), (get_found _ _ _ _ Harg).
    cbn [Venues.get_method and_then]. rewrite (get_found _ _ _ _ Hch).
    cbn [Venues.equals_str]. rewrite String.eqb_refl, Hd. reflexivity.
Qed.

Lemma okx_feed_reads_the_top_of_the_book_witness :
  Venues.decode_okx float_of_decimal (Json (JDict okx_book_A))
  = Done (Some (100.00, 100.10)%float).
Proof.
  refine (proj1 (proj1 (proj1 (okx_feed_reads_the_top_of_the_book
                           float_of_decimal okx_book_A)
                         [("channel", JStr "books5");
                          ("instId", JStr "BTC-USDT")]
                         [("asks",
                           side "100.10" [JStr "2"; JStr "0"; JStr "1"] []);
                          ("bids",
                           side "100.00" [JStr "1"; JStr "0"; JStr "3"] [])]
                         [] _ _ _)
                  "100.00" [JStr "1"; JStr "0"; JStr "3"] []
                  "100.10" [JStr "2"; JStr "0"; JStr "1"] []
                  100.00%float 100.10%float (Speed.init 0)
                  (arrive (Json (JDict okx_book_A))) _ _ _ _ _)).
  all: vm_compute; reflexivity.
Defined.

(** ** [FreeArbitrageMonitor.monitor_coinbase] *)

(** The Coinbase feed takes a message whose [type] is [ticker] and that has
    a [best_bid]: it stores [float] of [best_bid] and of [best_ask] under
    [coinbase].  A message of another type, or a ticker without
    [best_bid], is passed over and the feed goes on.  A ticker with a
    [best_bid] and no [best_ask] raises [KeyError], and a message that is
    not a JSON object raises [AttributeError]: either ends the receive loop
    with the monitor as it was. *)
Theorem coinbase_feed_takes_tickers :
  forall (float_of_string : string -> result float) (m : Free.monitor)
         (a : arrival),
    (forall members sb sa x y,
        payload a = Json (JDict members) ->
        getitem members "type" = Ok (JStr "ticker") ->
        getitem members "best_bid" = Ok (JStr sb) ->
        getitem members "best_ask" = Ok (JStr sa) ->
        float_of_string sb = Ok x ->
        float_of_string sa = Ok y ->
        getitem
          (Free.prices (fst (Venues.on_coinbase float_of_string m a)))
          "coinbase"
        = Ok (Free.mkPrice x y (readings a 2%nat)
                ((readings a 1%nat - readings a 0%nat) * 1000)%float))
    /\ (forall members,
        payload a = Json (JDict members) ->
        (forall t, getitem members "type" = Ok t -> t <> JStr "ticker")
        \/ ~ In "best_bid" (keys members) ->
        Venues.on_coinbase float_of_string m a = (m, Continue))
    /\ (forall members sb x,
        payload a = Json (JDict members) ->
        getitem members "type" = Ok (JStr "ticker") ->
        getitem members "best_bid" = Ok (JStr sb) ->
        float_of_string sb = Ok x ->
        ~ In "best_ask" (keys members) ->
        Venues.decode_coinbase float_of_string (payload a)
        = Failed (Builtin KeyError)
        /\ Venues.on_coinbase float_of_string m a = (m, Break))
    /\ (forall data,
        payload a = Json data ->
        (forall members, data <> JDict members) ->
        Venues.decode_coinbase float_of_string (payload a)
        = Failed AttributeError
        /\ Venues.on_coinbase float_of_string m a = (m, Break)).
Proof.
  intros fos m a. split; [|split; [|split]].
  - intros members sb sa x y Hpay Ht Hb Ha Hx Hy.
    assert (Hdec : Venues.decode_coinbase fos (payload a)
                   = Done (Some (x, y))).
    { rewrite Hpay. unfold Venues.decode_coinbase.
      cbn [loads lift and_then Venues.get_method].
      rewrite (get_found _ _ _ _ Ht). cbn [Venues.equals_str].
      rewrite String.eqb_refl. rewrite (contains_member _ _ _ Hb).
      cbn [lift and_then subscript]. rewrite Hb. cbn [lift and_then to_float].
      rewrite Hx. cbn [lift and_then]. rewrite Ha.
      cbn [lift and_then to_float]. rewrite Hy. reflexivity. }
    unfold Venues.on_coinbase. rewrite Hdec.
    match goal with
    | |- context [Free.check_arbitrage ?m1 ?t ?s] =>
        destruct (Free.check_arbitrage m1 t s) as [m2|e] eqn:Hcheck
    end; cbn [fst].
    + rewrite (free_check_prices _ _ _ _ Hcheck). cbn [Free.prices].
      apply getitem_setitem_same.
    + cbn [Free.prices]. apply getitem_setitem_same.
  - intros members Hpay Hskip.
    assert (Hdec : Venues.decode_coinbase fos (payload a) = Done None).
    { rewrite Hpay. unfold Venues.decode_coinbase.
      cbn [loads lift and_then Venues.get_method].
      destruct (Venues.equals_str (get members "type" JNull) "ticker")
        eqn:Heq; [|reflexivity].
      destruct Hskip as [Hty|Hbid].
      - exfalso. unfold get in Heq.
        destruct (getitem members "type") as [t|] eqn:Ht;
          [|discriminate].
        destruct t; try discriminate. simpl in Heq.
        apply String.eqb_eq in Heq. subst. now apply (Hty _ eq_refl).
      - cbn [contains lift and_then].
        destruct (existsb (String.eqb "best_bid") (keys members)) eqn:E;
          [|reflexivity].
        apply existsb_exists in E as (k & Hin & Hk).
        apply String.eqb_eq in Hk. subst k. contradiction. }
    unfold Venues.on_coinbase. now rewrite Hdec.
  - intros members sb x Hpay Ht Hb Hx Hnot.
    assert (Hdec : Venues.decode_coinbase fos (payload a)
                   = Failed (Builtin KeyError)).
    { rewrite Hpay. unfold Venues.decode_coinbase.
      cbn [loads lift and_then Venues.get_method].
      rewrite (get_found _ _ _ _ Ht). cbn [Venues.equals_str].
      rewrite String.eqb_refl. rewrite (contains_member _ _ _ Hb).
      cbn [lift and_then subscript]. rewrite Hb. cbn [lift and_then to_float].
      rewrite Hx. cbn [lift and_then].
      now rewrite (getitem_missing _ _ Hnot). }
    split; [exact Hdec|]. unfold Venues.on_coinbase. now rewrite Hdec.
  - intros data Hpay Hnot.
    assert (Hdec : Venues.decode_coinbase fos (payload a)
                   = Failed AttributeError).
    { rewrite Hpay. unfold Venues.decode_coinbase.
      cbn [loads lift and_then].
      destruct data; try reflexivity. now destruct (Hnot members). }
    split; [exact Hdec|]. unfold Venues.on_coinbase. now rewrite Hdec.
Qed.

Lemma coinbase_feed_takes_tickers_witness :
  Venues.decode_coinbase float_of_decimal
    (payload (arrive (Json (JDict coinbase_ticker_no_ask))))
  = Failed (Builtin KeyError)
  /\ Venues.on_coinbase float_of_decimal Free.init
       (arrive (Json (JDict coinbase_ticker_no_ask)))
     = (Free.init, Break).
Proof.
  refine (proj1 (proj2 (proj2 (coinbase_feed_takes_tickers float_of_decimal
                                 Free.init
                                 (arrive (Json (JDict coinbase_ticker_no_ask))))))
            coinbase_ticker_no_ask "100.00" 100.00%float _ _ _ _ _).
  - reflexivity.
  - reflexivity.
  - reflexivity.
  - vm_compute. reflexivity.
  - simpl. intuition discriminate.
Defined.

(** ** What [FreeArbitrageMonitor.check_arbitrage] records and raises *)

Section FreeRecords.

Lemma active_exchanges_of ps now ex p :
  getitem ps ex = Ok p -> Free.active now p = true ->
  In ex (Free.active_exchanges ps now).
Proof.
  intros Hp Hact. unfold Free.active_exchanges. apply in_map_iff.
  exists (ex, p). split; [reflexivity|]. apply filter_In.
  split; [now apply getitem_item|assumption].
Qed.

Lemma active_exchanges_keys ps now ex :
  In ex (Free.active_exchanges ps now) -> In ex (keys ps).
Proof.
  unfold Free.active_exchanges, keys. rewrite !in_map_iff.
  intros ([k p] & Hk & Hin). apply filter_In in Hin as [Hin _].
  exists (k, p). auto.
Qed.

Lemma fold_pick_in (lt : float -> float -> bool) (xs : list float) :
  forall best,
    In (fold_left (fun b y => if lt b y then y else b) xs best) (best :: xs).
Proof.
  induction xs as [|y xs IH]; intros best; simpl; [now left|].
  destruct (lt best y).
  - destruct (IH y) as [H|H]; [right; left; exact H|right; right; exact H].
  - destruct (IH best) as [H|H]; [left; exact H|right; right; exact H].
Qed.

Lemma max_float_in xs best : max_float xs = Ok best -> In best xs.
Proof.
  destruct xs as [|x xs]; simpl; [discriminate|].
  intros H. inversion H. apply (fold_pick_in PrimFloat.ltb).
Qed.

Lemma min_float_in xs best : min_float xs = Ok best -> In best xs.
Proof.
  destruct xs as [|x xs]; simpl; [discriminate|].
  intros H. inversion H. apply (fold_pick_in (fun b y => PrimFloat.ltb y b)).
Qed.

Lemma traverse_field (field : Free.price -> float) ps act :
  (forall ex, In ex act -> In ex (keys ps)) ->
  exists xs,
    traverse (fun ex => p <- getitem ps ex ;; Ok (field p)) act = Ok xs
    /\ List.length xs = List.length act
    /\ forall x, In x xs ->
         exists ex p, In ex act /\ getitem ps ex = Ok p /\ field p = x.
Proof.
  induction act as [|ex act IH]; intros Hkeys; simpl.
  - exists []. repeat split. intros x [].
  - destruct (getitem_in_keys ps ex (Hkeys ex (or_introl eq_refl)))
      as [p Hp].
    destruct IH as (xs & Hxs & Hlen & Hall);
      [intros y Hy; apply Hkeys; now right|].
    rewrite Hp. cbn [bind]. rewrite Hxs. cbn [bind].
    exists (field p :: xs). split; [reflexivity|].
    split; [simpl; congruence|].
    intros x [<-|Hx].
    + exists ex, p. auto.
    + destruct (Hall x Hx) as (ex' & p' & Hin & Hp' & Hf).
      exists ex', p'. auto.
Qed.

Lemma next_raises {A : Type} (p : A -> result bool) xs e :
  next p xs = Raise e ->
  (exists x, In x xs /\ p x = Raise e)
  \/ (e = StopIteration /\ forall x, In x xs -> p x = Ok false).
Proof.
  induction xs as [|x xs IH]; simpl.
  - intros H. inversion H. right. split; [reflexivity|]. intros x [].
  - destruct (p x) as [[|]|e'] eqn:Hp; cbn [bind].
    + discriminate.
    + intros H. destruct (IH H) as [(y & Hy & Hpy)|[-> Hall]].
      * left. exists y. auto.
      * right. split; [reflexivity|]. intros y [<-|Hy]; auto.
    + intros H. inversion H; subst. left. exists x. auto.
Qed.

(** [best_prices] raises only [StopIteration], and only when the best bid
    or the best ask is a NaN, which no quote equals. *)
Lemma best_prices_raises ps act e :
  (forall ex, In ex act -> In ex (keys ps)) ->
  act <> [] ->
  Free.best_prices ps act = Raise e ->
  e = StopIteration
  /\ exists ex p,
       In ex act /\ getitem ps ex = Ok p
       /\ ((Free.bid p =? Free.bid p)%float = false
           \/ (Free.ask p =? Free.ask p)%float = false).
Proof.
  intros Hkeys Hne. unfold Free.best_prices.
  destruct (traverse_field Free.bid ps act Hkeys) as (bids & -> & Hlb & Hbids).
  destruct (traverse_field Free.ask ps act Hkeys) as (asks & -> & Hla & Hasks).
  cbn [bind].
  destruct (max_float bids) as [bb|] eqn:Hbb;
    [|destruct bids; [destruct act; [congruence|discriminate]|discriminate]].
  destruct (min_float asks) as [ba|] eqn:Hba;
    [|destruct asks; [destruct act; [congruence|discriminate]|discriminate]].
  cbn [bind].
  assert (Hpred : forall (field : Free.price -> float) best e' xs,
             (forall x, In x xs ->
                          exists ex p, In ex act /\ getitem ps ex = Ok p
                                       /\ field p = x) ->
             In best xs ->
             next (fun ex => p <- getitem ps ex ;;
                             Ok (field p =? best)%float) act = Raise e' ->
             e' = StopIteration
             /\ exists ex p, In ex act /\ getitem ps ex = Ok p
                             /\ (field p =? field p)%float = false).
  { intros field best e' xs Hxs Hbest Hnext.
    apply next_raises in Hnext as [(ex & Hex & Hraise)|[-> Hall]].
    - exfalso. destruct (getitem_in_keys ps ex (Hkeys ex Hex)) as [p Hp].
      rewrite Hp in Hraise. discriminate.
    - split; [reflexivity|].
      destruct (Hxs best Hbest) as (ex & p & Hex & Hp & Hf).
      exists ex, p. split; [assumption|]. split; [assumption|].
      pose proof (Hall ex Hex) as Hfalse. rewrite Hp in Hfalse.
      cbn [bind] in Hfalse. rewrite <- Hf in Hfalse.
      now injection Hfalse. }
  destruct (next _ act) as [be|e1] eqn:Hbe; cbn [bind].
  - destruct (next _ act) as [ae|e2] eqn:Hae in |- *; cbn [bind];
      [discriminate|].
    intros H. inversion H; subst e2.
    destruct (Hpred Free.ask ba e asks Hasks
                (min_float_in _ _ Hba) Hae)
      as (-> & ex & p & Hex & Hp & Hnan).
    split; [reflexivity|]. exists ex, p. auto.
  - intros H. inversion H; subst e1.
    destruct (Hpred Free.bid bb e bids Hbids
                (max_float_in _ _ Hbb) Hbe)
      as (-> & ex & p & Hex & Hp & Hnan).
    split; [reflexivity|]. exists ex, p. auto.
Qed.

End FreeRecords.

(** A pass of [FreeArbitrageMonitor.check_arbitrage] that returns either
    changes nothing or appends one opportunity and counts it.  The
    opportunity is between two different active exchanges, buys at the ask
    of the one and sells at the bid of the other, sells above what it buys
    at, and has a percentage above 0.01; no active exchange asks less than
    its buying price or bids more than its selling price. *)
Theorem free_recorded_opportunity_is_the_best_spread :
  forall m now stamp m',
    NoDup (keys (Free.prices m)) ->
    Free.check_arbitrage m now stamp = Ok m' ->
    m' = m
    \/ exists o,
         m' = Free.mkMonitor (Free.prices m)
                (Free.deque_append (Free.arbitrage_opportunities m) o)
                (Free.total_opportunities m + 1)
         /\ Free.opp_time o = stamp
         /\ Free.buy_exchange o <> Free.sell_exchange o
         /\ (Free.buy_price o <? Free.sell_price o)%float = true
         /\ Free.profit_usd o
            = (Free.sell_price o - Free.buy_price o)%float
         /\ Free.profit_percent o
            = (Free.profit_usd o / Free.buy_price o * 100)%float
         /\ (0.01 <? Free.profit_percent o)%float = true
         /\ quotes_active_best m now o.
Proof.
  intros m now stamp m' Hnd Hcheck.
  apply free_check_inv in Hcheck
    as [[_ ->]|(s & _ & Hs & [(Hcross & Hgt & pa & pb & Ha & Hb & ->)|[_ ->]])];
    auto.
  right. eexists. split; [reflexivity|].
  unfold crossing in Hcross. apply andb_true_iff in Hcross as [Hlt Hnames].
  apply negb_true_iff, String.eqb_neq in Hnames.
  destruct (best_prices_extremal _ _ _ Hs)
    as (Hext & Hbin & Hain & (qb & Hqb & Hqbe) & (qa & Hqa & Hqae)).
  rewrite Hb in Hqb. rewrite Ha in Hqa.
  inversion Hqb; subst qb. inversion Hqa; subst qa.
  destruct (active_exchanges_in _ _ _ Hnd Hbin) as (pb' & Hpb' & Hactb).
  destruct (active_exchanges_in _ _ _ Hnd Hain) as (pa' & Hpa' & Hacta).
  rewrite Hb in Hpb'. rewrite Ha in Hpa'.
  inversion Hpb'; subst pb'. inversion Hpa'; subst pa'.
  cbn. repeat split; try assumption; try congruence.
  exists pa, pb. cbn. repeat split; try assumption.
  - apply (Hext ex p); [eapply active_exchanges_of; eassumption|assumption].
  - apply (Hext ex p); [eapply active_exchanges_of; eassumption|assumption].
Qed.

Lemma free_recorded_opportunity_is_the_best_spread_witness :
  Free.mkMonitor (free_store_AB 10 0 10 0 (Free.mkPrice 0 0 0 0))
    [free_A_to_B "12:00:00.000" 0 0] 1
  = Free.mkMonitor (free_store_AB 10 0 10 0 (Free.mkPrice 0 0 0 0)) [] 0
  \/ exists o,
       Free.mkMonitor (free_store_AB 10 0 10 0 (Free.mkPrice 0 0 0 0))
         [free_A_to_B "12:00:00.000" 0 0] 1
       = Free.mkMonitor (free_store_AB 10 0 10 0 (Free.mkPrice 0 0 0 0))
           (Free.deque_append [] o) (0 + 1)
       /\ Free.opp_time o = "12:00:00.000"
       /\ Free.buy_exchange o <> Free.sell_exchange o
       /\ (Free.buy_price o <? Free.sell_price o)%float = true
       /\ Free.profit_usd o = (Free.sell_price o - Free.buy_price o)%float
       /\ Free.profit_percent o
          = (Free.profit_usd o / Free.buy_price o * 100)%float
       /\ (0.01 <? Free.profit_percent o)%float = true
       /\ quotes_active_best
            (Free.mkMonitor (free_store_AB 10 0 10 0 (Free.mkPrice 0 0 0 0))
               [] 0) 10.5 o.
Proof.
  apply (free_recorded_opportunity_is_the_best_spread
           (Free.mkMonitor (free_store_AB 10 0 10 0 (Free.mkPrice 0 0 0 0))
              [] 0) 10.5%float "12:00:00.000").
  - simpl. repeat constructor; simpl; intuition discriminate.
  - vm_compute. reflexivity.
Defined.

Lemma keys_setitem_present {V : Type} (d : dict V) k v :
  In k (keys d) -> keys (setitem d k v) = keys d.
Proof.
  induction d as [|[k0 v0] d IH]; simpl; [intros []|].
  destruct (String.eqb_spec k k0) as [->|Hne]; [reflexivity|].
  intros [Heq|Hin]; [congruence|]. simpl. f_equal. now apply IH.
Qed.

(** A pass of [FreeArbitrageMonitor.check_arbitrage] raises in two cases
    only: [ZeroDivisionError], when the spread it found crosses between two
    exchanges and its best ask is zero, and [StopIteration], when the price
    of an active exchange is a NaN.  No lookup fails and [max] and [min]
    are never given an empty list. *)
Theorem free_pass_raises_on_zero_ask_or_nan :
  forall m now stamp e,
    NoDup (keys (Free.prices m)) ->
    Free.check_arbitrage m now stamp = Raise e ->
    (e = ZeroDivisionError
     /\ exists s,
          Free.best_prices (Free.prices m)
            (Free.active_exchanges (Free.prices m) now) = Ok s
          /\ crossing s = true
          /\ (Free.best_ask s =? 0)%float = true)
    \/ (e = StopIteration
        /\ exists ex p,
             getitem (Free.prices m) ex = Ok p
             /\ Free.active now p = true
             /\ ((Free.bid p =? Free.bid p)%float = false
                 \/ (Free.ask p =? Free.ask p)%float = false)).
Proof.
  intros m now stamp e Hnd. unfold Free.check_arbitrage.
  set (act := Free.active_exchanges (Free.prices m) now).
  destruct (Nat.ltb_spec (List.length act) 2) as [Hlt|Hge]; [discriminate|].
  assert (Hkeys : forall ex, In ex act -> In ex (keys (Free.prices m)))
    by (intros ex; apply active_exchanges_keys).
  destruct (Free.best_prices (Free.prices m) act) as [s|e'] eqn:Hs;
    cbn [bind].
  - fold (crossing s). destruct (crossing s) eqn:Hc; [|discriminate].
    unfold truediv. destruct (Free.best_ask s =? 0)%float eqn:Hz;
      cbn [bind].
    + intros H. inversion H; subst e. left. split; [reflexivity|].
      exists s. auto.
    + destruct (0.01 <? _)%float; [|discriminate].
      destruct (best_prices_active _ _ _ Hs) as [Hbin Hain].
      destruct (getitem_in_keys _ _ (Hkeys _ Hain)) as [pa ->].
      destruct (getitem_in_keys _ _ (Hkeys _ Hbin)) as [pb ->].
      discriminate.
  - intros H. inversion H; subst e'. right.
    assert (Hne : act <> [])
      by (destruct act; simpl in Hge; [lia|discriminate]).
    destruct (best_prices_raises _ _ _ Hkeys Hne Hs)
      as (-> & ex & p & Hex & Hp & Hnan).
    split; [reflexivity|].
    destruct (active_exchanges_in _ _ _ Hnd Hex) as (q & Hq & Hact).
    rewrite Hp in Hq. inversion Hq; subst q.
    exists ex, p. auto.
Qed.

Lemma free_pass_raises_on_zero_ask_or_nan_witness :
  (ZeroDivisionError = ZeroDivisionError
   /\ exists s,
        Free.best_prices (Free.prices free_monitor_zero_ask)
          (Free.active_exchanges (Free.prices free_monitor_zero_ask) 10.5)
        = Ok s
        /\ crossing s = true
        /\ (Free.best_ask s =? 0)%float = true)
  \/ (ZeroDivisionError = StopIteration
      /\ exists ex p,
           getitem (Free.prices free_monitor_zero_ask) ex = Ok p
           /\ Free.active 10.5 p = true
           /\ ((Free.bid p =? Free.bid p)%float = false
               \/ (Free.ask p =? Free.ask p)%float = false)).
Proof.
  apply (free_pass_raises_on_zero_ask_or_nan free_monitor_zero_ask
           10.5%float "12:00:00.000" ZeroDivisionError).
  - simpl. repeat constructor; simpl; intuition discriminate.
  - vm_compute. reflexivity.
Defined.

(** ** The store of [FreeArbitrageMonitor] *)

Section FreeStore.

Variable float_of_string : string -> result float.

Lemma free_binance_keeps_keys m a :
  keys (Free.prices m) = free_exchanges ->
  keys (Free.prices (fst (FreeFeed.on_message float_of_string m a)))
  = free_exchanges.
Proof.
  intros Hk. unfold FreeFeed.on_message.
  destruct (decode_book_ticker float_of_string (payload a))
    as [[[bid ask]|]|]; cbn [fst]; try assumption.
  match goal with
  | |- context [Free.check_arbitrage ?m1 ?t ?s] =>
      destruct (Free.check_arbitrage m1 t s) as [m2|e] eqn:Hcheck
  end; cbn [fst]; rewrite ?(free_check_prices _ _ _ _ Hcheck);
    cbn [Free.prices]; rewrite keys_setitem_present; try assumption;
    rewrite Hk; simpl; auto.
Qed.

Lemma free_coinbase_keeps_keys m a :
  keys (Free.prices m) = free_exchanges ->
  keys (Free.prices (fst (Venues.on_coinbase float_of_string m a)))
  = free_exchanges.
Proof.
  intros Hk. unfold Venues.on_coinbase.
  destruct (Venues.decode_coinbase float_of_string (payload a))
    as [[[bid ask]|]|]; cbn [fst]; try assumption.
  match goal with
  | |- context [Free.check_arbitrage ?m1 ?t ?s] =>
      destruct (Free.check_arbitrage m1 t s) as [m2|e] eqn:Hcheck
  end; cbn [fst]; rewrite ?(free_check_prices _ _ _ _ Hcheck);
    cbn [Free.prices]; rewrite keys_setitem_present; try assumption;
    rewrite Hk; simpl; auto.
Qed.

Lemma free_binance_writes_binance m a ex :
  ex <> "binance" ->
  getitem (Free.prices (fst (FreeFeed.on_message float_of_string m a))) ex
  = getitem (Free.prices m) ex.
Proof.
  intros Hne. unfold FreeFeed.on_message.
  destruct (decode_book_ticker float_of_string (payload a))
    as [[[bid ask]|]|]; cbn [fst]; try reflexivity.
  match goal with
  | |- context [Free.check_arbitrage ?m1 ?t ?s] =>
      destruct (Free.check_arbitrage m1 t s) as [m2|e] eqn:Hcheck
  end; cbn [fst]; rewrite ?(free_check_prices _ _ _ _ Hcheck);
    cbn [Free.prices]; now apply getitem_setitem_other.
Qed.

Lemma free_coinbase_writes_coinbase m a ex :
  ex <> "coinbase" ->
  getitem (Free.prices (fst (Venues.on_coinbase float_of_string m a))) ex
  = getitem (Free.prices m) ex.
Proof.
  intros Hne. unfold Venues.on_coinbase.
  destruct (Venues.decode_coinbase float_of_string (payload a))
    as [[[bid ask]|]|]; cbn [fst]; try reflexivity.
  match goal with
  | |- context [Free.check_arbitrage ?m1 ?t ?s] =>
      destruct (Free.check_arbitrage m1 t s) as [m2|e] eqn:Hcheck
  end; cbn [fst]; rewrite ?(free_check_prices _ _ _ _ Hcheck);
    cbn [Free.prices]; now apply getitem_setitem_other.
Qed.

Lemma free_bybit_keeps_keys m h :
  keys (Free.prices m) = free_exchanges ->
  keys (Free.prices (fst (FreeBybit.on_message float_of_string m h)))
  = free_exchanges.
Proof.
  intros Hk. unfold FreeBybit.on_message.
  destruct (FreeBybit.decode float_of_string h)
    as [[[bid ask]|]|]; cbn [fst]; try assumption.
  match goal with
  | |- context [Free.check_arbitrage ?m1 ?t ?s] =>
      destruct (Free.check_arbitrage m1 t s) as [m2|e] eqn:Hcheck
  end; cbn [fst]; rewrite ?(free_check_prices _ _ _ _ Hcheck);
    cbn [Free.prices]; rewrite keys_setitem_present; try assumption;
    rewrite Hk; simpl; auto.
Qed.

Lemma free_bybit_writes_bybit m h ex :
  ex <> "bybit" ->
  getitem (Free.prices (fst (FreeBybit.on_message float_of_string m h))) ex
  = getitem (Free.prices m) ex.
Proof.
  intros Hne. unfold FreeBybit.on_message.
  destruct (FreeBybit.decode float_of_string h)
    as [[[bid ask]|]|]; cbn [fst]; try reflexivity.
  match goal with
  | |- context [Free.check_arbitrage ?m1 ?t ?s] =>
      destruct (Free.check_arbitrage m1 t s) as [m2|e] eqn:Hcheck
  end; cbn [fst]; rewrite ?(free_check_prices _ _ _ _ Hcheck);
    cbn [Free.prices]; now apply getitem_setitem_other.
Qed.

End FreeStore.

(** Each of the three feeds of [FreeArbitrageMonitor] writes its own entry
    of the store and no other, and the store keeps its three exchanges in
    their order whatever frame a feed handles; so a pass never compares more
    than three exchanges. *)
Theorem free_feeds_write_their_own_entry :
  forall (float_of_string : string -> result float),
    (forall events,
        keys (Free.prices
                (FreeFeed.monitor
                   (FreeFeed.run float_of_string FreeFeed.start events)))
        = free_exchanges)
    /\ (forall m a,
        keys (Free.prices m) = free_exchanges ->
        keys (Free.prices (fst (FreeFeed.on_message float_of_string m a)))
        = free_exchanges
        /\ keys (Free.prices (fst (Venues.on_coinbase float_of_string m a)))
           = free_exchanges)
    /\ (forall m h,
        keys (Free.prices m) = free_exchanges ->
        keys (Free.prices (fst (FreeBybit.on_message float_of_string m h)))
        = free_exchanges)
    /\ (forall m a ex,
        ex <> "binance" ->
        getitem
          (Free.prices (fst (FreeFeed.on_message float_of_string m a))) ex
        = getitem (Free.prices m) ex)
    /\ (forall m a ex,
        ex <> "coinbase" ->
        getitem
          (Free.prices (fst (Venues.on_coinbase float_of_string m a))) ex
        = getitem (Free.prices m) ex)
    /\ (forall m h ex,
        ex <> "bybit" ->
        getitem
          (Free.prices (fst (FreeBybit.on_message float_of_string m h))) ex
        = getitem (Free.prices m) ex)
    /\ (forall m now,
        keys (Free.prices m) = free_exchanges ->
        (List.length (Free.active_exchanges (Free.prices m) now) <= 3)%nat).
Proof.
  intros fos. repeat split.
  - intros events.
    assert (H : forall f,
               keys (Free.prices (FreeFeed.monitor f)) = free_exchanges ->
               keys (Free.prices
                       (FreeFeed.monitor (FreeFeed.run fos f events)))
               = free_exchanges).
    { unfold FreeFeed.run. induction events as [|e events IH]; simpl;
        intros f Hf; [assumption|].
      apply IH. unfold FreeFeed.step.
      destruct (FreeFeed.state f), e; cbn [FreeFeed.monitor]; try assumption.
      pose proof (free_binance_keeps_keys fos (FreeFeed.monitor f) a Hf)
        as Hmsg.
      destruct (FreeFeed.on_message fos (FreeFeed.monitor f) a) as [m []];
        exact Hmsg. }
    apply H. reflexivity.
  - now apply free_binance_keeps_keys.
  - now apply free_coinbase_keeps_keys.
  - intros m h Hk. now apply free_bybit_keeps_keys.
  - intros m a ex. apply free_binance_writes_binance.
  - intros m a ex. apply free_coinbase_writes_coinbase.
  - intros m h ex. apply free_bybit_writes_bybit.
  - intros m now Hk. unfold Free.active_exchanges. rewrite length_map.
    etransitivity; [apply filter_length_le|].
    replace (List.length (Free.prices m))
      with (List.length (keys (Free.prices m)))
      by (unfold keys; apply length_map).
    rewrite Hk. simpl. lia.
Qed.

Lemma free_feeds_write_their_own_entry_witness :
  getitem
    (Free.prices
       (fst (Venues.on_coinbase float_of_decimal free_monitor_aged
               (arrive (Json (JDict coinbase_ticker_no_ask))))))
    "binance"
  = getitem (Free.prices free_monitor_aged) "binance".
Proof.
  apply (free_feeds_write_their_own_entry float_of_decimal).
  discriminate.
Defined.

(** ** The three feeds of [ArbitrageSpeedMonitor] on one monitor *)

Section ThreeFeeds.

Variable float_of_string : string -> result float.

Lemma handle_frame_is_update m va :
  handle_frame float_of_string m va
  = match quote_of float_of_string (fst va) (payload (snd va)) with
    | Some (bid, ask) =>
        apply_update m
          (mkUpdate (venue_name (fst va)) bid ask None (readings (snd va)))
    | None => m
    end.
Proof.
  destruct va as [[| |] a]; unfold handle_frame, quote_of; cbn [fst snd].
  - unfold SpeedFeed.on_message.
    destruct (decode_book_ticker float_of_string (payload a))
      as [[[bid ask]|]|]; reflexivity.
  - unfold Venues.on_bybit, Venues.speed_on_message.
    destruct (Venues.decode_bybit float_of_string (payload a))
      as [[[bid ask]|]|]; reflexivity.
  - unfold Venues.on_okx, Venues.speed_on_message.
    destruct (Venues.decode_okx float_of_string (payload a))
      as [[[bid ask]|]|]; reflexivity.
Qed.

Lemma handle_frame_aligned m va :
  aligned m -> aligned (handle_frame float_of_string m va).
Proof.
  intros Hm. rewrite handle_frame_is_update.
  destruct (quote_of _ _ _) as [[bid ask]|]; [|assumption].
  now apply aligned_update.
Qed.

Lemma handle_frame_keys m va ex :
  In ex (keys (Speed.prices (handle_frame float_of_string m va))) ->
  In ex (keys (Speed.prices m)) \/ ex = venue_name (fst va).
Proof.
  rewrite handle_frame_is_update.
  destruct (quote_of _ _ _) as [[bid ask]|]; [|now left].
  unfold apply_update, Speed.update_price. cbn [fst Speed.prices upd_exchange
    upd_bid upd_ask upd_timestamp upd_clock].
  rewrite keys_setitem_in. tauto.
Qed.

Lemma handle_frame_count m va v :
  get (Speed.message_counts (handle_frame float_of_string m va))
    (venue_name v) 0%Z
  = (get (Speed.message_counts m) (venue_name v) 0
     + Z.of_nat (List.length (quotes_from float_of_string v [va])))%Z.
Proof.
  rewrite handle_frame_is_update. unfold quotes_from. cbn [filter].
  destruct va as [w a]. cbn [fst snd].
  destruct (quote_of float_of_string w (payload a)) as [[bid ask]|] eqn:Hq.
  - rewrite count_after_update. cbn [upd_exchange].
    destruct w, v; cbn [venue_name]; try rewrite Hq; cbn; lia.
  - destruct w, v; try rewrite Hq; cbn; lia.
Qed.

End ThreeFeeds.

(** Whatever frames the three feeds of [ArbitrageSpeedMonitor] handle, in
    whatever order, the monitor lists only Binance, Bybit and OKX, each at
    most once and alike in its three dictionaries, so a pass visits at most
    three pairs; and the message count of a venue is the number of its
    frames that gave a quote: a frame that is passed over or whose handling
    raises is not counted. *)
Theorem feeds_count_the_quotes :
  forall (float_of_string : string -> result float) start frames,
    let m := handle_frames float_of_string (Speed.init start) frames in
    aligned m
    /\ (forall ex, In ex (keys (Speed.prices m)) ->
                   ex = "Binance" \/ ex = "Bybit" \/ ex = "OKX")
    /\ (List.length (Speed.pairs (keys (Speed.prices m))) <= 3)%nat
    /\ forall v,
         get (Speed.message_counts m) (venue_name v) 0%Z
         = Z.of_nat (List.length (quotes_from float_of_string v frames)).
Proof.
  intros fos start frames m. subst m. unfold handle_frames.
  assert (Hgen : forall m0,
             aligned m0 ->
             let m := fold_left (handle_frame fos) frames m0 in
             aligned m
             /\ (forall ex, In ex (keys (Speed.prices m)) ->
                   In ex (keys (Speed.prices m0))
                   \/ ex = "Binance" \/ ex = "Bybit" \/ ex = "OKX")
             /\ forall v,
                  get (Speed.message_counts m) (venue_name v) 0%Z
                  = (get (Speed.message_counts m0) (venue_name v) 0
                     + Z.of_nat
                         (List.length (quotes_from fos v frames)))%Z).
  { induction frames as [|va frames IH]; intros m0 Hm0; cbn [fold_left].
    - split; [assumption|]. split; [auto|]. intros v. cbn. lia.
    - destruct (IH (handle_frame fos m0 va) (handle_frame_aligned fos m0 va Hm0))
        as (Hal & Hk & Hc).
      split; [exact Hal|]. split.
      + intros ex Hex. destruct (Hk ex Hex) as [Hin|Hname]; [|auto].
        apply handle_frame_keys in Hin as [Hin| ->]; [auto|].
        right. destruct (fst va); cbn; auto.
      + intros v. rewrite Hc, handle_frame_count.
        unfold quotes_from. cbn [filter].
        match goal with
        | |- context [if ?b then _ else _] => destruct b
        end; cbn [List.length]; lia. }
  destruct (Hgen (Speed.init start) (aligned_init start)) as (Hal & Hk & Hc).
  split; [exact Hal|]. split; [|split].
  - intros ex Hex. destruct (Hk ex Hex) as [[]|H]; exact H.
  - destruct Hal as (_ & _ & Hnd).
    assert (Hlen : (List.length
                      (keys (Speed.prices
                               (fold_left (handle_frame fos) frames
                                  (Speed.init start)))) <= 3)%nat).
    { apply (NoDup_incl_length Hnd (l' := ["Binance"; "Bybit"; "OKX"])).
      intros ex Hex. destruct (Hk ex Hex) as [[]|[->|[->| ->]]]; simpl; auto. }
    pose proof (pairs_length
                  (keys (Speed.prices
                           (fold_left (handle_frame fos) frames
                              (Speed.init start))))) as Hp.
    nia.
  - intros v. rewrite Hc. cbn. lia.
Qed.

Lemma final_stats_count_the_updates_witness :
  SpeedReport.total_messages
    (SpeedReport.mkStats 11 2 (Wire.float_of_Z 2 / 11) "Binance")
  = Z.of_nat
      (List.length
         [mkUpdate "Binance" 100 101 None clock_11;
          mkUpdate "OKX" 99 100 None clock_11]).
Proof.
  refine (proj1 (proj1 (proj2 (final_stats_count_the_updates 0%float
                                 [mkUpdate "Binance" 100 101 None clock_11;
                                  mkUpdate "OKX" 99 100 None clock_11]
                                 11%float)) _ _)).
  vm_compute. reflexivity.
Defined.

(** ** [FreeArbitrageMonitor.monitor_bybit] *)

(** The Bybit feed of [FreeArbitrageMonitor] parses a frame only when its
    text holds the marker, the key [topic] followed at once by a colon and
    a value that starts with [orderbook]: any other frame is passed over
    and the feed goes on, be its text JSON or not.  A frame that holds
    them and is not JSON ends the receive loop.  One that holds them and
    parses to an object whose [data] has the sides [b] and [a] stores
    the first price of each under [bybit]. *)
Theorem free_bybit_feed_looks_for_the_topic :
  forall (float_of_string : string -> result float) (m : Free.monitor)
         (h : FreeBybit.heard),
    (FreeBybit.has_marker (FreeBybit.text h) = false ->
     FreeBybit.on_message float_of_string m h = (m, Continue))
    /\ (FreeBybit.has_marker (FreeBybit.text h) = true ->
        payload (FreeBybit.arrived h) = Garbage ->
        FreeBybit.on_message float_of_string m h = (m, Break))
    /\ (forall members book pb rb db pa ra da x y,
        FreeBybit.has_marker (FreeBybit.text h) = true ->
        payload (FreeBybit.arrived h) = Json (JDict members) ->
        getitem members "data" = Ok (JDict book) ->
        getitem book "b" = Ok (side pb rb db) ->
        getitem book "a" = Ok (side pa ra da) ->
        float_of_string pb = Ok x ->
        float_of_string pa = Ok y ->
        getitem
          (Free.prices (fst (FreeBybit.on_message float_of_string m h)))
          "bybit"
        = Ok (Free.mkPrice x y (readings (FreeBybit.arrived h) 2%nat)
                ((readings (FreeBybit.arrived h) 1%nat
                  - readings (FreeBybit.arrived h) 0%nat) * 1000)%float)).
Proof.
  intros fos m h. split; [|split].
  - intros Hno. unfold FreeBybit.on_message, FreeBybit.decode.
    now rewrite Hno.
  - intros Hyes Hpay. unfold FreeBybit.on_message, FreeBybit.decode.
    now rewrite Hyes, Hpay.
  - intros members book pb rb db pa ra da x y Hyes Hpay Hd Hb Ha Hx Hy.
    assert (Hdec : FreeBybit.decode fos h = Done (Some (x, y))).
    { unfold FreeBybit.decode. rewrite Hyes, Hpay.
      cbn [loads lift and_then]. rewrite (contains_member _ _ _ Hd).
      cbn [lift and_then subscript]. rewrite Hd.
      cbn [lift and_then Venues.get_method].
      rewrite (get_found _ _ _ _ Hb), (get_found _ _ _ _ Ha).
      now apply top_of_book_levels. }
    unfold FreeBybit.on_message. rewrite Hdec.
    match goal with
    | |- context [Free.check_arbitrage ?m1 ?t ?s] =>
        destruct (Free.check_arbitrage m1 t s) as [m2|e] eqn:Hcheck
    end; cbn [fst].
    + rewrite (free_check_prices _ _ _ _ Hcheck). cbn [Free.prices].
      apply getitem_setitem_same.
    + cbn [Free.prices]. apply getitem_setitem_same.
Qed.

Lemma free_bybit_feed_looks_for_the_topic_witness :
  getitem
    (Free.prices
       (fst (FreeBybit.on_message float_of_decimal Free.init
               (FreeBybit.mkHeard bybit_text
                  (arrive (Json (JDict bybit_book_A)))))))
    "bybit"
  = Ok (Free.mkPrice 100.00 100.10 11 ((11 - 11) * 1000)).
Proof.
  refine (proj2 (proj2 (free_bybit_feed_looks_for_the_topic float_of_decimal
                          Free.init
                          (FreeBybit.mkHeard bybit_text
                             (arrive (Json (JDict bybit_book_A))))))
            bybit_book_A
            [("b", side "100.00" [JStr "1"] []);
             ("a", side "100.10" [JStr "2"] [])]
            "100.00" [JStr "1"] [] "100.10" [JStr "2"] []
            100.00%float 100.10%float _ _ _ _ _ _ _).
  all: vm_compute; reflexivity.
Defined.
